(** * Build monitor of the GitHub APK builder (apk_builder.py)

    A shallow embedding of [get_workflow_runs], [get_workflow_logs],
    [download_apk] and [monitor_build] of class [GitHubAPKBuilder], together
    with the parts of Python's [requests], [zipfile], [tempfile] and [os]
    modules those four methods call.

    The Python code is dynamically typed and effectful.  It is embedded as
    - JSON values with Python's truthiness, subscripting and iteration,
    - a state-and-exception monad over a [world] that records the requests
      sent, the lines printed, the sleeps, the temporary files and the file
      tree of the current directory,
    - the remote service as an oracle [server] answering the n-th request.

    Module [Session] embeds the methods that lead up to the monitor:
    [setup_credentials] with [save_config], [check_git_repo],
    [init_git_repo], [create_github_repo], [create_workflow_file],
    [commit_and_push] and [run].  They run over a [session]: the world, the
    configuration [self.config] (a dict), and a journal of the processes
    run, the requests sent, the lines read and the lines printed.  Git, the
    terminal and the service are oracles; [KeyboardInterrupt] and other
    exceptions that are no [Exception] are left out. *)

From Stdlib Require Import String Ascii List ZArith NArith Arith Bool Lia.
From Equations Require Import Equations.
Import ListNotations.
Open Scope string_scope.
Set Warnings "-register-all".

(* ===================================================================== *)
(** ** Python values decoded from JSON                                    *)
(* ===================================================================== *)

Module Json.

(** What [response.json()] can return.  Numbers are kept integral: the code
    only formats or compares them. An object is the list of its items in
    insertion order; [getitem] reads the first item with the key. *)
Inductive json : Type :=
| JNull
| JBool (b : bool)
| JNum (z : Z)
| JStr (s : string)
| JArr (items : list json)
| JObj (fields : list (string * json)).

(** Exceptions that the modelled calls can raise. *)
Inductive exn : Type :=
| KeyError (key : string)
| TypeError
| IndexError
| JSONDecodeError
| RequestException
| BadZipFile
| UnicodeDecodeError
| OSError.

Inductive result (A : Type) : Type :=
| Ok (a : A)
| Raise (e : exn).
Arguments Ok {A} a.
Arguments Raise {A} e.

(** [bool(v)] *)
Definition truthy (v : json) : bool :=
  match v with
  | JNull => false
  | JBool b => b
  | JNum z => negb (z =? 0)%Z
  | JStr s => negb (s =? "")
  | JArr items => match items with [] => false | _ :: _ => true end
  | JObj fields => match fields with [] => false | _ :: _ => true end
  end.

Fixpoint assoc (key : string) (fields : list (string * json)) : option json :=
  match fields with
  | [] => None
  | (k, v) :: rest => if k =? key then Some v else assoc key rest
  end.

(** [v[key]] with a string key *)
Definition getitem (v : json) (key : string) : result json :=
  match v with
  | JObj fields =>
      match assoc key fields with
      | Some x => Ok x
      | None => Raise (KeyError key)
      end
  | _ => Raise TypeError
  end.

(** [v[0]] *)
Definition getitem0 (v : json) : result json :=
  match v with
  | JArr (x :: _) => Ok x
  | JArr [] => Raise IndexError
  | JStr (String c _) => Ok (JStr (String c ""))
  | JStr "" => Raise IndexError
  | JObj _ => Raise (KeyError "0")
  | _ => Raise TypeError
  end.

Fixpoint chars (s : string) : list json :=
  match s with
  | "" => []
  | String c rest => JStr (String c "") :: chars rest
  end.

(** The elements a [for x in v] loop visits. *)
Definition iterate (v : json) : result (list json) :=
  match v with
  | JArr items => Ok items
  | JObj fields => Ok (map (fun kv => JStr (fst kv)) fields)
  | JStr s => Ok (chars s)
  | _ => Raise TypeError
  end.

(** [v == 'literal'] *)
Definition eq_str (v : json) (literal : string) : bool :=
  match v with
  | JStr s => s =? literal
  | _ => false
  end.

End Json.
Export Json.

(** [s.endswith(suffix)] *)
Fixpoint endswith (s suffix : string) : bool :=
  (s =? suffix) ||
  match s with
  | "" => false
  | String _ s' => endswith s' suffix
  end.

(* ===================================================================== *)
(** ** The file tree under the current directory                          *)
(* ===================================================================== *)

Module Fs.

Inductive node : Type :=
| File (data : string)
| Dir (entries : list (string * node)).

(** The entries of a directory, in the order [os.scandir] lists them. *)
Definition dir : Type := list (string * node).

Fixpoint lookup (name : string) (d : dir) : option node :=
  match d with
  | [] => None
  | (n, x) :: rest => if n =? name then Some x else lookup name rest
  end.

(** Replace the entry called [name], or add it when there is none. *)
Fixpoint set_entry (name : string) (x : node) (d : dir) : dir :=
  match d with
  | [] => [(name, x)]
  | (n, y) :: rest =>
      if n =? name then (n, x) :: rest else (n, y) :: set_entry name x rest
  end.

(** Walk down [path], creating the directories that are missing, and let
    [leaf] decide what becomes of the last component.  [None] is an
    [OSError]: a component that should be a directory is a regular file,
    [leaf] refuses, or the path is the directory itself. *)
Fixpoint alter_at (path : list string) (leaf : option node -> option node)
         (d : dir) : option dir :=
  match path with
  | [] => None
  | name :: rest =>
      match rest with
      | [] =>
          match leaf (lookup name d) with
          | Some x => Some (set_entry name x d)
          | None => None
          end
      | _ :: _ =>
          match lookup name d with
          | Some (File _) => None
          | Some (Dir sub) =>
              match alter_at rest leaf sub with
              | Some sub' => Some (set_entry name (Dir sub') d)
              | None => None
              end
          | None =>
              match alter_at rest leaf [] with
              | Some sub' => Some (set_entry name (Dir sub') d)
              | None => None
              end
          end
      end
  end.

(** [open(path, 'wb').write(data)], parents created as [os.makedirs] does. *)
Definition write_file (path : list string) (data : string) (d : dir) : option dir :=
  alter_at path
    (fun old => match old with Some (Dir _) => None | _ => Some (File data) end) d.

(** [os.makedirs(path)] when the path does not exist yet. *)
Definition make_dirs (path : list string) (d : dir) : option dir :=
  match path with
  | [] => Some d
  | _ :: _ =>
      alter_at path
        (fun old =>
           match old with
           | None => Some (Dir [])
           | Some (Dir sub) => Some (Dir sub)
           | Some (File _) => None
           end) d
  end.

(** The names of the regular files of a directory: the [files] component of
    one [os.walk] triple. *)
Fixpoint files_of (d : dir) : list string :=
  match d with
  | [] => []
  | (n, File _) :: rest => n :: files_of rest
  | (_, Dir _) :: rest => files_of rest
  end.

(** [os.path.join(root, name)] *)
Definition path_join (root name : string) : string := root ++ "/" ++ name.

(** [os.walk(root)], top-down: the triple of a directory comes before the
    triples of its sub-directories. Only [root] and [files] are kept, the
    loop of [download_apk] reads nothing else. *)
Fixpoint walk (root : string) (x : node) : list (string * list string) :=
  match x with
  | File _ => []
  | Dir entries =>
      (root, files_of entries) ::
      (fix subdirs (es : dir) : list (string * list string) :=
         match es with
         | [] => []
         | (n, sub) :: rest => (walk (path_join root n) sub ++ subdirs rest)%list
         end) entries
  end.

(** The node at [path] below [d], if there is one. *)
Fixpoint find (path : list string) (d : dir) : option node :=
  match path with
  | [] => Some (Dir d)
  | name :: rest =>
      match lookup name d with
      | Some (Dir sub) => find rest sub
      | Some (File data) => match rest with [] => Some (File data) | _ :: _ => None end
      | None => None
      end
  end.

(** [os.path.exists] *)
Definition exists_path (path : list string) (d : dir) : bool :=
  match find path d with
  | Some _ => true
  | None => false
  end.

End Fs.
Export Fs.

(* ===================================================================== *)
(** ** Zip archives as [zipfile] sees them                                *)
(* ===================================================================== *)

Module Zip.

(** The data of a member: [Stored] reads back whole; [Damaged] makes the read
    raise [BadZipFile], either before anything is written ([None], a bad
    local header) or after [written] reached the target file (a CRC error
    found at the end of the copy). *)
Inductive payload : Type :=
| Stored (data : string)
| Damaged (written : option string).

Record member : Type := { filename : string; body : payload }.

(** The bytes of a response body, seen through [zipfile.ZipFile]: either the
    central directory cannot be read, or it lists members. *)
Inductive archive : Type :=
| NotAZip
| ZipOf (members : list member).

Definition namelist (members : list member) : list string :=
  map filename members.

(** [ZipFile.getinfo(name)]: the name table keeps the last member of a name. *)
Fixpoint getinfo (name : string) (members : list member) : option member :=
  match members with
  | [] => None
  | m :: rest =>
      match getinfo name rest with
      | Some m' => Some m'
      | None => if filename m =? name then Some m else None
      end
  end.

(** [name.split('/')] *)
Fixpoint split_slash (s : string) (cur : string) : list string :=
  match s with
  | "" => [cur]
  | String c rest =>
      if Ascii.eqb c "/"%char then cur :: split_slash rest ""
      else split_slash rest (cur ++ String c "")
  end.

(** The components [_extract_member] keeps of a member name: empty ones,
    [.] and [..] are dropped. *)
Definition arc_components (name : string) : list string :=
  filter (fun x => negb ((x =? "") || (x =? ".") || (x =? "..")))
         (split_slash name "").

Definition is_dir_name (name : string) : bool := endswith name "/".

(** [ZipFile._extract_member] into the directory [d]: the parent directories
    first, then a directory member is created, a file member is opened in the
    archive and copied to its target. *)
Definition extract_member (m : member) (d : dir) : result unit * dir :=
  let path := arc_components (filename m) in
  let upperdirs := removelast path in
  match (if exists_path upperdirs d then Some d else make_dirs upperdirs d) with
  | None => (Raise OSError, d)
  | Some d1 =>
      if is_dir_name (filename m) then
        match make_dirs path d1 with
        | Some d2 => (Ok tt, d2)
        | None => (Raise OSError, d1)
        end
      else
        match body m with
        | Damaged None => (Raise BadZipFile, d1)
        | Damaged (Some written) =>
            match write_file path written d1 with
            | Some d2 => (Raise BadZipFile, d2)
            | None => (Raise OSError, d1)
            end
        | Stored data =>
            match write_file path data d1 with
            | Some d2 => (Ok tt, d2)
            | None => (Raise OSError, d1)
            end
        end
  end.

(** [ZipFile.extractall('.')]: every name of [namelist()], in order, looked
    up again with [getinfo]; the first failure stops the loop. *)
Fixpoint extract_names (members : list member) (names : list string) (d : dir)
  : result unit * dir :=
  match names with
  | [] => (Ok tt, d)
  | name :: rest =>
      match getinfo name members with
      | None => (Raise (KeyError name), d)
      | Some m =>
          match extract_member m d with
          | (Ok _, d1) => extract_names members rest d1
          | (Raise e, d1) => (Raise e, d1)
          end
      end
  end.

Definition extractall (members : list member) (d : dir) : result unit * dir :=
  extract_names members (namelist members) d.

(** [ZipFile.open(name).read()] *)
Definition read_member (members : list member) (name : string) : result string :=
  match getinfo name members with
  | None => Raise (KeyError name)
  | Some m =>
      match body m with
      | Stored data => Ok data
      | Damaged _ => Raise BadZipFile
      end
  end.

End Zip.
Export Zip.

(* ===================================================================== *)
(** ** Strict UTF-8 decoding, [bytes.decode('utf-8')]                     *)
(* ===================================================================== *)

Module Utf8.

Definition between (lo hi b : N) : bool := ((lo <=? b) && (b <=? hi))%N.

(** Continuation byte, 0x80..0xBF. *)
Definition cont (b : N) : bool := between 128 191 b.

(** Well-formed byte sequences of the Unicode standard (table 3-7): no
    overlong forms, no surrogates, nothing above U+10FFFF. *)
Fixpoint well_formed (bs : list N) : bool :=
  match bs with
  | [] => true
  | b :: rest =>
      if (b <? 128)%N then well_formed rest
      else if between 194 223 b then
        match rest with
        | c1 :: r => cont c1 && well_formed r
        | _ => false
        end
      else if between 224 239 b then
        match rest with
        | c1 :: c2 :: r =>
            (if (b =? 224)%N then between 160 191 c1
             else if (b =? 237)%N then between 128 159 c1
             else cont c1) && cont c2 && well_formed r
        | _ => false
        end
      else if between 240 244 b then
        match rest with
        | c1 :: c2 :: c3 :: r =>
            (if (b =? 240)%N then between 144 191 c1
             else if (b =? 244)%N then between 128 143 c1
             else cont c1) && cont c2 && cont c3 && well_formed r
        | _ => false
        end
      else false
  end.

Definition codes (s : string) : list N := map N_of_ascii (list_ascii_of_string s).

(** The decoded text keeps the bytes it was decoded from. *)
Definition decode (raw : string) : result string :=
  if well_formed (codes raw) then Ok raw else Raise UnicodeDecodeError.

End Utf8.

(* ===================================================================== *)
(** ** The world the script runs in                                      *)
(* ===================================================================== *)

(** The four URLs the monitor requests.  The account name in them is
    [self.config['github_username']], fixed for a session; [run_id] and
    [download_url] are whatever the service's JSON held. *)
Inductive endpoint : Type :=
| RunsUrl (repo_name : string)
| LogsUrl (repo_name : string) (run_id : json)
| ArtifactsUrl (repo_name : string) (run_id : json)
| DownloadUrl (download_url : json).

(** A [requests.Response]: [json_body] is [None] when the body is not JSON;
    [content] is the body read as a zip archive. *)
Record response : Type := {
  status_code : Z;
  json_body : option json;
  content : archive
}.

(** [requests.get] either raises (no connection, time-out, malformed URL) or
    returns a response. *)
Inductive http_result : Type :=
| NoResponse
| Response (r : response).

(** Every [print] of the four methods. *)
Inductive message : Type :=
| MsgMonitoring
| MsgBuildStatus (status conclusion : json)
| MsgBuildCompleted
| MsgBuildFailed
| MsgBuildLogs
| MsgBuildTimeout
| MsgLogsFailed
| MsgLogName (file_name : string)
| MsgLogContent (content : string)
| MsgArtifactsFailed
| MsgArtifactNotFound
| MsgApkDownloaded
| MsgApkReady (apk_path : string)
| MsgApkDownloadFailed.

Inductive event : Type :=
| Request (url : endpoint)
| Sleep (seconds : Z)
| Print (line : message).

(** [trace] grows at its end.  [tmpfiles] are the files of the temporary
    directory, which lies outside the current directory; [cwd] is the tree
    under ['.']. *)
Record world : Type := {
  trace : list event;
  tmpfiles : list (nat * archive);
  next_tmp : nat;
  cwd : dir
}.

Definition is_request (e : event) : bool :=
  match e with Request _ => true | _ => false end.

(** How many requests have been sent so far. *)
Definition requests_sent (w : world) : nat :=
  length (filter is_request (trace w)).

Definition emit (e : event) (w : world) : world :=
  {| trace := trace w ++ [e]; tmpfiles := tmpfiles w;
     next_tmp := next_tmp w; cwd := cwd w |}.

(* ===================================================================== *)
(** ** State and exceptions                                               *)
(* ===================================================================== *)

Definition M (A : Type) : Type := world -> result A * world.

Definition ret {A} (a : A) : M A := fun w => (Ok a, w).

Definition raise {A} (e : exn) : M A := fun w => (Raise e, w).

Definition bind {A B} (c : M A) (k : A -> M B) : M B :=
  fun w =>
    match c w with
    | (Ok a, w1) => k a w1
    | (Raise e, w1) => (Raise e, w1)
    end.

Definition lift {A} (r : result A) : M A := fun w => (r, w).

(** [try: body finally: cleanup] *)
Definition try_finally {A} (body : M A) (cleanup : M unit) : M A :=
  fun w =>
    match body w with
    | (r, w1) =>
        match cleanup w1 with
        | (Ok _, w2) => (r, w2)
        | (Raise e, w2) => (Raise e, w2)
        end
    end.

Declare Scope py_scope.
Delimit Scope py_scope with py.
Notation "x <- c ;; k" := (bind c (fun x => k))
  (at level 61, c at next level, right associativity) : py_scope.
Notation "c ;; k" := (bind c (fun _ => k))
  (at level 61, right associativity) : py_scope.
Open Scope py_scope.

(** [for x in xs: body x] *)
Fixpoint for_each {A} (xs : list A) (body : A -> M unit) : M unit :=
  match xs with
  | [] => ret tt
  | x :: rest => body x ;; for_each rest body
  end.

Definition print (line : message) : M unit :=
  fun w => (Ok tt, emit (Print line) w).

(** [time.sleep(seconds)] *)
Definition sleep (seconds : Z) : M unit :=
  fun w => (Ok tt, emit (Sleep seconds) w).

(** [tempfile.NamedTemporaryFile(suffix='.zip', delete=False)], the body
    written to it; the result is the file's path. *)
Definition named_temporary_file (body : archive) : M nat :=
  fun w =>
    (Ok (next_tmp w),
     {| trace := trace w; tmpfiles := (next_tmp w, body) :: tmpfiles w;
        next_tmp := S (next_tmp w); cwd := cwd w |}).

Fixpoint tmp_lookup (path : nat) (fs : list (nat * archive)) : option archive :=
  match fs with
  | [] => None
  | (p, a) :: rest => if (p =? path)%nat then Some a else tmp_lookup path rest
  end.

Fixpoint tmp_remove (path : nat) (fs : list (nat * archive)) : list (nat * archive) :=
  match fs with
  | [] => []
  | (p, a) :: rest =>
      if (p =? path)%nat then rest else (p, a) :: tmp_remove path rest
  end.

(** [os.unlink(path)] *)
Definition unlink (path : nat) : M unit :=
  fun w =>
    match tmp_lookup path (tmpfiles w) with
    | None => (Raise OSError, w)
    | Some _ =>
        (Ok tt,
         {| trace := trace w; tmpfiles := tmp_remove path (tmpfiles w);
            next_tmp := next_tmp w; cwd := cwd w |})
    end.

(** [zipfile.ZipFile(path, 'r')]: the members, or [BadZipFile]. *)
Definition ZipFile (path : nat) : M (list member) :=
  fun w =>
    match tmp_lookup path (tmpfiles w) with
    | None => (Raise OSError, w)
    | Some NotAZip => (Raise BadZipFile, w)
    | Some (ZipOf members) => (Ok members, w)
    end.

(** [zip_file.extractall('.')] *)
Definition zip_extractall (members : list member) : M unit :=
  fun w =>
    match extractall members (cwd w) with
    | (r, d) =>
        (r, {| trace := trace w; tmpfiles := tmpfiles w;
               next_tmp := next_tmp w; cwd := d |})
    end.

(** [os.walk('.')] *)
Definition os_walk : M (list (string * list string)) :=
  fun w => (Ok (walk "." (Dir (cwd w))), w).

(** [response.json()] *)
Definition response_json (r : response) : M json :=
  match json_body r with
  | Some j => ret j
  | None => raise JSONDecodeError
  end.

(* ===================================================================== *)
(** ** The methods of [GitHubAPKBuilder]                                  *)
(* ===================================================================== *)

(** [max_attempts = 60] and the argument of [time.sleep] in [monitor_build]. *)
Definition max_attempts : nat := 60.
Definition poll_interval : Z := 10.

(** The [for artifact in artifacts] loop of [download_apk]: the first
    artifact named [app-debug], or [None] (JSON's null). *)
Fixpoint find_artifact (artifacts : list json) : result json :=
  match artifacts with
  | [] => Ok JNull
  | artifact :: rest =>
      match getitem artifact "name" with
      | Raise e => Raise e
      | Ok name =>
          if eq_str name "app-debug" then Ok artifact else find_artifact rest
      end
  end.

(** The inner loop [for file in files] of [download_apk]. *)
Fixpoint first_apk_in (root : string) (files : list string) : option string :=
  match files with
  | [] => None
  | file :: rest =>
      if endswith file ".apk" then Some (path_join root file)
      else first_apk_in root rest
  end.

(** The outer loop [for root, dirs, files in os.walk('.')]. *)
Fixpoint first_apk (triples : list (string * list string)) : option string :=
  match triples with
  | [] => None
  | (root, files) :: rest =>
      match first_apk_in root files with
      | Some apk_path => Some apk_path
      | None => first_apk rest
      end
  end.

Section Builder.

(** The remote service: its answer to the request sent when [n] requests
    have been sent before. *)
Variable server : nat -> endpoint -> http_result.

(** [requests.get(url, headers=self.headers)] *)
Definition requests_get (url : endpoint) : M response :=
  fun w =>
    match server (requests_sent w) url with
    | NoResponse => (Raise RequestException, emit (Request url) w)
    | Response r => (Ok r, emit (Request url) w)
    end.

Definition get_workflow_runs (repo_name : string) : M json :=
  response <- requests_get (RunsUrl repo_name) ;;
  if (status_code response =? 200)%Z then
    body <- response_json response ;;
    lift (getitem body "workflow_runs")
  else ret (JArr []).

(** One round of the [for file_name in zip_file.namelist()] loop. *)
Definition show_log (zip_file : list member) (file_name : string) : M unit :=
  if endswith file_name ".txt" then
    raw <- lift (read_member zip_file file_name) ;;
    content <- lift (Utf8.decode raw) ;;
    print (MsgLogName file_name) ;;
    print (MsgLogContent content)
  else ret tt.

Definition get_workflow_logs (repo_name : string) (run_id : json) : M unit :=
  response <- requests_get (LogsUrl repo_name run_id) ;;
  if (status_code response =? 200)%Z then
    temp_file_path <- named_temporary_file (content response) ;;
    try_finally
      (zip_file <- ZipFile temp_file_path ;;
       for_each (namelist zip_file) (show_log zip_file))
      (unlink temp_file_path)
  else print MsgLogsFailed.

(** The [with zipfile.ZipFile(...)] block of [download_apk]: [Some true] is
    its [return True], [None] is falling out of the block. *)
Definition extract_and_find (temp_file_path : nat) : M (option bool) :=
  zip_file <- ZipFile temp_file_path ;;
  zip_extractall zip_file ;;
  print MsgApkDownloaded ;;
  triples <- os_walk ;;
  match first_apk triples with
  | Some apk_path => print (MsgApkReady apk_path) ;; ret (Some true)
  | None => ret None
  end.

Definition download_apk (repo_name : string) (run_id : json) : M bool :=
  response <- requests_get (ArtifactsUrl repo_name run_id) ;;
  if negb (status_code response =? 200)%Z then
    print MsgArtifactsFailed ;; ret false
  else
    body <- response_json response ;;
    artifacts <- lift (getitem body "artifacts") ;;
    items <- lift (iterate artifacts) ;;
    apk_artifact <- lift (find_artifact items) ;;
    if negb (truthy apk_artifact) then
      print MsgArtifactNotFound ;; ret false
    else
      download_url <- lift (getitem apk_artifact "archive_download_url") ;;
      response <- requests_get (DownloadUrl download_url) ;;
      if (status_code response =? 200)%Z then
        temp_file_path <- named_temporary_file (content response) ;;
        returned <- try_finally (extract_and_find temp_file_path)
                                (unlink temp_file_path) ;;
        match returned with
        | Some b => ret b
        | None => ret false
        end
      else
        print MsgApkDownloadFailed ;; ret false.

(** The body of the [while] loop of [monitor_build] up to [time.sleep]:
    [Some b] is [return b], [None] goes on to sleep and count. *)
Definition poll_cycle (repo_name : string) : M (option bool) :=
  runs <- get_workflow_runs repo_name ;;
  if truthy runs then
    latest_run <- lift (getitem0 runs) ;;
    status <- lift (getitem latest_run "status") ;;
    conclusion <- lift (getitem latest_run "conclusion") ;;
    run_id <- lift (getitem latest_run "id") ;;
    print (MsgBuildStatus status conclusion) ;;
    if eq_str status "completed" then
      if eq_str conclusion "success" then
        print MsgBuildCompleted ;;
        download_apk repo_name run_id ;;
        ret (Some true)
      else
        print MsgBuildFailed ;;
        print MsgBuildLogs ;;
        get_workflow_logs repo_name run_id ;;
        ret (Some false)
    else ret None
  else ret None.

(** [while attempt < max_attempts: ...; time.sleep(10); attempt += 1],
    followed by the time-out message and [return False].  The two local
    variables of [monitor_build] are the arguments of the loop. *)
Equations? monitor_loop (repo_name : string) (max_attempts attempt : nat) : M bool
  by wf (max_attempts - attempt) lt :=
  monitor_loop repo_name max_attempts attempt with lt_dec attempt max_attempts := {
    | left _ =>
        returned <- poll_cycle repo_name ;;
        match returned with
        | Some b => ret b
        | None =>
            sleep poll_interval ;;
            monitor_loop repo_name max_attempts (S attempt)
        end
    | right _ => print MsgBuildTimeout ;; ret false }.
Proof. lia. Qed.

Definition monitor_build (repo_name : string) : M bool :=
  print MsgMonitoring ;;
  monitor_loop repo_name max_attempts 0.

End Builder.

(* ===================================================================== *)
(** ** Notions used to state the properties                                *)
(* ===================================================================== *)

(** What [get_workflow_runs] makes of the answer to its request. *)
Definition runs_of (h : http_result) : result json :=
  match h with
  | NoResponse => Raise RequestException
  | Response r =>
      if (status_code r =? 200)%Z then
        match json_body r with
        | Some body => getitem body "workflow_runs"
        | None => Raise JSONDecodeError
        end
      else Ok (JArr [])
  end.

(** What one poll shows to [monitor_build]: no run yet, or the three fields
    it reads of the first run listed. *)
Inductive observed : Type :=
| NoRun
| LatestRun (status conclusion run_id : json).

Definition observe (runs : json) : result observed :=
  if truthy runs then
    match getitem0 runs with
    | Raise e => Raise e
    | Ok latest_run =>
        match getitem latest_run "status" with
        | Raise e => Raise e
        | Ok status =>
            match getitem latest_run "conclusion" with
            | Raise e => Raise e
            | Ok conclusion =>
                match getitem latest_run "id" with
                | Raise e => Raise e
                | Ok run_id => Ok (LatestRun status conclusion run_id)
                end
            end
        end
    end
  else Ok NoRun.

Definition poll_view (h : http_result) : result observed :=
  match runs_of h with
  | Ok runs => observe runs
  | Raise e => Raise e
  end.

(** A poll after which the monitor keeps polling: no run, or a first run
    whose status is not ['completed']. *)
Definition pending (h : http_result) : bool :=
  match poll_view h with
  | Ok NoRun => true
  | Ok (LatestRun status _ _) => negb (eq_str status "completed")
  | Raise _ => false
  end.

(** What [monitor_build] does with a run once it has printed its status. *)
Definition react (server : nat -> endpoint -> http_result) (repo : string)
           (status conclusion run_id : json) : M (option bool) :=
  if eq_str status "completed" then
    if eq_str conclusion "success" then
      print MsgBuildCompleted ;; download_apk server repo run_id ;; ret (Some true)
    else
      print MsgBuildFailed ;; print MsgBuildLogs ;;
      get_workflow_logs server repo run_id ;; ret (Some false)
  else ret None.

(** The world after one round of the loop that reached [time.sleep], and
    after [k] such rounds. *)
Definition cycle_world (server : nat -> endpoint -> http_result) (repo : string)
           (w : world) : world :=
  snd ((poll_cycle server repo ;; sleep poll_interval) w).

Fixpoint after_cycles (server : nat -> endpoint -> http_result) (repo : string)
         (k : nat) (w : world) : world :=
  match k with
  | 0 => w
  | S k' => after_cycles server repo k' (cycle_world server repo w)
  end.

(** The events of one cycle that ends in [time.sleep]. *)
Definition pending_events (repo_name : string) (h : http_result) : list event :=
  Request (RunsUrl repo_name) ::
  (match poll_view h with
   | Ok (LatestRun status conclusion _) => [Print (MsgBuildStatus status conclusion)]
   | _ => []
   end ++ [Sleep poll_interval])%list.

(** The events of [k] such cycles in a row, the first of them answered as
    request number [first]. *)
Fixpoint pending_trace (server : nat -> endpoint -> http_result) (repo_name : string)
         (first k : nat) : list event :=
  match k with
  | 0 => []
  | S k' =>
      (pending_events repo_name (server first (RunsUrl repo_name)) ++
       pending_trace server repo_name (S first) k')%list
  end.

(** A computation only adds events that satisfy [P]. *)
Definition emits {A} (P : event -> Prop) (c : M A) : Prop :=
  forall w, exists evs,
    trace (snd (c w)) = (trace w ++ evs)%list /\ Forall P evs.

(** The events [download_apk] adds after its first request, and those
    [get_workflow_logs] adds after its request. *)
Definition download_event (e : event) : Prop :=
  match e with
  | Request (DownloadUrl _)
  | Print MsgArtifactsFailed | Print MsgArtifactNotFound | Print MsgApkDownloaded
  | Print (MsgApkReady _) | Print MsgApkDownloadFailed => True
  | _ => False
  end.

Definition log_event (e : event) : Prop :=
  match e with
  | Print MsgLogsFailed | Print (MsgLogName _) | Print (MsgLogContent _) => True
  | _ => False
  end.

Definition count (p : event -> bool) (evs : list event) : nat :=
  length (filter p evs).

Definition is_runs_request (e : event) : bool :=
  match e with Request (RunsUrl _) => true | _ => false end.

Definition is_logs_request (e : event) : bool :=
  match e with Request (LogsUrl _ _) => true | _ => false end.

Definition is_artifacts_request (e : event) : bool :=
  match e with Request (ArtifactsUrl _ _) => true | _ => false end.

Definition is_sleep (e : event) : bool :=
  match e with Sleep _ => true | _ => false end.

(** The three lines that announce how the monitor ended. *)
Definition is_verdict (e : event) : bool :=
  match e with
  | Print MsgBuildCompleted | Print MsgBuildFailed | Print MsgBuildTimeout => true
  | _ => false
  end.

(** The verdict lines among [evs] agree with what a cycle returned: the
    success line for [True], the failure line for [False], none when the
    cycle returned nothing. *)
Definition cycle_verdict (r : result (option bool)) (evs : list event) : Prop :=
  match r with
  | Ok (Some true) => filter is_verdict evs = [Print MsgBuildCompleted]
  | Ok (Some false) => filter is_verdict evs = [Print MsgBuildFailed]
  | Ok None => filter is_verdict evs = []
  | Raise _ => True
  end.

(** The verdict lines among [evs] agree with what [monitor_build] returned:
    the success line for [True]; the failure line or the time-out line, and
    only one of them, for [False]. *)
Definition verdict_matches (r : result bool) (evs : list event) : Prop :=
  match r with
  | Ok true => filter is_verdict evs = [Print MsgBuildCompleted]
  | Ok false =>
      filter is_verdict evs = [Print MsgBuildFailed] \/
      filter is_verdict evs = [Print MsgBuildTimeout]
  | Raise _ => True
  end.

(** A regular file called [name] lies somewhere in the tree. *)
Inductive has_file (name : string) : dir -> Prop :=
| has_file_here (d : dir) (data : string) :
    In (name, File data) d -> has_file name d
| has_file_below (d : dir) (sub_name : string) (sub : dir) :
    In (sub_name, Dir sub) d -> has_file name sub -> has_file name d.

(** The entry is a file called [name], or a directory with such a file
    somewhere below it. *)
Definition entry_has (name : string) (e : string * node) : Prop :=
  match snd e with
  | File _ => fst e = name
  | Dir sub => has_file name sub
  end.

(** Opening the downloaded body as a zip and extracting it into [d]. *)
Definition open_and_extract (a : archive) (d : dir) : result unit * dir :=
  match a with
  | NotAZip => (Raise BadZipFile, d)
  | ZipOf members => extractall members d
  end.

(** The artifact listing leads [download_apk] to ask for [download_url]. *)
Definition listing_selects (r : response) (download_url : json) : Prop :=
  status_code r = 200%Z /\
  exists body artifacts items apk_artifact,
    json_body r = Some body /\
    getitem body "artifacts" = Ok artifacts /\
    iterate artifacts = Ok items /\
    find_artifact items = Ok apk_artifact /\
    truthy apk_artifact = true /\
    getitem apk_artifact "archive_download_url" = Ok download_url.

(* ===================================================================== *)
(** ** Scenarios                                                          *)
(* ===================================================================== *)

Module Scenario.

Definition world0 : world :=
  {| trace := []; tmpfiles := []; next_tmp := 0; cwd := [] |}.

Definition run (status : string) (conclusion : json) (id : Z) : json :=
  JObj [("id", JNum id); ("status", JStr status); ("conclusion", conclusion)].

Definition runs_response (runs : list json) : http_result :=
  Response {| status_code := 200;
              json_body := Some (JObj [("total_count", JNum (Z.of_nat (length runs)));
                                       ("workflow_runs", JArr runs)]);
              content := NotAZip |}.

Definition status_only (code : Z) : http_result :=
  Response {| status_code := code; json_body := None; content := NotAZip |}.

Definition artifacts_response : http_result :=
  Response {| status_code := 200;
              json_body := Some (JObj [("total_count", JNum 1);
                ("artifacts",
                 JArr [JObj [("id", JNum 11); ("name", JStr "app-debug");
                             ("archive_download_url", JStr "https://api.github.com/zip/11")]])]);
              content := NotAZip |}.

Definition zip_response (a : archive) : http_result :=
  Response {| status_code := 200; json_body := None; content := a |}.

(** A service that answers the [n]-th request, when it is a run listing,
    with the [n]-th element of [polls], and any other request by [rest]. *)
Definition service (polls : list http_result) (rest : endpoint -> http_result)
  : nat -> endpoint -> http_result :=
  fun n url =>
    match url with
    | RunsUrl _ => nth n polls (status_only 404)
    | _ => rest url
    end.

Definition in_progress : http_result :=
  runs_response [run "in_progress" JNull 7].

Definition apk_zip : archive :=
  ZipOf [ {| filename := "app-debug.apk"; body := Stored "PK-apk-bytes" |} ].

Definition logs_zip : archive :=
  ZipOf [ {| filename := "build/1_checkout.txt"; body := Stored "checkout ok" |};
          {| filename := "build/2_gradle.txt"; body := Stored "FAILURE: Build failed" |} ].

(** Artifacts are listed and the archive is served. *)
Definition store (a : archive) (url : endpoint) : http_result :=
  match url with
  | ArtifactsUrl _ _ => artifacts_response
  | DownloadUrl _ => zip_response a
  | LogsUrl _ _ => zip_response logs_zip
  | RunsUrl _ => status_only 404
  end.

(** Two polls in progress, then a successful run 42. *)
Definition succeeds : nat -> endpoint -> http_result :=
  service [in_progress; in_progress;
           runs_response [run "completed" (JStr "success") 42; run "completed" (JStr "failure") 41]]
          (store apk_zip).

(** Five polls in progress, then the failed run 7. *)
Definition fails : nat -> endpoint -> http_result :=
  service [in_progress; in_progress; in_progress; in_progress; in_progress;
           runs_response [run "completed" (JStr "failure") 7]]
          (store apk_zip).

(** The run never completes. *)
Definition hangs : nat -> endpoint -> http_result :=
  fun _ url =>
    match url with
    | RunsUrl _ => in_progress
    | _ => status_only 404
    end.

(** The build is not registered during the first three polls. *)
Definition late : nat -> endpoint -> http_result :=
  service [runs_response []; runs_response []; runs_response [];
           runs_response [run "completed" (JStr "success") 42]]
          (store apk_zip).

(** The service is down: every listing is answered 500. *)
Definition down : nat -> endpoint -> http_result :=
  fun _ _ => status_only 500.

(** The service is up and lists no run. *)
Definition idle : nat -> endpoint -> http_result :=
  fun _ _ => runs_response [].

(** A run in progress that has no [conclusion] key at all. *)
Definition bare : nat -> endpoint -> http_result :=
  fun _ _ =>
    runs_response [JObj [("id", JNum 7); ("status", JStr "in_progress")]].

(** A directory that already holds an APK of an earlier build. *)
Definition stale_world : world :=
  {| trace := []; tmpfiles := []; next_tmp := 0;
     cwd := [("app", Dir [("build.gradle", File "android {}")]);
             ("old", Dir [("release.apk", File "PK-old")])] |}.

(** An artifact without any APK in it. *)
Definition notes_zip : archive :=
  ZipOf [ {| filename := "docs/notes.txt"; body := Stored "nothing built" |} ].

(** An artifact whose second member fails its CRC check after one byte. *)
Definition torn_zip : archive :=
  ZipOf [ {| filename := "app-debug.apk"; body := Stored "PK-apk-bytes" |};
          {| filename := "output-metadata.json"; body := Damaged (Some "{") |} ].

(** The same answers whatever the number of the request. *)
Definition serving (a : archive) : nat -> endpoint -> http_result :=
  fun _ => store a.

(** The first poll shows the successful run 42. *)
Definition built (a : archive) : nat -> endpoint -> http_result :=
  service [runs_response [run "completed" (JStr "success") 42]] (store a).

(** The run succeeded, the artifact listing is answered 404. *)
Definition unlisted : nat -> endpoint -> http_result :=
  service [runs_response [run "completed" (JStr "success") 42]]
          (fun _ => status_only 404).

(** No request gets through. *)
Definition offline : nat -> endpoint -> http_result :=
  fun _ _ => NoResponse.

(** Listing fails once with 500, then the run fails and its logs are gone. *)
Definition flaky : nat -> endpoint -> http_result :=
  service [status_only 500; in_progress;
           runs_response [run "completed" (JStr "cancelled") 9]]
          (fun _ => status_only 404).

(** Two artifacts are listed before [app-debug], a second [app-debug] and
    a malformed entry after it. *)
Definition crowded_listing : response :=
  {| status_code := 200;
     json_body := Some (JObj [("total_count", JNum 5);
       ("artifacts",
        JArr [JObj [("id", JNum 1); ("name", JStr "lint-report");
                    ("archive_download_url", JStr "https://api.github.com/zip/1")];
              JObj [("id", JNum 2); ("name", JStr "app-release");
                    ("archive_download_url", JStr "https://api.github.com/zip/2")];
              JObj [("id", JNum 3); ("name", JStr "app-debug");
                    ("archive_download_url", JStr "https://api.github.com/zip/3")];
              JObj [("id", JNum 4); ("name", JStr "app-debug");
                    ("archive_download_url", JStr "https://api.github.com/zip/4")];
              JNum 5])]);
     content := NotAZip |}.

Definition crowded : nat -> endpoint -> http_result :=
  fun _ url =>
    match url with
    | ArtifactsUrl _ _ => Response crowded_listing
    | DownloadUrl _ => zip_response apk_zip
    | _ => status_only 404
    end.

(** Only reports are listed, no [app-debug]. *)
Definition reports_only : nat -> endpoint -> http_result :=
  fun _ url =>
    match url with
    | ArtifactsUrl _ _ =>
        Response {| status_code := 200;
                    json_body := Some (JObj [("total_count", JNum 1);
                      ("artifacts",
                       JArr [JObj [("id", JNum 1); ("name", JStr "lint-report");
                                   ("archive_download_url",
                                    JStr "https://api.github.com/zip/1")]])]);
                    content := NotAZip |}
    | _ => status_only 404
    end.

(** The artifact is listed, its archive has expired. *)
Definition expired : nat -> endpoint -> http_result :=
  fun _ url =>
    match url with
    | ArtifactsUrl _ _ => artifacts_response
    | _ => status_only 410
    end.

(** Logs with a binary member that cannot be read. *)
Definition mixed_logs : archive :=
  ZipOf [ {| filename := "build/1_checkout.txt"; body := Stored "checkout ok" |};
          {| filename := "build/system.bin"; body := Damaged None |};
          {| filename := "build/2_gradle.txt"; body := Stored "FAILURE: Build failed" |} ].

End Scenario.

(* ===================================================================== *)
(** ** Text tests of the other methods                                    *)
(* ===================================================================== *)

(** [hay.startswith(needle)] *)
Fixpoint startswith (hay needle : string) : bool :=
  match needle, hay with
  | "", _ => true
  | String n needle', String h hay' => Ascii.eqb n h && startswith hay' needle'
  | String _ _, "" => false
  end.

(** [needle in hay] *)
Fixpoint contains (needle hay : string) : bool :=
  startswith hay needle ||
  match hay with
  | "" => false
  | String _ hay' => contains needle hay'
  end.

(** [header.split(', ')]: the separator is looked for from the left, and
    the text goes on after it. *)
Fixpoint split_comma_space (s cur : string) : list string :=
  match s with
  | "" => [cur]
  | String c rest =>
      match rest with
      | String " " rest' =>
          if Ascii.eqb c ","%char then cur :: split_comma_space rest' ""
          else split_comma_space rest (cur ++ String c "")
      | _ => split_comma_space rest (cur ++ String c "")
      end
  end.

(** [x in xs] for a list of strings *)
Definition mem (x : string) (xs : list string) : bool :=
  existsb (String.eqb x) xs.

(** The scope check of [setup_credentials]: [scopes] from the header
    [X-OAuth-Scopes], then the comprehension that collects the required
    scopes taken to be missing. *)
Definition required_scopes : list string := ["repo"; "workflow"].

Definition missing_scopes (header : string) : list string :=
  let scopes := split_comma_space header "" in
  filter (fun scope =>
            negb (mem scope scopes) &&
            negb (contains "repo" (String.concat " " scopes)))
         required_scopes.

(** [not s.strip()]: the text is made of white space only.  The characters
    [str.strip] removes are those of [str.isspace], here in UTF-8. *)
Module Blank.

Definition ascii_space (b : N) : bool :=
  Utf8.between 9 13 b || Utf8.between 28 31 b || (b =? 32)%N.

Fixpoint spaces_only (bs : list N) : bool :=
  match bs with
  | [] => true
  | b :: rest =>
      if ascii_space b then spaces_only rest
      else if (b =? 194)%N then
        match rest with
        | c :: r => ((c =? 133) || (c =? 160))%N && spaces_only r
        | _ => false
        end
      else if (b =? 225)%N then
        match rest with
        | c1 :: c2 :: r => (c1 =? 154)%N && (c2 =? 128)%N && spaces_only r
        | _ => false
        end
      else if (b =? 226)%N then
        match rest with
        | c1 :: c2 :: r =>
            ((c1 =? 128)%N &&
             (Utf8.between 128 138 c2 || (c2 =? 168) || (c2 =? 169) || (c2 =? 175))%N
             || (c1 =? 129)%N && (c2 =? 159)%N)
            && spaces_only r
        | _ => false
        end
      else if (b =? 227)%N then
        match rest with
        | c1 :: c2 :: r => (c1 =? 128)%N && (c2 =? 128)%N && spaces_only r
        | _ => false
        end
      else false
  end.

Definition blank (s : string) : bool := spaces_only (Utf8.codes s).

End Blank.

(* ===================================================================== *)
(** ** The methods that drive git and create the repository              *)
(* ===================================================================== *)

Module Session.

(** Exceptions of these methods: those of the monitor, the one
    [subprocess.run(check=True)] raises for a non-zero exit status, and the
    one [input] raises when the input has ended. *)
Inductive exc : Type :=
| Py (e : exn)
| CalledProcessError (returncode : Z)
| EOFError.

Inductive outcome (A : Type) : Type :=
| Done (a : A)
| Fails (e : exc).
Arguments Done {A} a.
Arguments Fails {A} e.

(** A [subprocess.CompletedProcess]. *)
Record completed_process : Type := {
  returncode : Z;
  stdout : string;
  stderr : string
}.

(** [subprocess.run] raises (the program cannot be started, its output
    cannot be decoded) or the process exits. *)
Inductive spawned : Type :=
| Raises (e : exn)
| Exited (p : completed_process).

(** The response to [requests.post]. *)
Record answer : Type := {
  answer_status : Z;
  answer_json : option json;
  answer_text : string
}.

Inductive posted : Type :=
| NoAnswer
| Answer (a : answer).

(** The response to the request for [https://api.github.com/user]:
    [oauth_scopes] is the header [X-OAuth-Scopes], when it is there. *)
Record user_answer : Type := {
  user_status : Z;
  oauth_scopes : option string
}.

(** The prompts of [input]. *)
Inductive prompt : Type :=
| AskToken
| AskUsername
| AskEmail
| AskRepoName (current_dir : string)
| AskContinue.

(** Every [print] of [setup_credentials], [init_git_repo],
    [create_github_repo], [create_workflow_file], [commit_and_push] and
    [run].  [SaySetupNotice n] is the [n]-th of the thirteen lines
    [setup_credentials] opens with. *)
Inductive line : Type :=
| SayStarted
| SaySetupNotice (n : nat)
| SayTokenRequired
| SayUsernameRequired
| SayEmailRequired
| SayInvalidToken
| SayMissingScopes (missing : list string)
| SayScopeConsequences
| SayVerified
| SayNotAndroid
| SayCompleted
| SayRetryHint
| SayInitializing
| SayInitialized
| SayInitFailed (e : exc)
| SayCreatingRepo (repo_name : string)
| SayRepoCreated
| SayRepoExists
| SayRepoCreationFailed (error_data : json)
| SayPermissionDenied
| SayTokenHelp (step : nat)
| SayRepoFailed (status : Z)
| SayErrorDetails (error_data : json)
| SayErrorResponse (text : string)
| SayWorkflowCreated
| SayGitignoreCreated
| SayCommitting
| SayAddFailed (err : string)
| SayNoChanges
| SayCommitFailed (err : string)
| SayRemoteFailed (err : string)
| SayPushing
| SayPushFailed
| SayPushStdout (out : string)
| SayPushStderr (err : string)
| SaySuggestProtection
| SaySuggestToken
| SaySuggestRepository
| SayPushed
| SayPushError (e : exc)
| SayUnexpected (e : exc).

Inductive action : Type :=
| Spawn (argv : list string)
| PostRepo (data : json)
| Say (l : line)
| Ask (p : prompt)
| GetUser (authorization : string).

(** [env] is the world of the monitor, whose [cwd] is the tree these methods
    write to as well; [config] is [self.config]; [journal] grows at its
    end. *)
Record session : Type := {
  env : world;
  config : list (string * json);
  journal : list action
}.

Definition is_spawn (a : action) : bool :=
  match a with Spawn _ => true | _ => false end.

Definition is_post (a : action) : bool :=
  match a with PostRepo _ => true | _ => false end.

Definition is_ask (a : action) : bool :=
  match a with Ask _ => true | _ => false end.

Definition is_get_user (a : action) : bool :=
  match a with GetUser _ => true | _ => false end.

(** How many processes have been run, how many posts sent, how many lines
    read, how many times the user was requested. *)
Definition spawns (s : session) : nat := length (filter is_spawn (journal s)).
Definition posts (s : session) : nat := length (filter is_post (journal s)).
Definition asks (s : session) : nat := length (filter is_ask (journal s)).
Definition gets (s : session) : nat := length (filter is_get_user (journal s)).

Definition record (a : action) (s : session) : session :=
  {| env := env s; config := config s; journal := journal s ++ [a] |}.

Definition set_tree (d : dir) (s : session) : session :=
  {| env := {| trace := trace (env s); tmpfiles := tmpfiles (env s);
               next_tmp := next_tmp (env s); cwd := d |};
     config := config s; journal := journal s |}.

Definition set_env (w : world) (s : session) : session :=
  {| env := w; config := config s; journal := journal s |}.

(** [config[key] = v]: the value of a key that is there is replaced where
    it stands, a new key goes to the end. *)
Fixpoint store_item (key : string) (v : json) (items : list (string * json))
  : list (string * json) :=
  match items with
  | [] => [(key, v)]
  | (k, old) :: rest =>
      if k =? key then (k, v) :: rest else (k, old) :: store_item key v rest
  end.

Definition Sh (A : Type) : Type := session -> outcome A * session.

Definition ret {A} (a : A) : Sh A := fun s => (Done a, s).

Definition throw {A} (e : exc) : Sh A := fun s => (Fails e, s).

Definition bind {A B} (c : Sh A) (k : A -> Sh B) : Sh B :=
  fun s =>
    match c s with
    | (Done a, s1) => k a s1
    | (Fails e, s1) => (Fails e, s1)
    end.

(** [try: body except ...: handler]; [None] is an exception no clause
    matches. *)
Definition catch {A} (body : Sh A) (handler : exc -> option (Sh A)) : Sh A :=
  fun s =>
    match body s with
    | (Done a, s1) => (Done a, s1)
    | (Fails e, s1) =>
        match handler e with
        | Some h => h s1
        | None => (Fails e, s1)
        end
    end.

Declare Scope session_scope.
Delimit Scope session_scope with session.
Notation "x <- c ;; k" := (bind c (fun x => k))
  (at level 61, c at next level, right associativity) : session_scope.
Notation "c ;; k" := (bind c (fun _ => k))
  (at level 61, right associativity) : session_scope.
Local Open Scope session_scope.

Definition say (l : line) : Sh unit := fun s => (Done tt, record (Say l) s).

(** [self.config[key]] *)
Definition config_item (key : string) : Sh json :=
  fun s =>
    match assoc key (config s) with
    | Some v => (Done v, s)
    | None => (Fails (Py (KeyError key)), s)
    end.

(** [config.get(key)] *)
Definition item (key : string) (items : list (string * json)) : json :=
  match assoc key items with
  | Some v => v
  | None => JNull
  end.

(** [self.config.get(key)] *)
Definition config_get (key : string) : Sh json :=
  fun s => (Done (item key (config s)), s).

(** [self.config[key] = v] *)
Definition config_store (key : string) (v : json) : Sh unit :=
  fun s =>
    (Done tt, {| env := env s; config := store_item key v (config s);
                 journal := journal s |}).

(** [os.path.exists(path)] *)
Definition path_exists (path : list string) : Sh bool :=
  fun s => (Done (exists_path path (cwd (env s))), s).

Fixpoint say_all (ls : list line) : Sh unit :=
  match ls with
  | [] => ret tt
  | l :: rest => say l ;; say_all rest
  end.

(** An element of an argument list has to be a string. *)
Definition argument (v : json) : Sh string :=
  match v with
  | JStr text => ret text
  | _ => throw (Py TypeError)
  end.

(** [os.makedirs(path, exist_ok=True)] *)
Definition makedirs (path : list string) : Sh unit :=
  fun s =>
    match make_dirs path (cwd (env s)) with
    | Some d => (Done tt, set_tree d s)
    | None => (Fails (Py OSError), s)
    end.

(** [with open(path, 'w') as f: f.write(text)] *)
Definition write_text (path : list string) (text : string) : Sh unit :=
  fun s =>
    match write_file path text (cwd (env s)) with
    | Some d => (Done tt, set_tree d s)
    | None => (Fails (Py OSError), s)
    end.

Definition workflow_content : string :=
"name: Android CI Build

# Controls when the workflow will run
on:
  push: # Run on every push to any branch
    branches: [ main, master, develop ] # Adjust to your main branches
  pull_request: # Run on pull requests targeting these branches
    branches: [ main, master, develop ]
  workflow_dispatch: # Allows you to run this workflow manually from the Actions tab

jobs:
  build:
    # The type of runner that the job will run on
    # ubuntu-latest provides a 64-bit Linux environment with Android SDKs pre-installed
    runs-on: ubuntu-latest

    steps:
      # 1. Checks-out your repository under $GITHUB_WORKSPACE, so your job can access it
      - name: Checkout repository
        uses: actions/checkout@v4 # Using v4, a recent stable version

      # 2. Set up JDK. Android builds require Java.
      #    Android Gradle Plugin 7.0+ needs JDK 11.
      #    Android Gradle Plugin 8.0+ needs JDK 17.
      #    Choose a version compatible with your AGP version (check your project's build.gradle)
      #    Let's assume JDK 17 for modern projects.
      - name: Set up JDK 17
        uses: actions/setup-java@v4
        with:
          java-version: '17'
          distribution: 'temurin' # A popular OpenJDK distribution

      # 3. (Optional but good practice) Cache Gradle dependencies and wrapper
      #    This speeds up subsequent builds.
      #    COMMENTED OUT to force fresh downloads and avoid cache issues.
      #    Uncomment this section once your build is stable.
      # - name: Cache Gradle packages
      #   uses: actions/cache@v3
      #   with:
      #     path: |
      #       ~/.gradle/caches
      #       ~/.gradle/wrapper
      #     key: ${{ runner.os }}-gradle-${{ hashFiles('**/*.gradle*', '**/gradle-wrapper.properties') }}
      #     restore-keys: |
      #       ${{ runner.os }}-gradle-

      # 4. Grant execute permission for gradlew
      #    The gradlew script needs to be executable.
      - name: Grant execute permission for gradlew
        run: chmod +x ./gradlew

      # 5. Build your app (e.g., assembleDebug or assembleRelease)
      #    'assembleDebug' creates a debug APK.
      #    'assembleRelease' creates a release APK (may require signing config for a *signed* release).
      #    For now, let's build a debug APK as it's simpler and doesn't require signing setup.
      #    You can change this to assembleRelease later.
      - name: Build with Gradle (Debug)
        run: ./gradlew assembleDebug
        # To build a release APK (it will be unsigned if signing is not configured):
        # run: ./gradlew assembleRelease

      # 6. Upload the generated APK as a build artifact
      #    The path to the APK depends on the build type (debug/release) and module name ('app').
      #    For assembleDebug: app/build/outputs/apk/debug/app-debug.apk
      #    For assembleRelease: app/build/outputs/apk/release/app-release.apk (or app-release-unsigned.apk)
      - name: Upload Debug APK
        uses: actions/upload-artifact@v4 # Using v4, a recent stable version
        with:
          name: app-debug # Name of the artifact that will appear in GitHub
          path: app/build/outputs/apk/debug/app-debug.apk # Path to the APK
          # If you built a release APK, use:
          # name: app-release
          # path: app/build/outputs/apk/release/app-release.apk

    # (Optional) If you build a release APK and want to upload it:
    # - name: Upload Release APK
    #   uses: actions/upload-artifact@v4
    #   with:
    #     name: app-release
    #     path: app/build/outputs/apk/release/app-release.apk # Ensure this path is correct for your build
".

Definition gitignore_content : string :=
"# GitHub APK Builder - Exclude sensitive config
github_builder_config.json

# Android Studio
*.iml
.gradle
/local.properties
/.idea/caches
/.idea/libraries
/.idea/modules.xml
/.idea/workspace.xml
/.idea/navEditor.xml
/.idea/assetWizardSettings.xml
.DS_Store
/build
/captures
.externalNativeBuild
.cxx
local.properties

# APK files
*.apk
*.aab

# Keystore files
*.jks
*.keystore
".

Definition create_workflow_file : Sh unit :=
  makedirs [".github"; "workflows"] ;;
  write_text [".github"; "workflows"; "build.yml"] workflow_content ;;
  write_text [".gitignore"] gitignore_content ;;
  say SayWorkflowCreated ;;
  say SayGitignoreCreated.

Section Methods.

(** The processes: what the [n]-th one run does to the tree and how it ends. *)
Variable git : nat -> list string -> dir -> spawned * dir.

(** The hosting service: its answer to the [n]-th post. *)
Variable github : nat -> json -> posted.

(** [str(v)] for a value that is not a string, [s.lower()], and the text
    [datetime.now().strftime('%Y-%m-%d %H:%M:%S')] gives. *)
Variable render : json -> string.
Variable lower : string -> string.
Variable timestamp : string.

(** [str(v)], as an f-string formats it. *)
Definition format (v : json) : string :=
  match v with
  | JStr text => text
  | _ => render v
  end.

(** [subprocess.run(argv, capture_output=True)] *)
Definition subprocess_run (argv : list string) : Sh completed_process :=
  fun s =>
    match git (spawns s) argv (cwd (env s)) with
    | (Raises e, _) => (Fails (Py e), record (Spawn argv) s)
    | (Exited p, d) => (Done p, set_tree d (record (Spawn argv) s))
    end.

(** [subprocess.run(argv, check=True)] *)
Definition subprocess_run_checked (argv : list string) : Sh completed_process :=
  p <- subprocess_run argv ;;
  if (returncode p =? 0)%Z then ret p
  else throw (CalledProcessError (returncode p)).

(** [requests.post('https://api.github.com/user/repos', json=data)] *)
Definition requests_post (data : json) : Sh answer :=
  fun s =>
    match github (posts s) data with
    | NoAnswer => (Fails (Py RequestException), record (PostRepo data) s)
    | Answer a => (Done a, record (PostRepo data) s)
    end.

(** [response.json()] *)
Definition answer_decoded (a : answer) : Sh json :=
  match answer_json a with
  | Some j => ret j
  | None => throw (Py JSONDecodeError)
  end.

Definition init_git_repo : Sh bool :=
  say SayInitializing ;;
  catch
    (subprocess_run_checked ["git"; "init"] ;;
     username <- config_item "github_username" ;;
     user_name <- argument username ;;
     subprocess_run_checked ["git"; "config"; "user.name"; user_name] ;;
     email <- config_item "email" ;;
     user_email <- argument email ;;
     subprocess_run_checked ["git"; "config"; "user.email"; user_email] ;;
     say SayInitialized ;;
     ret true)
    (fun e =>
       match e with
       | CalledProcessError _ => Some (say (SayInitFailed e) ;; ret false)
       | _ => None
       end).

Definition create_github_repo (repo_name : string) : Sh bool :=
  say (SayCreatingRepo repo_name) ;;
  let data :=
    JObj [("name", JStr repo_name);
          ("description", JStr ("Android APK build for " ++ repo_name));
          ("private", JBool false);
          ("auto_init", JBool false)] in
  response <- requests_post data ;;
  if (answer_status response =? 201)%Z then
    say SayRepoCreated ;; ret true
  else if (answer_status response =? 422)%Z then
    error_data <- answer_decoded response ;;
    if contains "already exists" (format error_data) then
      say SayRepoExists ;; ret true
    else
      say (SayRepoCreationFailed error_data) ;; ret false
  else if (answer_status response =? 403)%Z then
    say SayPermissionDenied ;;
    say (SayTokenHelp 0) ;; say (SayTokenHelp 1) ;; say (SayTokenHelp 2) ;;
    say (SayTokenHelp 3) ;; say (SayTokenHelp 4) ;; say (SayTokenHelp 5) ;;
    ret false
  else
    say (SayRepoFailed (answer_status response)) ;;
    catch
      (error_data <- answer_decoded response ;;
       say (SayErrorDetails error_data))
      (fun _ => Some (say (SayErrorResponse (answer_text response)))) ;;
    ret false.

(** The hint printed after a push that failed. *)
Definition suggest (err : string) : Sh unit :=
  if contains "remote rejected" (lower err) then say SaySuggestProtection
  else if contains "authentication failed" (lower err) then say SaySuggestToken
  else if contains "repository not found" (lower err) then say SaySuggestRepository
  else ret tt.

Definition commit_and_push (repo_name : string) : Sh bool :=
  say SayCommitting ;;
  catch
    (result <- subprocess_run ["git"; "add"; "."] ;;
     if negb (returncode result =? 0)%Z then
       say (SayAddFailed (stderr result)) ;; ret false
     else
       result <- subprocess_run ["git"; "status"; "--porcelain"] ;;
       if Blank.blank (stdout result) then
         say SayNoChanges ;; ret true
       else
         let commit_msg := "Initial commit - APK build setup " ++ timestamp in
         result <- subprocess_run ["git"; "commit"; "-m"; commit_msg] ;;
         if negb (returncode result =? 0)%Z then
           say (SayCommitFailed (stderr result)) ;; ret false
         else
           github_token <- config_item "github_token" ;;
           github_username <- config_item "github_username" ;;
           let remote_url :=
             "https://" ++ format github_token ++ "@github.com/" ++
             format github_username ++ "/" ++ repo_name ++ ".git" in
           subprocess_run ["git"; "remote"; "remove"; "origin"] ;;
           result <- subprocess_run ["git"; "remote"; "add"; "origin"; remote_url] ;;
           if negb (returncode result =? 0)%Z then
             say (SayRemoteFailed (stderr result)) ;; ret false
           else
             subprocess_run ["git"; "branch"; "-M"; "main"] ;;
             say SayPushing ;;
             result <- subprocess_run
                         ["git"; "push"; "-u"; "origin"; "main"; "--force"] ;;
             if negb (returncode result =? 0)%Z then
               say SayPushFailed ;;
               say (SayPushStdout (stdout result)) ;;
               say (SayPushStderr (stderr result)) ;;
               suggest (stderr result) ;;
               ret false
             else
               say SayPushed ;; ret true)
    (fun e =>
       match e with
       | CalledProcessError _ => Some (say (SayPushError e) ;; ret false)
       | _ => Some (say (SayUnexpected e) ;; ret false)
       end).

(** The lines typed at the terminal: the [n]-th one [input] reads, [None]
    when the input has ended. *)
Variable stdin : nat -> option string.

(** [str.strip] and [json.dump(config, f, indent=2)]. *)
Variable strip : string -> string.
Variable dump : list (string * json) -> string.

(** The service's answer to the [n]-th request for the user, sent with the
    given [Authorization] header. *)
Variable whoami : nat -> string -> option user_answer.

(** The service the monitor polls, and [os.path.basename(os.getcwd())]. *)
Variable server : nat -> endpoint -> http_result.
Variable current_dir : string.

Definition input (p : prompt) : Sh string :=
  fun s =>
    match stdin (asks s) with
    | Some text => (Done text, record (Ask p) s)
    | None => (Fails EOFError, record (Ask p) s)
    end.

Definition config_file : string := "github_builder_config.json".

Definition save_config : Sh unit :=
  fun s => write_text [config_file] (dump (config s)) s.

(** [requests.get('https://api.github.com/user', headers=self.headers)] *)
Definition requests_get_user (authorization : string) : Sh user_answer :=
  fun s =>
    match whoami (gets s) authorization with
    | None => (Fails (Py RequestException), record (GetUser authorization) s)
    | Some a => (Done a, record (GetUser authorization) s)
    end.

(** One of the three blocks of [setup_credentials] that see to an entry of
    the configuration; [rest] is what follows the block. *)
Definition required (key : string) (p : prompt) (complaint : line)
           (rest : Sh bool) : Sh bool :=
  v <- config_get key ;;
  if negb (truthy v) then
    text <- input p ;;
    let text := strip text in
    if text =? "" then
      say complaint ;; ret false
    else
      config_store key (JStr text) ;; rest
  else rest.

(** [setup_credentials] from [self.save_config(self.config)] on. *)
Definition verify_credentials : Sh bool :=
  save_config ;;
  token <- config_item "github_token" ;;
  response <- requests_get_user ("token " ++ format token) ;;
  if negb (user_status response =? 200)%Z then
    say SayInvalidToken ;; ret false
  else
    let missing :=
      missing_scopes
        (match oauth_scopes response with Some h => h | None => "" end) in
    match missing with
    | [] => ret tt
    | _ :: _ => say (SayMissingScopes missing) ;; say SayScopeConsequences
    end ;;
    say SayVerified ;; ret true.

Definition setup_credentials : Sh bool :=
  say_all (map SaySetupNotice (seq 0 13)) ;;
  required "github_token" AskToken SayTokenRequired
    (required "github_username" AskUsername SayUsernameRequired
       (required "email" AskEmail SayEmailRequired
          verify_credentials)).

Definition check_git_repo : Sh bool := path_exists [".git"].

(** [monitor_build], run in the world of the session. *)
Definition monitor (repo_name : string) : Sh bool :=
  fun s =>
    match monitor_build server repo_name (env s) with
    | (Ok b, w) => (Done b, set_env w s)
    | (Raise e, w) => (Fails (Py e), set_env w s)
    end.

(** [run] from the creation of the repository on. *)
Definition build_steps (repo_name : string) : Sh unit :=
  created <- create_github_repo repo_name ;;
  if negb created then ret tt
  else
    create_workflow_file ;;
    pushed <- commit_and_push repo_name ;;
    if negb pushed then ret tt
    else
      built <- monitor repo_name ;;
      if built then say SayCompleted else say SayRetryHint.

(** [run] from the check for a git repository on. *)
Definition git_steps (repo_name : string) : Sh unit :=
  is_repo <- check_git_repo ;;
  if negb is_repo then
    initialized <- init_git_repo ;;
    if negb initialized then ret tt else build_steps repo_name
  else build_steps repo_name.

Definition run : Sh unit :=
  say SayStarted ;;
  ready <- setup_credentials ;;
  if negb ready then ret tt
  else
    text <- input (AskRepoName current_dir) ;;
    let repo_name := if strip text =? "" then current_dir else strip text in
    in_app <- path_exists ["app"; "build.gradle"] ;;
    at_top <- path_exists ["build.gradle"] ;;
    if negb (in_app || at_top) then
      say SayNotAndroid ;;
      answer <- input AskContinue ;;
      if negb (lower answer =? "y") then ret tt
      else git_steps repo_name
    else git_steps repo_name.

End Methods.

(** The arguments of the processes run, in order. *)
Fixpoint spawned_argv (acts : list action) : list (list string) :=
  match acts with
  | [] => []
  | Spawn argv :: rest => argv :: spawned_argv rest
  | _ :: rest => spawned_argv rest
  end.

(** The seven commands of [commit_and_push], for the remote URL built from
    the configuration (an entry that is missing reads as the empty text). *)
Definition configured (render : json -> string) (key : string)
           (items : list (string * json)) : string :=
  match assoc key items with
  | Some v => format render v
  | None => ""
  end.

Definition push_script (render : json -> string) (timestamp repo_name : string)
           (items : list (string * json)) : list (list string) :=
  [ ["git"; "add"; "."];
    ["git"; "status"; "--porcelain"];
    ["git"; "commit"; "-m"; "Initial commit - APK build setup " ++ timestamp];
    ["git"; "remote"; "remove"; "origin"];
    ["git"; "remote"; "add"; "origin";
     "https://" ++ configured render "github_token" items ++ "@github.com/" ++
     configured render "github_username" items ++ "/" ++ repo_name ++ ".git"];
    ["git"; "branch"; "-M"; "main"];
    ["git"; "push"; "-u"; "origin"; "main"; "--force"] ].

(** The three commands of [init_git_repo]; an entry of the configuration
    that is missing or is no string reads as the empty text. *)
Definition configured_text (key : string) (items : list (string * json)) : string :=
  match assoc key items with
  | Some (JStr text) => text
  | _ => ""
  end.

Definition init_script (items : list (string * json)) : list (list string) :=
  [ ["git"; "init"];
    ["git"; "config"; "user.name"; configured_text "github_username" items];
    ["git"; "config"; "user.email"; configured_text "email" items] ].

(** How a script of commands run with [check=True] ends: every command
    exited with 0, one exited with another status, or one did not run. *)
Inductive ending : Type :=
| AllExited
| ExitedWith (rc : Z)
| NotRun (e : exn).

(** The commands of [script] run one after the other, the first of them as
    the [n]-th process and in the tree [d], up to and including the first
    that does not exit with 0: the commands run, the tree they leave, and
    the ending. *)
Fixpoint run_until_failure
         (git : nat -> list string -> dir -> spawned * dir)
         (n : nat) (d : dir) (script : list (list string))
  : list (list string) * dir * ending :=
  match script with
  | [] => ([], d, AllExited)
  | argv :: rest =>
      match git n argv d with
      | (Raises e, _) => ([argv], d, NotRun e)
      | (Exited p, d') =>
          if (returncode p =? 0)%Z then
            match run_until_failure git (S n) d' rest with
            | (ran, d'', e) => (argv :: ran, d'', e)
            end
          else ([argv], d', ExitedWith (returncode p))
      end
  end.

(** The three entries [setup_credentials] sees to are there and true. *)
Definition complete (items : list (string * json)) : bool :=
  truthy (item "github_token" items) &&
  truthy (item "github_username" items) &&
  truthy (item "email" items).

(** The body [create_github_repo] posts. *)
Definition repo_request (repo_name : string) : json :=
  JObj [("name", JStr repo_name);
        ("description", JStr ("Android APK build for " ++ repo_name));
        ("private", JBool false);
        ("auto_init", JBool false)].

(** The posts sent, in order. *)
Fixpoint posted_data (acts : list action) : list json :=
  match acts with
  | [] => []
  | PostRepo data :: rest => data :: posted_data rest
  | _ :: rest => posted_data rest
  end.

End Session.

(** Sessions at the terminal, to run the methods on. *)
Module Desk.

Definition fresh : Session.session :=
  {| Session.env := Scenario.world0; Session.config := [];
     Session.journal := [] |}.

Definition known : list (string * json) :=
  [("github_token", JStr "ghp_1"); ("github_username", JStr "alice");
   ("email", JStr "alice@example.org")].

Definition settled : Session.session :=
  {| Session.env := Scenario.world0; Session.config := known;
     Session.journal := [] |}.

(** The lines typed, one per [input]. *)
Definition typed (lines : list string) : nat -> option string :=
  fun n => nth_error lines n.

(** [strip] and [lower] on texts they leave alone, [json.dump] as the list
    of the keys, [str] of a value that is no string. *)
Definition strip (text : string) : string := text.
Definition lower (text : string) : string := text.
Definition dump (items : list (string * json)) : string :=
  String.concat "," (map fst items).
Definition render (v : json) : string := "".

Definition accepts (scopes : string) : nat -> string -> option Session.user_answer :=
  fun _ _ => Some {| Session.user_status := 200;
                     Session.oauth_scopes := Some scopes |}.

Definition rejects : nat -> string -> option Session.user_answer :=
  fun _ _ => Some {| Session.user_status := 401;
                     Session.oauth_scopes := None |}.

(** Every git command exits with 0; [git status] reports a change. *)
Definition git_ok : nat -> list string -> dir -> Session.spawned * dir :=
  fun _ argv d =>
    (Session.Exited
       {| Session.returncode := 0;
          Session.stdout :=
            if existsb (String.eqb "status") argv then " M build.gradle" else "";
          Session.stderr := "" |}, d).

(** The [k]-th process exits with 1 and leaves a file called after its
    number, the others exit with 0. *)
Definition git_refuses (k : nat) : nat -> list string -> dir -> Session.spawned * dir :=
  fun n argv d =>
    (Session.Exited
       {| Session.returncode := if (n =? k)%nat then 1 else 0;
          Session.stdout := ""; Session.stderr := "" |},
     if (n =? k)%nat then d else ((".git", Dir []) :: d)).

Definition creates : nat -> json -> Session.posted :=
  fun _ _ => Session.Answer {| Session.answer_status := 201;
                               Session.answer_json := None;
                               Session.answer_text := "" |}.

End Desk.

(** What a method of the session leaves behind: the events of the monitor
    are untouched, the journal has grown by [acts], and [P] holds of the
    value returned and of [acts]. *)
Definition step_spec {A} (P : A -> list Session.action -> Prop)
           (c : Session.Sh A) : Prop :=
  forall s,
    trace (Session.env (snd (c s))) = trace (Session.env s) /\
    exists acts,
      Session.journal (snd (c s)) = (Session.journal s ++ acts)%list /\
      forall a, fst (c s) = Session.Done a -> P a acts.

(** A step about which nothing more is said. *)
Definition calm {A} (c : Session.Sh A) : Prop := step_spec (fun _ _ => True) c.

(** [P] holds of what the journal gained when the method returns [True]. *)
Definition marks (P : list Session.action -> Prop) (b : bool)
           (acts : list Session.action) : Prop :=
  b = true -> P acts.

Definition said (l : Session.line) (acts : list Session.action) : Prop :=
  In (Session.Say l) acts.

(** Either the monitor has not run, or [Q] holds of what the journal
    gained. *)
Definition before_monitor {A} (Q : list Session.action -> Prop)
           (c : Session.Sh A) : Prop :=
  forall s,
    trace (Session.env (snd (c s))) = trace (Session.env s) \/
    exists acts,
      Session.journal (snd (c s)) = (Session.journal s ++ acts)%list /\ Q acts.

(** The steps of [run] that come before [monitor_build] went well. *)
Definition pushed (acts : list Session.action) : Prop :=
  said Session.SayPushed acts \/ said Session.SayNoChanges acts.

Definition created (acts : list Session.action) : Prop :=
  said Session.SayRepoCreated acts \/ said Session.SayRepoExists acts.

Definition prepared (acts : list Session.action) : Prop :=
  created acts /\ said Session.SayGitignoreCreated acts /\ pushed acts.

Definition ready (acts : list Session.action) : Prop :=
  said Session.SayVerified acts /\ prepared acts.

(* ===================================================================== *)
(** ** Measures on runs of the monitor                                    *)
(* ===================================================================== *)

(** The weight [mu] of the events of a trace, added up. *)
Definition total (mu : event -> nat) (evs : list event) : nat :=
  list_sum (map mu evs).

(** One for every request. *)
Definition request_weight (e : event) : nat :=
  if is_request e then 1 else 0.

(** One for every run listing. *)
Definition listing_weight (e : event) : nat :=
  if is_runs_request e then 1 else 0.

(** The seconds of a sleep. *)
Definition sleep_weight (e : event) : nat :=
  match e with
  | Sleep seconds => Z.to_nat seconds
  | _ => 0
  end.

(** A computation adds at most [n] to the weight of the trace. *)
Definition costs {A} (mu : event -> nat) (n : nat) (c : M A) : Prop :=
  forall w, total mu (trace (snd (c w))) <= total mu (trace w) + n.

(** A computation leaves the component [f] of the world as it was. *)
Definition preserves {A X} (f : world -> X) (c : M A) : Prop :=
  forall w, f (snd (c w)) = f w.

(** An artifact that has a name, other than [app-debug]. *)
Definition other_artifact (a : json) : Prop :=
  exists name, getitem a "name" = Ok name /\ eq_str name "app-debug" = false.

(** The text [get_workflow_logs] prints for a member, and the lines it prints
    for an archive whose [.txt] members can all be read. *)
Definition log_text (members : list member) (name : string) : string :=
  match read_member members name with
  | Ok raw => raw
  | Raise _ => ""
  end.

Definition log_lines (members : list member) (names : list string) : list event :=
  flat_map
    (fun name =>
       if endswith name ".txt"
       then [Print (MsgLogName name); Print (MsgLogContent (log_text members name))]
       else [])
    names.

(** The member called [name] can be read and is UTF-8. *)
Definition readable (members : list member) (name : string) : Prop :=
  exists raw, read_member members name = Ok raw /\ Utf8.decode raw = Ok raw.

(* ===================================================================== *)
(** ** Events and counters                                                *)
(* ===================================================================== *)

Lemma count_app p xs ys : count p (xs ++ ys) = count p xs + count p ys.
Proof. unfold count. rewrite filter_app, length_app. reflexivity. Qed.

Lemma requests_sent_emit e w :
  requests_sent (emit e w) = requests_sent w + (if is_request e then 1 else 0).
Proof.
  unfold requests_sent, emit; simpl.
  rewrite filter_app, length_app; simpl.
  destruct (is_request e); reflexivity.
Qed.

Lemma trace_emit e w : trace (emit e w) = (trace w ++ [e])%list.
Proof. reflexivity. Qed.

Lemma cwd_emit e w : cwd (emit e w) = cwd w.
Proof. reflexivity. Qed.

Lemma tmpfiles_emit e w : tmpfiles (emit e w) = tmpfiles w.
Proof. reflexivity. Qed.

(* ===================================================================== *)
(** ** One request, one cycle                                             *)
(* ===================================================================== *)

Section Cycle.

Variable server : nat -> endpoint -> http_result.

Lemma get_workflow_runs_eq repo w :
  get_workflow_runs server repo w =
  (runs_of (server (requests_sent w) (RunsUrl repo)),
   emit (Request (RunsUrl repo)) w).
Proof.
  unfold get_workflow_runs, bind, requests_get, runs_of.
  destruct (server (requests_sent w) (RunsUrl repo)) as [|r]; [reflexivity|].
  destruct (status_code r =? 200)%Z; [|reflexivity].
  unfold response_json. destruct (json_body r); reflexivity.
Qed.

Lemma poll_cycle_eq repo w :
  poll_cycle server repo w =
  let w1 := emit (Request (RunsUrl repo)) w in
  match poll_view (server (requests_sent w) (RunsUrl repo)) with
  | Raise e => (Raise e, w1)
  | Ok NoRun => (Ok None, w1)
  | Ok (LatestRun status conclusion run_id) =>
      react server repo status conclusion run_id
            (emit (Print (MsgBuildStatus status conclusion)) w1)
  end.
Proof.
  unfold poll_cycle. unfold bind at 1. rewrite get_workflow_runs_eq.
  unfold poll_view.
  destruct (runs_of (server (requests_sent w) (RunsUrl repo))) as [runs|e];
    [|reflexivity].
  unfold observe. destruct (truthy runs); [|reflexivity].
  unfold bind at 1, lift at 1.
  destruct (getitem0 runs) as [latest|e]; [|reflexivity].
  unfold bind at 1, lift at 1.
  destruct (getitem latest "status") as [st|e]; [|reflexivity].
  unfold bind at 1, lift at 1.
  destruct (getitem latest "conclusion") as [c|e]; [|reflexivity].
  unfold bind at 1, lift at 1.
  destruct (getitem latest "id") as [rid|e]; [|reflexivity].
  reflexivity.
Qed.

(** A pending poll costs one request, perhaps one status line, one sleep. *)
Lemma pending_cycle repo w :
  pending (server (requests_sent w) (RunsUrl repo)) = true ->
  exists w1,
    poll_cycle server repo w = (Ok None, w1) /\
    trace (emit (Sleep poll_interval) w1) =
      (trace w ++ pending_events repo (server (requests_sent w) (RunsUrl repo)))%list /\
    cwd w1 = cwd w /\ tmpfiles w1 = tmpfiles w /\ next_tmp w1 = next_tmp w.
Proof.
  intros Hp. rewrite poll_cycle_eq. unfold pending, pending_events in *.
  destruct (poll_view (server (requests_sent w) (RunsUrl repo))) as [[|st c rid]|e];
    try discriminate.
  - eexists; split; [reflexivity|]. simpl. rewrite <- !app_assoc. auto.
  - unfold react. destruct (eq_str st "completed"); [discriminate|].
    eexists; split; [reflexivity|]. simpl. rewrite <- !app_assoc. auto.
Qed.

End Cycle.

(* ===================================================================== *)
(** ** Which events a computation can add                                 *)
(* ===================================================================== *)

Section Emits.

Context {A B : Type}.
Variable P : event -> Prop.

Lemma emits_ret (a : A) : emits P (ret a).
Proof. intros w. exists []. simpl. rewrite app_nil_r. auto. Qed.

Lemma emits_raise e : emits P (@raise A e).
Proof. intros w. exists []. simpl. rewrite app_nil_r. auto. Qed.

Lemma emits_lift (r : result A) : emits P (lift r).
Proof. intros w. exists []. simpl. rewrite app_nil_r. auto. Qed.

Lemma emits_bind (c : M A) (k : A -> M B) :
  emits P c -> (forall a, emits P (k a)) -> emits P (bind c k).
Proof.
  intros Hc Hk w. unfold bind. destruct (Hc w) as [e1 [H1 F1]].
  destruct (c w) as [[a|e] w1]; simpl in *.
  - destruct (Hk a w1) as [e2 [H2 F2]]. exists (e1 ++ e2)%list.
    rewrite H2, H1, app_assoc. split; [reflexivity|].
    apply Forall_app; auto.
  - exists e1; auto.
Qed.

Lemma emits_try_finally (body : M A) (cleanup : M unit) :
  emits P body -> emits P cleanup -> emits P (try_finally body cleanup).
Proof.
  intros Hb Hc w. unfold try_finally. destruct (Hb w) as [e1 [H1 F1]].
  destruct (body w) as [r w1]; simpl in *.
  destruct (Hc w1) as [e2 [H2 F2]].
  exists (e1 ++ e2)%list. split; [|apply Forall_app; auto].
  destruct (cleanup w1) as [[u|e] w2]; simpl in *;
    rewrite H2, H1, app_assoc; reflexivity.
Qed.

End Emits.

Lemma emits_print P line : P (Print line) -> emits P (print line).
Proof. intros H w. exists [Print line]. simpl. auto. Qed.

Lemma emits_for_each {A} P (xs : list A) (body : A -> M unit) :
  (forall x, emits P (body x)) -> emits P (for_each xs body).
Proof.
  intros H. induction xs as [|x xs IH]; simpl.
  - apply emits_ret.
  - apply emits_bind; auto.
Qed.

Lemma emits_silent {A} P (c : M A) :
  (forall w, trace (snd (c w)) = trace w) -> emits P c.
Proof. intros H w. exists []. rewrite H, app_nil_r. auto. Qed.

Lemma emits_named_temporary_file P a : emits P (named_temporary_file a).
Proof. apply emits_silent. reflexivity. Qed.

Lemma emits_unlink P path : emits P (unlink path).
Proof.
  apply emits_silent. intros w. unfold unlink.
  destruct (tmp_lookup path (tmpfiles w)); reflexivity.
Qed.

Lemma emits_ZipFile P path : emits P (ZipFile path).
Proof.
  apply emits_silent. intros w. unfold ZipFile.
  destruct (tmp_lookup path (tmpfiles w)) as [[|ms]|]; reflexivity.
Qed.

Lemma emits_zip_extractall P ms : emits P (zip_extractall ms).
Proof.
  apply emits_silent. intros w. unfold zip_extractall.
  destruct (extractall ms (cwd w)); reflexivity.
Qed.

Lemma emits_os_walk P : emits P os_walk.
Proof. apply emits_silent. reflexivity. Qed.

Lemma emits_response_json P r : emits P (response_json r).
Proof.
  unfold response_json. destruct (json_body r);
    [apply emits_ret | apply emits_raise].
Qed.

Lemma emits_requests_get server P url :
  P (Request url) -> emits P (requests_get server url).
Proof.
  intros H w. exists [Request url]. unfold requests_get.
  destruct (server (requests_sent w) url); simpl; auto.
Qed.

Create HintDb emits.

#[local] Hint Resolve emits_ret emits_raise emits_lift emits_named_temporary_file
  emits_unlink emits_ZipFile emits_zip_extractall emits_os_walk
  emits_response_json : emits.

Ltac emits_step :=
  first
    [ apply emits_bind; [|intros ?]
    | apply emits_try_finally
    | apply emits_for_each; intros ?
    | apply emits_print; exact I
    | apply emits_requests_get; exact I
    | solve [auto with emits] ].

Ltac emits_auto :=
  repeat
    (emits_step ||
     match goal with
     | |- emits _ (match ?x with _ => _ end) => destruct x
     end).

Section Footprints.

Variable server : nat -> endpoint -> http_result.

Lemma show_log_emits zip_file file_name :
  emits log_event (show_log zip_file file_name).
Proof.
  unfold show_log. destruct (endswith file_name ".txt"); repeat emits_step.
Qed.

(** After its request, [get_workflow_logs] only prints log lines. *)
Lemma get_workflow_logs_tail repo run_id w :
  exists evs,
    trace (snd (get_workflow_logs server repo run_id w)) =
      (trace w ++ Request (LogsUrl repo run_id) :: evs)%list /\
    Forall log_event evs.
Proof.
  unfold get_workflow_logs, bind at 1, requests_get.
  destruct (server (requests_sent w) (LogsUrl repo run_id)) as [|r].
  - exists []. simpl. auto.
  - set (w1 := emit (Request (LogsUrl repo run_id)) w).
    assert (E : emits log_event
      (if (status_code r =? 200)%Z
       then temp_file_path <- named_temporary_file (content r) ;;
            try_finally
              (zip_file <- ZipFile temp_file_path ;;
               for_each (namelist zip_file) (show_log zip_file))
              (unlink temp_file_path)
       else print MsgLogsFailed)).
    { destruct (status_code r =? 200)%Z; repeat emits_step.
      apply show_log_emits. }
    destruct (E w1) as [evs [Ht Hf]]. exists evs. split; [|exact Hf].
    rewrite Ht. unfold w1. rewrite trace_emit, <- app_assoc. reflexivity.
Qed.

Lemma extract_and_find_emits path :
  emits download_event (extract_and_find path).
Proof.
  unfold extract_and_find. emits_auto.
Qed.

(** After its first request, [download_apk] only asks for the archive and
    prints its own lines. *)
Lemma download_apk_tail repo run_id w :
  exists evs,
    trace (snd (download_apk server repo run_id w)) =
      (trace w ++ Request (ArtifactsUrl repo run_id) :: evs)%list /\
    Forall download_event evs.
Proof.
  unfold download_apk, bind at 1, requests_get.
  destruct (server (requests_sent w) (ArtifactsUrl repo run_id)) as [|r].
  - exists []. simpl. auto.
  - set (w1 := emit (Request (ArtifactsUrl repo run_id)) w).
    match goal with
    | |- exists evs, trace (snd (?c w1)) = _ /\ _ =>
        assert (E : emits download_event c)
    end.
    { emits_auto. }
    destruct (E w1) as [evs [Ht Hf]]. exists evs. split; [|exact Hf].
    rewrite Ht. unfold w1. rewrite trace_emit, <- app_assoc. reflexivity.
Qed.

End Footprints.

(* ===================================================================== *)
(** ** The polling loop                                                   *)
(* ===================================================================== *)

Lemma pending_events_requests repo h :
  count is_request (pending_events repo h) = 1.
Proof.
  unfold pending_events.
  destruct (poll_view h) as [[|st c rid]|e]; reflexivity.
Qed.

Lemma pending_trace_count server repo first k :
  count is_runs_request (pending_trace server repo first k) = k /\
  count is_request (pending_trace server repo first k) = k /\
  count is_sleep (pending_trace server repo first k) = k /\
  count is_logs_request (pending_trace server repo first k) = 0 /\
  count is_artifacts_request (pending_trace server repo first k) = 0 /\
  count is_verdict (pending_trace server repo first k) = 0.
Proof.
  revert first. induction k as [|k IH]; intros first; cbn [pending_trace].
  - repeat split.
  - destruct (IH (S first)) as (H1 & H2 & H3 & H4 & H5 & H6).
    rewrite !count_app, H1, H2, H3, H4, H5, H6.
    unfold pending_events.
    destruct (poll_view (server first (RunsUrl repo))) as [[|st c rid]|e];
      repeat split; reflexivity.
Qed.

(** Every sleep of the polling phase lasts [poll_interval]. *)
Lemma pending_trace_sleeps server repo first k e :
  In e (pending_trace server repo first k) ->
  is_sleep e = true -> e = Sleep poll_interval.
Proof.
  revert first. induction k as [|k IH]; intros first; cbn [pending_trace].
  - intros [].
  - rewrite in_app_iff. intros [Hin|Hin] Hs; [|eauto].
    unfold pending_events in Hin.
    destruct (poll_view (server first (RunsUrl repo))) as [[|st c rid]|x];
      simpl in Hin;
      repeat (destruct Hin as [Hin|Hin]; [subst e; try discriminate; auto|]);
      destruct Hin.
Qed.

Section Loop.

Variable server : nat -> endpoint -> http_result.
Variable repo : string.

Lemma monitor_loop_continue limit attempt w w1 :
  attempt < limit ->
  poll_cycle server repo w = (Ok None, w1) ->
  monitor_loop server repo limit attempt w =
  monitor_loop server repo limit (S attempt) (emit (Sleep poll_interval) w1).
Proof.
  intros Hlt Hc. rewrite monitor_loop_equation_1.
  destruct (lt_dec attempt limit) as [?|Hn]; [|contradiction].
  simpl. unfold bind at 1. rewrite Hc. reflexivity.
Qed.

Lemma monitor_loop_return limit attempt w b w1 :
  attempt < limit ->
  poll_cycle server repo w = (Ok (Some b), w1) ->
  monitor_loop server repo limit attempt w = (Ok b, w1).
Proof.
  intros Hlt Hc. rewrite monitor_loop_equation_1.
  destruct (lt_dec attempt limit) as [?|Hn]; [|contradiction].
  simpl. unfold bind at 1. rewrite Hc. reflexivity.
Qed.

Lemma monitor_loop_raise limit attempt w e w1 :
  attempt < limit ->
  poll_cycle server repo w = (Raise e, w1) ->
  monitor_loop server repo limit attempt w = (Raise e, w1).
Proof.
  intros Hlt Hc. rewrite monitor_loop_equation_1.
  destruct (lt_dec attempt limit) as [?|Hn]; [|contradiction].
  simpl. unfold bind at 1. rewrite Hc. reflexivity.
Qed.

Lemma monitor_loop_timeout limit attempt w :
  limit <= attempt ->
  monitor_loop server repo limit attempt w =
  (Ok false, emit (Print MsgBuildTimeout) w).
Proof.
  intros Hge. rewrite monitor_loop_equation_1.
  destruct (lt_dec attempt limit) as [?|Hn]; [lia|]. reflexivity.
Qed.

Lemma cycle_world_pending w :
  pending (server (requests_sent w) (RunsUrl repo)) = true ->
  exists w1,
    poll_cycle server repo w = (Ok None, w1) /\
    cycle_world server repo w = emit (Sleep poll_interval) w1 /\
    trace (cycle_world server repo w) =
      (trace w ++ pending_events repo (server (requests_sent w) (RunsUrl repo)))%list /\
    requests_sent (cycle_world server repo w) = S (requests_sent w) /\
    cwd (cycle_world server repo w) = cwd w /\
    tmpfiles (cycle_world server repo w) = tmpfiles w /\
    next_tmp (cycle_world server repo w) = next_tmp w.
Proof.
  intros Hp. destruct (pending_cycle server repo w Hp) as (w1 & Hc & Ht & Hd & Hf & Hn).
  exists w1. split; [exact Hc|].
  assert (E : cycle_world server repo w = emit (Sleep poll_interval) w1).
  { unfold cycle_world, bind. rewrite Hc. reflexivity. }
  rewrite E. repeat split; auto.
  unfold requests_sent at 1. rewrite Ht, filter_app, length_app.
  fold (requests_sent w).
  change (length (filter is_request ?l)) with (count is_request l).
  rewrite pending_events_requests. lia.
Qed.

(** [k] pending polls in a row take the loop from [attempt] to
    [attempt + k], with nothing done but polling, printing the status and
    sleeping. *)
Lemma pending_polls k : forall limit attempt w,
  attempt + k <= limit ->
  (forall i, i < k ->
     pending (server (requests_sent w + i) (RunsUrl repo)) = true) ->
  monitor_loop server repo limit attempt w =
    monitor_loop server repo limit (attempt + k) (after_cycles server repo k w) /\
  trace (after_cycles server repo k w) =
    (trace w ++ pending_trace server repo (requests_sent w) k)%list /\
  requests_sent (after_cycles server repo k w) = requests_sent w + k /\
  cwd (after_cycles server repo k w) = cwd w /\
  tmpfiles (after_cycles server repo k w) = tmpfiles w /\
  next_tmp (after_cycles server repo k w) = next_tmp w.
Proof.
  induction k as [|k IH]; intros limit attempt w Hle Hp; simpl.
  - rewrite Nat.add_0_r, app_nil_r. auto 6.
  - assert (H0 : pending (server (requests_sent w) (RunsUrl repo)) = true).
    { specialize (Hp 0). rewrite Nat.add_0_r in Hp. apply Hp. lia. }
    destruct (cycle_world_pending w H0) as (w1 & Hc & Hw & Ht & Hr & Hd & Hf & Hn).
    destruct (IH limit (S attempt) (cycle_world server repo w)) as (L & T & R & D & F & N).
    + lia.
    + intros i Hi. rewrite Hr. replace (S (requests_sent w) + i)
        with (requests_sent w + S i) by lia. apply Hp. lia.
    + rewrite (monitor_loop_continue limit attempt w w1) by (auto; lia).
      rewrite <- Hw, L, T, R, D, F, N, Ht, Hr, Hd, Hf, Hn, <- app_assoc.
      replace (S attempt + k) with (attempt + S k) by lia.
      repeat split; auto; lia.
Qed.

End Loop.

(* ===================================================================== *)
(** ** The monitor: time-out and idle polling                              *)
(* ===================================================================== *)

Lemma count_none (P : event -> Prop) p evs :
  (forall e, P e -> p e = false) -> Forall P evs -> count p evs = 0.
Proof.
  intros Hp H. induction H as [|e evs He _ IH]; [reflexivity|].
  unfold count in *. simpl. rewrite (Hp e He). exact IH.
Qed.

Ltac app_norm :=
  repeat rewrite <- app_assoc; cbn [app]; repeat rewrite <- app_assoc;
  reflexivity.

Lemma filter_none p (evs : list event) : count p evs = 0 -> filter p evs = [].
Proof. unfold count. apply length_zero_iff_nil. Qed.

Section Monitor.

Variable server : nat -> endpoint -> http_result.
Variable repo : string.

(** The loop is entered after the first line is printed. *)
Lemma monitor_build_enter w :
  monitor_build server repo w =
  monitor_loop server repo max_attempts 0 (emit (Print MsgMonitoring) w).
Proof. reflexivity. Qed.

Lemma monitor_build_polls k w :
  k <= max_attempts ->
  (forall i, i < k ->
     pending (server (requests_sent w + i) (RunsUrl repo)) = true) ->
  let w_k := after_cycles server repo k (emit (Print MsgMonitoring) w) in
  monitor_build server repo w = monitor_loop server repo max_attempts k w_k /\
  trace w_k =
    (trace w ++ Print MsgMonitoring :: pending_trace server repo (requests_sent w) k)%list /\
  requests_sent w_k = requests_sent w + k /\
  cwd w_k = cwd w /\ tmpfiles w_k = tmpfiles w /\ next_tmp w_k = next_tmp w.
Proof.
  intros Hk Hp w_k. subst w_k. rewrite monitor_build_enter.
  set (w0 := emit (Print MsgMonitoring) w).
  assert (R0 : requests_sent w0 = requests_sent w).
  { unfold w0. rewrite requests_sent_emit. simpl. lia. }
  destruct (pending_polls server repo k max_attempts 0 w0) as (L & T & R & D & F & N).
  - lia.
  - intros i Hi. rewrite R0. auto.
  - rewrite L, T, R, D, F, N, R0. unfold w0. rewrite trace_emit, <- app_assoc.
    simpl. auto 6.
Qed.

End Monitor.

(** C3.  When none of the [max_attempts] = 60 polls shows a completed run,
    [monitor_build] returns [False] after printing the time-out line.  It has
    then sent exactly 60 requests, all of them run listings; it has slept 60
    times, each time for 10 seconds, once at the end of every cycle; the
    attempt counter stands at [k] after [k] cycles; the time-out line is the
    last event, so nothing is requested after it; files are untouched. *)
Theorem monitor_build_times_out
  (server : nat -> endpoint -> http_result) (repo : string) (w : world) :
  (forall i, i < max_attempts ->
     pending (server (requests_sent w + i) (RunsUrl repo)) = true) ->
  exists w' evs,
    monitor_build server repo w = (Ok false, w') /\
    trace w' = (trace w ++ evs)%list /\
    evs = (Print MsgMonitoring ::
           pending_trace server repo (requests_sent w) max_attempts ++
           [Print MsgBuildTimeout])%list /\
    count is_runs_request evs = max_attempts /\
    count is_request evs = max_attempts /\
    count is_sleep evs = max_attempts /\
    (forall e, In e evs -> is_sleep e = true -> e = Sleep 10) /\
    filter is_verdict evs = [Print MsgBuildTimeout] /\
    (forall k, k <= max_attempts ->
       monitor_build server repo w =
       monitor_loop server repo max_attempts k
         (after_cycles server repo k (emit (Print MsgMonitoring) w))) /\
    cwd w' = cwd w /\ tmpfiles w' = tmpfiles w.
Proof.
  intros Hp.
  destruct (monitor_build_polls server repo max_attempts w (le_n _) Hp)
    as (L & T & R & D & F & N).
  destruct (pending_trace_count server repo (requests_sent w) max_attempts)
    as (C1 & C2 & C3 & C4 & C5 & C6).
  rewrite monitor_loop_timeout in L by lia.
  exists (emit (Print MsgBuildTimeout)
            (after_cycles server repo max_attempts (emit (Print MsgMonitoring) w))).
  exists ([Print MsgMonitoring] ++
          pending_trace server repo (requests_sent w) max_attempts ++
          [Print MsgBuildTimeout])%list.
  split; [exact L|].
  split; [rewrite trace_emit, T, <- app_assoc; reflexivity|].
  split; [reflexivity|].
  rewrite !count_app, C1, C2, C3.
  repeat split; try (cbn [count filter is_runs_request is_request is_sleep length]; lia); auto.
  - intros e He Hs. apply in_app_iff in He. destruct He as [[He|[]]|He];
      [subst e; discriminate|].
    apply in_app_iff in He. destruct He as [He|[He|[]]].
    + eapply pending_trace_sleeps; eauto.
    + subst e; discriminate.
  - rewrite !filter_app, (filter_none _ _ C6). reflexivity.
  - intros k Hk. apply monitor_build_polls; auto. intros i Hi. apply Hp. lia.
Qed.

(** C7.  When the first [k] polls each return an empty list of runs, the
    monitor is back at the head of its loop after them, with the attempt
    counter at [k]: it has printed its opening line, and then only sent one
    run listing and slept once per cycle.  No status, verdict or error was
    reported, no file was touched, and nothing was returned. *)
Theorem empty_polls_keep_polling
  (server : nat -> endpoint -> http_result) (repo : string) (w : world) (k : nat) :
  k <= max_attempts ->
  (forall i, i < k ->
     runs_of (server (requests_sent w + i) (RunsUrl repo)) = Ok (JArr [])) ->
  exists w_k,
    monitor_build server repo w = monitor_loop server repo max_attempts k w_k /\
    trace w_k =
      (trace w ++ Print MsgMonitoring ::
         concat (repeat [Request (RunsUrl repo); Sleep poll_interval] k))%list /\
    cwd w_k = cwd w /\ tmpfiles w_k = tmpfiles w /\ next_tmp w_k = next_tmp w.
Proof.
  intros Hk He.
  assert (Hv : forall i, i < k ->
            poll_view (server (requests_sent w + i) (RunsUrl repo)) = Ok NoRun).
  { intros i Hi. unfold poll_view. rewrite (He i Hi). reflexivity. }
  destruct (monitor_build_polls server repo k w Hk) as (L & T & R & D & F & N).
  { intros i Hi. unfold pending. rewrite (Hv i Hi). reflexivity. }
  eexists. split; [exact L|]. repeat split; auto.
  rewrite T. do 2 f_equal.
  clear - Hv. revert Hv. generalize (requests_sent w) as first.
  induction k as [|k IH]; intros first Hv; [reflexivity|].
  cbn [pending_trace repeat concat]. rewrite (IH (S first)).
  - unfold pending_events. specialize (Hv 0 (Nat.lt_0_succ _)).
    rewrite Nat.add_0_r in Hv. rewrite Hv. reflexivity.
  - intros i Hi. replace (S first + i) with (first + S i) by lia.
    apply Hv. lia.
Qed.

(* ===================================================================== *)
(** ** The monitor: a completed run                                       *)
(* ===================================================================== *)

Section Completed.

Variable server : nat -> endpoint -> http_result.
Variable repo : string.

(** After [n] pending polls, the poll that shows a run is followed by the
    status line and by [react]. *)
Lemma monitor_build_reacts n w status conclusion run_id :
  n < max_attempts ->
  (forall i, i < n ->
     pending (server (requests_sent w + i) (RunsUrl repo)) = true) ->
  poll_view (server (requests_sent w + n) (RunsUrl repo)) =
    Ok (LatestRun status conclusion run_id) ->
  exists w_s,
    trace w_s =
      (trace w ++ Print MsgMonitoring ::
         pending_trace server repo (requests_sent w) n ++
         [Request (RunsUrl repo); Print (MsgBuildStatus status conclusion)])%list /\
    cwd w_s = cwd w /\ tmpfiles w_s = tmpfiles w /\ next_tmp w_s = next_tmp w /\
    forall r w',
      react server repo status conclusion run_id w_s = (r, w') ->
      r <> Ok None ->
      monitor_build server repo w =
      (match r with Ok (Some b) => Ok b | Ok None => Ok false | Raise e => Raise e end,
       w').
Proof.
  intros Hn Hp Hv.
  destruct (monitor_build_polls server repo n w) as (L & T & R & D & F & N);
    [lia | exact Hp |].
  set (w_n := after_cycles server repo n (emit (Print MsgMonitoring) w)) in *.
  exists (emit (Print (MsgBuildStatus status conclusion))
               (emit (Request (RunsUrl repo)) w_n)).
  split.
  { rewrite !trace_emit, T. app_norm. }
  repeat split; auto.
  intros r w' Hr Hnone. rewrite L.
  assert (Hc : poll_cycle server repo w_n = (r, w')).
  { rewrite poll_cycle_eq, R, Hv. exact Hr. }
  destruct r as [[b|]|e].
  - apply monitor_loop_return; auto.
  - congruence.
  - apply monitor_loop_raise; auto.
Qed.

End Completed.

Lemma download_event_quiet e :
  download_event e ->
  is_runs_request e = false /\ is_logs_request e = false /\
  is_artifacts_request e = false /\ is_verdict e = false /\ is_sleep e = false.
Proof. destruct e as [[]| |[]]; simpl; intros []; auto. Qed.

Lemma log_event_quiet e :
  log_event e ->
  is_runs_request e = false /\ is_logs_request e = false /\
  is_artifacts_request e = false /\ is_verdict e = false /\ is_sleep e = false /\
  is_request e = false.
Proof. destruct e as [[]| |[]]; simpl; intros []; auto 6. Qed.

(** C1, as amended.  Let the first [n] polls be pending and poll number [n],
    still within the [max_attempts] polls of the monitor, show a first run
    whose status is ['completed'] and whose conclusion is ['success'].  Then
    [monitor_build] prints the success line and calls [download_apk] once,
    with the id of that run; it returns [True] whatever [download_apk]
    returns, and raises what [download_apk] raises.  It sends exactly one artifact
    listing request, for that id, no log request, and [n + 1] run listings. *)
Theorem monitor_build_succeeds
  (server : nat -> endpoint -> http_result) (repo : string) (w : world)
  (n : nat) (status conclusion run_id : json) :
  n < max_attempts ->
  (forall i, i < n ->
     pending (server (requests_sent w + i) (RunsUrl repo)) = true) ->
  poll_view (server (requests_sent w + n) (RunsUrl repo)) =
    Ok (LatestRun status conclusion run_id) ->
  eq_str status "completed" = true ->
  eq_str conclusion "success" = true ->
  exists w_pre evs,
    trace w_pre =
      (trace w ++ Print MsgMonitoring ::
         pending_trace server repo (requests_sent w) n ++
         [Request (RunsUrl repo); Print (MsgBuildStatus status conclusion);
          Print MsgBuildCompleted])%list /\
    cwd w_pre = cwd w /\ tmpfiles w_pre = tmpfiles w /\ next_tmp w_pre = next_tmp w /\
    monitor_build server repo w =
      (match fst (download_apk server repo run_id w_pre) with
       | Ok _ => Ok true
       | Raise e => Raise e
       end,
       snd (download_apk server repo run_id w_pre)) /\
    trace (snd (monitor_build server repo w)) = (trace w ++ evs)%list /\
    count is_artifacts_request evs = 1 /\
    In (Request (ArtifactsUrl repo run_id)) evs /\
    count is_logs_request evs = 0 /\
    count is_runs_request evs = S n /\
    filter is_verdict evs = [Print MsgBuildCompleted].
Proof.
  intros Hn Hp Hv Hs Hc.
  destruct (monitor_build_reacts server repo n w _ _ _ Hn Hp Hv)
    as (w_s & T & D & F & N & Hreact).
  set (w_pre := emit (Print MsgBuildCompleted) w_s).
  destruct (download_apk_tail server repo run_id w_pre) as (tail & Ht & Hq).
  destruct (download_apk server repo run_id w_pre) as [rd w'] eqn:Hd.
  assert (Hr : react server repo status conclusion run_id w_s =
               (match rd with Ok _ => Ok (Some true) | Raise e => Raise e end, w')).
  { unfold react. rewrite Hs, Hc. unfold bind, print. fold w_pre. rewrite Hd.
    destruct rd; reflexivity. }
  assert (Hm : monitor_build server repo w =
               (match rd with Ok _ => Ok true | Raise e => Raise e end, w')).
  { rewrite (Hreact _ _ Hr); destruct rd; try reflexivity; discriminate. }
  destruct (pending_trace_count server repo (requests_sent w) n)
    as (C1 & C2 & C3 & C4 & C5 & C6).
  exists w_pre.
  exists ([Print MsgMonitoring] ++ pending_trace server repo (requests_sent w) n ++
          [Request (RunsUrl repo); Print (MsgBuildStatus status conclusion);
           Print MsgBuildCompleted] ++
          Request (ArtifactsUrl repo run_id) :: tail)%list.
  assert (Tp : trace w_pre =
      (trace w ++ Print MsgMonitoring ::
         pending_trace server repo (requests_sent w) n ++
         [Request (RunsUrl repo); Print (MsgBuildStatus status conclusion);
          Print MsgBuildCompleted])%list).
  { unfold w_pre. rewrite trace_emit, T. app_norm. }
  split; [exact Tp|]. split; [exact D|]. split; [exact F|]. split; [exact N|].
  rewrite Hd. cbn [fst snd].
  split; [exact Hm|].
  split.
  { rewrite Hm. cbn [snd] in Ht |- *. rewrite Ht, Tp. app_norm. }
  assert (Q : forall p, (forall e, download_event e -> p e = false) ->
                        count p tail = 0).
  { intros p Hq'. eapply count_none; eauto. }
  rewrite !count_app, !filter_app, C4, C5, C1, (filter_none _ _ C6).
  change (Request (ArtifactsUrl repo run_id) :: tail)
    with ([Request (ArtifactsUrl repo run_id)] ++ tail)%list.
  rewrite !count_app, !filter_app.
  assert (Qv : filter is_verdict tail = []).
  { apply filter_none, Q. intros e He. apply download_event_quiet in He; tauto. }
  rewrite (Q is_artifacts_request), (Q is_logs_request), (Q is_runs_request), Qv;
    try (intros e He; apply download_event_quiet in He; tauto).
  repeat split; try reflexivity; try (simpl; lia).
  apply in_or_app; right. apply in_or_app; right. apply in_or_app; right.
  left; reflexivity.
Qed.

(** C2, as amended.  Let the first [n] polls be pending and poll number [n],
    still within the [max_attempts] polls of the monitor, show a first run
    whose status is ['completed'] and whose conclusion is not ['success'].
    Then [monitor_build] prints the failure line and calls
    [get_workflow_logs] once, with the id of that run; it returns [False]
    when [get_workflow_logs] returns, and raises what it raises.  It sends exactly one log request, for
    that id, no artifact request, and [n + 1] run listings: one per cycle. *)
Theorem monitor_build_fails
  (server : nat -> endpoint -> http_result) (repo : string) (w : world)
  (n : nat) (status conclusion run_id : json) :
  n < max_attempts ->
  (forall i, i < n ->
     pending (server (requests_sent w + i) (RunsUrl repo)) = true) ->
  poll_view (server (requests_sent w + n) (RunsUrl repo)) =
    Ok (LatestRun status conclusion run_id) ->
  eq_str status "completed" = true ->
  eq_str conclusion "success" = false ->
  exists w_pre evs,
    trace w_pre =
      (trace w ++ Print MsgMonitoring ::
         pending_trace server repo (requests_sent w) n ++
         [Request (RunsUrl repo); Print (MsgBuildStatus status conclusion);
          Print MsgBuildFailed; Print MsgBuildLogs])%list /\
    cwd w_pre = cwd w /\ tmpfiles w_pre = tmpfiles w /\ next_tmp w_pre = next_tmp w /\
    monitor_build server repo w =
      (match fst (get_workflow_logs server repo run_id w_pre) with
       | Ok _ => Ok false
       | Raise e => Raise e
       end,
       snd (get_workflow_logs server repo run_id w_pre)) /\
    trace (snd (monitor_build server repo w)) = (trace w ++ evs)%list /\
    count is_logs_request evs = 1 /\
    In (Request (LogsUrl repo run_id)) evs /\
    count is_artifacts_request evs = 0 /\
    count is_runs_request evs = S n /\
    count is_request evs = S (S n) /\
    filter is_verdict evs = [Print MsgBuildFailed].
Proof.
  intros Hn Hp Hv Hs Hc.
  destruct (monitor_build_reacts server repo n w _ _ _ Hn Hp Hv)
    as (w_s & T & D & F & N & Hreact).
  set (w_pre := emit (Print MsgBuildLogs) (emit (Print MsgBuildFailed) w_s)).
  destruct (get_workflow_logs_tail server repo run_id w_pre) as (tail & Ht & Hq).
  destruct (get_workflow_logs server repo run_id w_pre) as [rd w'] eqn:Hd.
  assert (Hr : react server repo status conclusion run_id w_s =
               (match rd with Ok _ => Ok (Some false) | Raise e => Raise e end, w')).
  { unfold react. rewrite Hs, Hc. unfold bind, print. fold w_pre. rewrite Hd.
    destruct rd; reflexivity. }
  assert (Hm : monitor_build server repo w =
               (match rd with Ok _ => Ok false | Raise e => Raise e end, w')).
  { rewrite (Hreact _ _ Hr); destruct rd; try reflexivity; discriminate. }
  destruct (pending_trace_count server repo (requests_sent w) n)
    as (C1 & C2 & C3 & C4 & C5 & C6).
  exists w_pre.
  exists ([Print MsgMonitoring] ++ pending_trace server repo (requests_sent w) n ++
          [Request (RunsUrl repo); Print (MsgBuildStatus status conclusion);
           Print MsgBuildFailed; Print MsgBuildLogs] ++
          Request (LogsUrl repo run_id) :: tail)%list.
  assert (Tp : trace w_pre =
      (trace w ++ Print MsgMonitoring ::
         pending_trace server repo (requests_sent w) n ++
         [Request (RunsUrl repo); Print (MsgBuildStatus status conclusion);
          Print MsgBuildFailed; Print MsgBuildLogs])%list).
  { unfold w_pre. rewrite !trace_emit, T. app_norm. }
  split; [exact Tp|]. split; [exact D|]. split; [exact F|]. split; [exact N|].
  rewrite Hd. cbn [fst snd].
  split; [exact Hm|].
  split.
  { rewrite Hm. cbn [snd] in Ht |- *. rewrite Ht, Tp. app_norm. }
  assert (Q : forall p, (forall e, log_event e -> p e = false) ->
                        count p tail = 0).
  { intros p Hq'. eapply count_none; eauto. }
  rewrite !count_app, !filter_app, C4, C5, C1, C2, (filter_none _ _ C6).
  change (Request (LogsUrl repo run_id) :: tail)
    with ([Request (LogsUrl repo run_id)] ++ tail)%list.
  rewrite !count_app, !filter_app.
  assert (Qv : filter is_verdict tail = []).
  { apply filter_none, Q. intros e He. apply log_event_quiet in He; tauto. }
  rewrite (Q is_artifacts_request), (Q is_logs_request), (Q is_runs_request),
    (Q is_request), Qv;
    try (intros e He; apply log_event_quiet in He; tauto).
  repeat split; try reflexivity; try (simpl; lia).
  apply in_or_app; right. apply in_or_app; right. apply in_or_app; right.
  left; reflexivity.
Qed.

(* ===================================================================== *)
(** ** The four verdicts on concrete services                             *)
(* ===================================================================== *)

Lemma monitor_build_succeeds_witness :
  fst (monitor_build Scenario.succeeds "app" Scenario.world0) = Ok true /\
  count is_artifacts_request
    (trace (snd (monitor_build Scenario.succeeds "app" Scenario.world0))) = 1 /\
  count is_logs_request
    (trace (snd (monitor_build Scenario.succeeds "app" Scenario.world0))) = 0.
Proof.
  destruct (monitor_build_succeeds Scenario.succeeds "app" Scenario.world0 2
              (JStr "completed") (JStr "success") (JNum 42))
    as (w_pre & evs & _ & _ & _ & _ & _ & T & A & _ & L & _).
  - unfold max_attempts; lia.
  - intros i Hi. destruct i as [|[|i]]; [reflexivity | reflexivity | lia].
  - reflexivity.
  - reflexivity.
  - reflexivity.
  - split; [vm_compute; reflexivity|].
    rewrite T. simpl. split; [exact A | exact L].
Defined.

Lemma monitor_build_fails_witness :
  fst (monitor_build Scenario.fails "app" Scenario.world0) = Ok false /\
  count is_logs_request
    (trace (snd (monitor_build Scenario.fails "app" Scenario.world0))) = 1 /\
  count is_request
    (trace (snd (monitor_build Scenario.fails "app" Scenario.world0))) = 7.
Proof.
  destruct (monitor_build_fails Scenario.fails "app" Scenario.world0 5
              (JStr "completed") (JStr "failure") (JNum 7))
    as (w_pre & evs & _ & _ & _ & _ & _ & T & L & _ & _ & _ & R & _).
  - unfold max_attempts; lia.
  - intros i Hi. do 5 (destruct i as [|i]; [reflexivity|]). lia.
  - reflexivity.
  - reflexivity.
  - reflexivity.
  - split; [vm_compute; reflexivity|].
    rewrite T. simpl. split; [exact L | exact R].
Defined.

(** C1 fails as stated: the first poll shows a completed, successful run,
    and [monitor_build] does not reach the outcome of success but raises,
    because the artifact listing gets no answer and nothing catches the
    exception of [download_apk].  A poll before the completed one can end
    the monitor as well: a run in progress that has no [conclusion] key
    raises [KeyError], though the next poll shows the successful run. *)
Lemma success_can_end_in_exception :
  poll_view
    (Scenario.service
       [Scenario.runs_response [Scenario.run "completed" (JStr "success") 42]]
       (fun _ => NoResponse) 0 (RunsUrl "app")) =
    Ok (LatestRun (JStr "completed") (JStr "success") (JNum 42)) /\
  fst (monitor_build
         (Scenario.service
            [Scenario.runs_response [Scenario.run "completed" (JStr "success") 42]]
            (fun _ => NoResponse))
         "app" Scenario.world0) = Raise RequestException /\
  fst (monitor_build
         (Scenario.service
            [Scenario.runs_response
               [JObj [("id", JNum 42); ("status", JStr "in_progress")]];
             Scenario.runs_response [Scenario.run "completed" (JStr "success") 42]]
            (Scenario.store Scenario.apk_zip))
         "app" Scenario.world0) = Raise (KeyError "conclusion").
Proof. repeat split; vm_compute; reflexivity. Qed.

(** C2 fails as stated: a poll in progress, then a completed run that
    failed, and [monitor_build] does not reach the outcome of failure but
    raises [BadZipFile], because the body served for the logs is no zip
    archive and nothing catches the exception of [get_workflow_logs]. *)
Lemma failure_can_end_in_exception :
  poll_view
    (Scenario.service
       [Scenario.in_progress;
        Scenario.runs_response [Scenario.run "completed" (JStr "failure") 7]]
       (fun _ => Scenario.zip_response NotAZip) 1 (RunsUrl "app")) =
    Ok (LatestRun (JStr "completed") (JStr "failure") (JNum 7)) /\
  fst (monitor_build
         (Scenario.service
            [Scenario.in_progress;
             Scenario.runs_response [Scenario.run "completed" (JStr "failure") 7]]
            (fun _ => Scenario.zip_response NotAZip))
         "app" Scenario.world0) = Raise BadZipFile /\
  count is_logs_request
    (trace (snd (monitor_build
                   (Scenario.service
                      [Scenario.in_progress;
                       Scenario.runs_response
                         [Scenario.run "completed" (JStr "failure") 7]]
                      (fun _ => Scenario.zip_response NotAZip))
                   "app" Scenario.world0))) = 1.
Proof. repeat split; vm_compute; reflexivity. Qed.

Lemma monitor_build_times_out_witness :
  exists w',
    monitor_build Scenario.hangs "app" Scenario.world0 = (Ok false, w') /\
    count is_request (trace w') = 60.
Proof.
  destruct (monitor_build_times_out Scenario.hangs "app" Scenario.world0)
    as (w' & evs & M & T & _ & _ & R & _).
  - intros i _. reflexivity.
  - exists w'. split; [exact M|]. rewrite T. exact R.
Defined.

Lemma empty_polls_keep_polling_witness :
  exists w3,
    monitor_build Scenario.late "app" Scenario.world0 =
      monitor_loop Scenario.late "app" max_attempts 3 w3 /\
    trace w3 = [Print MsgMonitoring;
                Request (RunsUrl "app"); Sleep 10;
                Request (RunsUrl "app"); Sleep 10;
                Request (RunsUrl "app"); Sleep 10].
Proof.
  destruct (empty_polls_keep_polling Scenario.late "app" Scenario.world0 3)
    as (w3 & L & T & _).
  - unfold max_attempts; lia.
  - intros i Hi. do 3 (destruct i as [|i]; [reflexivity|]). lia.
  - exists w3. split; [exact L | exact T].
Defined.

(* ===================================================================== *)
(** ** Listing the runs                                                   *)
(* ===================================================================== *)

(** C5, as the code has it.  A response whose status is not 200 makes
    [get_workflow_runs] return the empty list, without raising; the caller
    gets exactly what it gets from a 200 response that lists no run. *)
Theorem get_workflow_runs_hides_http_errors
  (server server' : nat -> endpoint -> http_result) (repo : string) (w : world)
  (r r' : response) (body : json) :
  server (requests_sent w) (RunsUrl repo) = Response r ->
  status_code r <> 200%Z ->
  server' (requests_sent w) (RunsUrl repo) = Response r' ->
  status_code r' = 200%Z ->
  json_body r' = Some body ->
  getitem body "workflow_runs" = Ok (JArr []) ->
  get_workflow_runs server repo w = (Ok (JArr []), emit (Request (RunsUrl repo)) w) /\
  get_workflow_runs server' repo w = get_workflow_runs server repo w.
Proof.
  intros H Hs H' Hs' Hb Hg. rewrite !get_workflow_runs_eq, H, H'.
  unfold runs_of. rewrite Hs', Hb, Hg.
  destruct (status_code r =? 200)%Z eqn:E; [apply Z.eqb_eq in E; contradiction|].
  split; reflexivity.
Qed.

Lemma get_workflow_runs_hides_http_errors_witness :
  get_workflow_runs Scenario.down "app" Scenario.world0 =
    (Ok (JArr []), emit (Request (RunsUrl "app")) Scenario.world0) /\
  get_workflow_runs Scenario.idle "app" Scenario.world0 =
    get_workflow_runs Scenario.down "app" Scenario.world0.
Proof.
  eapply (get_workflow_runs_hides_http_errors Scenario.down Scenario.idle
            "app" Scenario.world0).
  - reflexivity.
  - simpl. discriminate.
  - reflexivity.
  - reflexivity.
  - reflexivity.
  - reflexivity.
Defined.

(** C5 fails as stated: on status 500 nothing is raised, and the value
    returned is the one returned when the service lists no run. *)
Lemma http_error_is_not_raised :
  fst (get_workflow_runs Scenario.down "app" Scenario.world0) = Ok (JArr []) /\
  (forall e, fst (get_workflow_runs Scenario.down "app" Scenario.world0) <> Raise e) /\
  get_workflow_runs Scenario.down "app" Scenario.world0 =
    get_workflow_runs Scenario.idle "app" Scenario.world0.
Proof.
  split; [reflexivity|]. split; [intros e; discriminate | reflexivity].
Qed.

(* ===================================================================== *)
(** ** A run that is not completed                                        *)
(* ===================================================================== *)

(** C8, as the code has it.  When the first run listed has the keys
    [status], [conclusion] (its value may be null) and [id], and its status
    is not ['completed'], the cycle raises nothing and returns nothing: it
    prints the status line, and the loop sleeps and goes on with the next
    attempt. *)
Theorem unfinished_run_keeps_polling
  (server : nat -> endpoint -> http_result) (repo : string) (w : world)
  (attempt : nat) (runs latest_run status conclusion run_id : json) :
  runs_of (server (requests_sent w) (RunsUrl repo)) = Ok runs ->
  truthy runs = true ->
  getitem0 runs = Ok latest_run ->
  getitem latest_run "status" = Ok status ->
  getitem latest_run "conclusion" = Ok conclusion ->
  getitem latest_run "id" = Ok run_id ->
  eq_str status "completed" = false ->
  attempt < max_attempts ->
  let w1 := emit (Print (MsgBuildStatus status conclusion))
                 (emit (Request (RunsUrl repo)) w) in
  poll_cycle server repo w = (Ok None, w1) /\
  monitor_loop server repo max_attempts attempt w =
    monitor_loop server repo max_attempts (S attempt) (emit (Sleep 10) w1).
Proof.
  intros Hr Ht H0 Hs Hc Hi Hn Ha w1.
  assert (E : poll_cycle server repo w = (Ok None, w1)).
  { rewrite poll_cycle_eq. unfold poll_view, observe.
    rewrite Hr, Ht, H0, Hs, Hc, Hi. unfold react. rewrite Hn. reflexivity. }
  split; [exact E|]. apply monitor_loop_continue; assumption.
Qed.

Lemma unfinished_run_keeps_polling_witness :
  poll_cycle Scenario.hangs "app" Scenario.world0 =
    (Ok None,
     emit (Print (MsgBuildStatus (JStr "in_progress") JNull))
          (emit (Request (RunsUrl "app")) Scenario.world0)).
Proof.
  eapply (unfinished_run_keeps_polling Scenario.hangs "app" Scenario.world0 0).
  - reflexivity.
  - reflexivity.
  - reflexivity.
  - reflexivity.
  - reflexivity.
  - reflexivity.
  - reflexivity.
  - unfold max_attempts; lia.
Defined.

(** C8 fails as stated: a run in progress without a [conclusion] key makes
    the first cycle raise [KeyError], which ends [monitor_build]. *)
Lemma run_without_conclusion_raises :
  fst (poll_cycle Scenario.bare "app" Scenario.world0) = Raise (KeyError "conclusion") /\
  fst (monitor_build Scenario.bare "app" Scenario.world0) = Raise (KeyError "conclusion").
Proof. split; reflexivity. Qed.

(* ===================================================================== *)
(** ** Walking the tree                                                   *)
(* ===================================================================== *)

Lemma walk_Dir root d :
  walk root (Dir d) =
  (root, files_of d) ::
  flat_map (fun e => walk (path_join root (fst e)) (snd e)) d.
Proof.
  cbn [walk]. f_equal.
  induction d as [|[n sub] rest IH]; [reflexivity|].
  cbn [flat_map fst snd]. rewrite <- IH. reflexivity.
Qed.

Lemma files_of_In name d :
  In name (files_of d) <-> exists data, In (name, File data) d.
Proof.
  induction d as [|[n [data|sub]] rest IH]; simpl.
  - split; [intros [] | intros [_ []]].
  - rewrite IH. split.
    + intros [E|[x H]]; [subst; eauto | eauto].
    + intros [x [E|H]]; [inversion E; auto | eauto].
  - rewrite IH. split.
    + intros [x H]; eauto.
    + intros [x [E|H]]; [discriminate | eauto].
Qed.

(** Every file name [os.walk] yields belongs to a file of the tree. *)
Lemma walk_sound : forall x root r files name,
  In (r, files) (walk root x) -> In name files ->
  match x with
  | File _ => False
  | Dir d => has_file name d
  end.
Proof.
  fix IH 1. intros [data|d] root r files name Hin Hn.
  - destruct Hin.
  - rewrite walk_Dir in Hin. destruct Hin as [E|Hin].
    + inversion E; subst. apply files_of_In in Hn. destruct Hn as [data H].
      eapply has_file_here; eauto.
    + assert (G : forall es, (forall e, In e es -> In e d) ->
                In (r, files)
                   (flat_map (fun e => walk (path_join root (fst e)) (snd e)) es) ->
                has_file name d).
      { clear Hin. intros es. induction es as [|[n sub] es IHes]; intros Hsub Hin.
        - destruct Hin.
        - cbn [flat_map fst snd] in Hin. apply in_app_iff in Hin.
          destruct Hin as [Hin|Hin].
          + specialize (IH sub _ _ _ _ Hin Hn). destruct sub as [data|sd].
            * destruct IH.
            * eapply has_file_below; [apply Hsub; left; reflexivity | exact IH].
          + apply IHes; [|exact Hin]. intros e He. apply Hsub. right. exact He. }
      apply (G d); auto.
Qed.

(** Every file of the tree is in the [files] of some triple. *)
Lemma walk_complete name d :
  has_file name d ->
  forall root, exists r files, In (r, files) (walk root (Dir d)) /\ In name files.
Proof.
  induction 1 as [d data Hin | d sub_name sub Hin Hsub IH]; intros root.
  - exists root, (files_of d). split.
    + rewrite walk_Dir. left. reflexivity.
    + apply files_of_In. eauto.
  - destruct (IH (path_join root sub_name)) as (r & files & Hw & Hn).
    exists r, files. split; [|exact Hn].
    rewrite walk_Dir. right. apply in_flat_map.
    exists (sub_name, Dir sub). split; [exact Hin | exact Hw].
Qed.

Lemma first_apk_in_found root files :
  first_apk_in root files <> None <->
  exists name, In name files /\ endswith name ".apk" = true.
Proof.
  induction files as [|f rest IH]; cbn [first_apk_in].
  - split; [congruence | intros (n & [] & _)].
  - destruct (endswith f ".apk") eqn:E.
    + split; [intros _; exists f; simpl; auto | discriminate].
    + rewrite IH. split.
      * intros (n & Hn & He). exists n. simpl. auto.
      * intros (n & [Hn|Hn] & He); [subst; congruence | eauto].
Qed.

Lemma first_apk_found triples :
  first_apk triples <> None <->
  exists r files name,
    In (r, files) triples /\ In name files /\ endswith name ".apk" = true.
Proof.
  induction triples as [|[r0 fs] rest IH]; cbn [first_apk].
  - split; [congruence | intros (r & f & n & [] & _)].
  - destruct (first_apk_in r0 fs) as [p|] eqn:E.
    + split; [intros _ | discriminate].
      assert (H : first_apk_in r0 fs <> None) by congruence.
      apply first_apk_in_found in H. destruct H as (n & Hn & He).
      exists r0, fs, n. simpl. auto.
    + rewrite IH. split.
      * intros (r & f & n & Hin & Hn & He). exists r, f, n. simpl. auto.
      * intros (r & f & n & [Hin|Hin] & Hn & He); [|eauto 6].
        injection Hin as E1 E2. rewrite E1, E2 in E. exfalso.
        assert (H : first_apk_in r f <> None)
          by (apply first_apk_in_found; eauto).
        congruence.
Qed.

(** The scan of [download_apk] finds a path exactly when some file under
    the directory has a name that ends in [.apk]. *)
Lemma scan_finds_apk d :
  first_apk (walk "." (Dir d)) <> None <->
  exists name, endswith name ".apk" = true /\ has_file name d.
Proof.
  rewrite first_apk_found. split.
  - intros (r & files & name & Hin & Hn & He). exists name. split; [exact He|].
    exact (walk_sound (Dir d) "." r files name Hin Hn).
  - intros (name & He & Hf).
    destruct (walk_complete name d Hf ".") as (r & files & Hin & Hn).
    eauto 6.
Qed.

(* ===================================================================== *)
(** ** Extraction never removes a file                                    *)
(* ===================================================================== *)

Lemma has_file_entries name d :
  has_file name d <-> exists e, In e d /\ entry_has name e.
Proof.
  split.
  - intros H. destruct H as [d data Hin | d sub_name sub Hin Hsub].
    + exists (name, File data). split; [exact Hin | reflexivity].
    + exists (sub_name, Dir sub). split; [exact Hin | exact Hsub].
  - intros ([n [data|sub]] & Hin & He); unfold entry_has in He; simpl in He.
    + subst n. eapply has_file_here; eauto.
    + eapply has_file_below; eauto.
Qed.

Lemma set_entry_keeps name0 name y d :
  (forall x, lookup name d = Some x ->
             entry_has name0 (name, x) -> entry_has name0 (name, y)) ->
  has_file name0 d -> has_file name0 (set_entry name y d).
Proof.
  rewrite !has_file_entries. intros Hy (e & Hin & He).
  induction d as [|[n x0] rest IH]; [destruct Hin|].
  cbn [set_entry lookup] in *. destruct (n =? name) eqn:E.
  all: try rewrite E in Hy.
  - apply String.eqb_eq in E. subst n. destruct Hin as [Hin|Hin].
    + subst e. exists (name, y). split; [left; reflexivity | ].
      exact (Hy x0 eq_refl He).
    + exists e. split; [right; exact Hin | exact He].
  - destruct Hin as [Hin|Hin].
    + exists e. split; [left; exact Hin | exact He].
    + destruct (IH Hy Hin) as (e' & Hin' & He').
      exists e'. split; [right; exact Hin' | exact He'].
Qed.

Lemma alter_at_keeps name0 leaf :
  (forall o y nm x, leaf o = Some y -> o = Some x ->
                    entry_has name0 (nm, x) -> entry_has name0 (nm, y)) ->
  forall path d d',
    alter_at path leaf d = Some d' -> has_file name0 d -> has_file name0 d'.
Proof.
  intros Hleaf path. induction path as [|name rest IH]; intros d d' Ha Hf;
    [discriminate|].
  cbn [alter_at] in Ha. destruct rest as [|next rest].
  - destruct (leaf (lookup name d)) as [y|] eqn:El; [|discriminate].
    injection Ha as <-. apply set_entry_keeps; [|exact Hf].
    intros x Hx. eapply Hleaf; eauto.
  - destruct (lookup name d) as [[data|sub]|] eqn:El; [discriminate| |].
    + destruct (alter_at (next :: rest) leaf sub) as [sub'|] eqn:Es; [|discriminate].
      injection Ha as <-. apply set_entry_keeps; [|exact Hf].
      intros x Hx. rewrite El in Hx. injection Hx as <-. unfold entry_has; simpl.
      apply (IH sub sub' Es).
    + destruct (alter_at (next :: rest) leaf []) as [sub'|] eqn:Es; [|discriminate].
      injection Ha as <-. apply set_entry_keeps; [|exact Hf].
      intros x Hx. rewrite El in Hx. discriminate.
Qed.

Lemma write_file_keeps name0 path data d d' :
  write_file path data d = Some d' -> has_file name0 d -> has_file name0 d'.
Proof.
  apply alter_at_keeps. intros o y nm x Hl Ho. subst o.
  destruct x as [old|sub]; [|discriminate]. injection Hl as <-. auto.
Qed.

Lemma make_dirs_keeps name0 path d d' :
  make_dirs path d = Some d' -> has_file name0 d -> has_file name0 d'.
Proof.
  unfold make_dirs. destruct path as [|p rest].
  - intros H; injection H as <-; auto.
  - apply alter_at_keeps. intros o y nm x Hl Ho. subst o.
    destruct x as [old|sub]; [discriminate|]. injection Hl as <-. auto.
Qed.

Lemma extract_member_keeps name0 m d r d' :
  extract_member m d = (r, d') -> has_file name0 d -> has_file name0 d'.
Proof.
  unfold extract_member. intros H Hf.
  destruct (exists_path (removelast (arc_components (filename m))) d).
  - destruct (is_dir_name (filename m)).
    + destruct (make_dirs _ d) eqn:E; injection H as _ <-; auto.
      eapply make_dirs_keeps; eauto.
    + destruct (body m) as [data|[written|]].
      * destruct (write_file _ data d) eqn:E; injection H as _ <-; auto.
        eapply write_file_keeps; eauto.
      * destruct (write_file _ written d) eqn:E; injection H as _ <-; auto.
        eapply write_file_keeps; eauto.
      * injection H as _ <-; auto.
  - destruct (make_dirs (removelast _) d) as [d1|] eqn:E1.
    2:{ injection H as _ <-; auto. }
    assert (Hf1 : has_file name0 d1) by (eapply make_dirs_keeps; eauto).
    destruct (is_dir_name (filename m)).
    + destruct (make_dirs _ d1) eqn:E; injection H as _ <-; auto.
      eapply make_dirs_keeps; eauto.
    + destruct (body m) as [data|[written|]].
      * destruct (write_file _ data d1) eqn:E; injection H as _ <-; auto.
        eapply write_file_keeps; eauto.
      * destruct (write_file _ written d1) eqn:E; injection H as _ <-; auto.
        eapply write_file_keeps; eauto.
      * injection H as _ <-; auto.
Qed.

Lemma extract_names_keeps name0 members names : forall d r d',
  extract_names members names d = (r, d') ->
  has_file name0 d -> has_file name0 d'.
Proof.
  induction names as [|n rest IH]; intros d r d' H Hf; cbn [extract_names] in H.
  - injection H as _ <-; auto.
  - destruct (getinfo n members) as [m|]; [|injection H as _ <-; auto].
    destruct (extract_member m d) as [[u|e] d1] eqn:E.
    + eapply IH; eauto. eapply extract_member_keeps; eauto.
    + injection H as _ <-. eapply extract_member_keeps; eauto.
Qed.

(** Whatever the archive, and whether or not extraction succeeds, the files
    that were under the directory are still there afterwards. *)
Lemma open_and_extract_keeps name0 a d r d' :
  open_and_extract a d = (r, d') -> has_file name0 d -> has_file name0 d'.
Proof.
  destruct a as [|members]; simpl.
  - intros H; injection H as _ <-; auto.
  - apply extract_names_keeps.
Qed.

(* ===================================================================== *)
(** ** Downloading and extracting the artifact                            *)
(* ===================================================================== *)

Section Download.

Variable server : nat -> endpoint -> http_result.
Variable repo : string.

(** Once the listing has selected an artifact and the archive has been
    served with status 200, the outcome of [download_apk] is decided by the
    extraction and by the scan of the tree it leaves. *)
Lemma download_apk_extracts run_id w r url r2 :
  server (requests_sent w) (ArtifactsUrl repo run_id) = Response r ->
  listing_selects r url ->
  server (S (requests_sent w)) (DownloadUrl url) = Response r2 ->
  status_code r2 = 200%Z ->
  let w2 := emit (Request (DownloadUrl url))
                 (emit (Request (ArtifactsUrl repo run_id)) w) in
  let settle d evs :=
    {| trace := (trace w2 ++ evs)%list; tmpfiles := tmpfiles w;
       next_tmp := S (next_tmp w); cwd := d |} in
  exists w',
  download_apk server repo run_id w =
    (match open_and_extract (content r2) (cwd w) with
     | (Raise e, _) => Raise e
     | (Ok _, d') =>
         match first_apk (walk "." (Dir d')) with
         | Some _ => Ok true
         | None => Ok false
         end
     end, w') /\
  w' =
    match open_and_extract (content r2) (cwd w) with
    | (Raise e, d') => settle d' []
    | (Ok _, d') =>
        match first_apk (walk "." (Dir d')) with
        | Some apk_path => settle d' [Print MsgApkDownloaded; Print (MsgApkReady apk_path)]
        | None => settle d' [Print MsgApkDownloaded]
        end
    end.
Proof.
  intros Hs (H200 & body & arts & items & apk & Hb & Ha & Hi & Hf & Ht & Hu) Hs2 H2.
  intros w2 settle.
  unfold download_apk, bind at 1, requests_get at 1. rewrite Hs, H200.
  cbn [negb Z.eqb Pos.eqb]. unfold bind at 1, response_json. rewrite Hb.
  unfold ret at 1. unfold bind at 1, lift at 1. rewrite Ha.
  unfold bind at 1, lift at 1. rewrite Hi.
  unfold bind at 1, lift at 1. rewrite Hf. rewrite Ht. cbn [negb].
  unfold bind at 1, lift at 1. rewrite Hu.
  unfold bind at 1, requests_get at 1.
  rewrite requests_sent_emit. cbn [is_request]. rewrite Nat.add_1_r, Hs2, H2.
  cbn [Z.eqb Pos.eqb].
  unfold settle, w2. clear settle w2.
  unfold named_temporary_file, try_finally, extract_and_find, ZipFile, unlink,
    zip_extractall, os_walk, print, bind, ret, emit.
  cbn [tmpfiles tmp_lookup next_tmp trace cwd]. rewrite ?Nat.eqb_refl.
  destruct (content r2) as [|members]; cbn [open_and_extract].
  - cbn [tmpfiles tmp_lookup tmp_remove next_tmp trace cwd]. rewrite ?Nat.eqb_refl.
    eexists. split; [reflexivity|]. rewrite app_nil_r. reflexivity.
  - cbn [tmpfiles tmp_lookup tmp_remove next_tmp trace cwd].
    destruct (extractall members (cwd w)) as [[[]|e] d'].
    + cbn [tmpfiles tmp_lookup tmp_remove next_tmp trace cwd].
      destruct (first_apk (walk "." (Dir d'))) as [p|];
        cbn [tmpfiles tmp_lookup tmp_remove next_tmp trace cwd];
        rewrite ?Nat.eqb_refl;
        (eexists; split; [reflexivity|]); rewrite <- ?app_assoc; reflexivity.
    + cbn [tmpfiles tmp_lookup tmp_remove next_tmp trace cwd].
      rewrite ?Nat.eqb_refl.
      eexists. split; [reflexivity|]. rewrite app_nil_r. reflexivity.
Qed.

End Download.

(** C10.  Once the artifact archive has been extracted into the current
    directory without error, [download_apk] returns [True] exactly when some
    file whose name ends in [.apk] lies anywhere in the tree under the
    current directory as extraction left it, and [False] otherwise.  Files
    that were there before count: an [.apk] file present before the call is
    enough for [True], whatever the archive held. *)
Theorem download_apk_true_iff_apk_in_tree
  (server : nat -> endpoint -> http_result) (repo : string) (run_id : json)
  (w : world) (r r2 : response) (url : json) (d' : dir) :
  server (requests_sent w) (ArtifactsUrl repo run_id) = Response r ->
  listing_selects r url ->
  server (S (requests_sent w)) (DownloadUrl url) = Response r2 ->
  status_code r2 = 200%Z ->
  open_and_extract (content r2) (cwd w) = (Ok tt, d') ->
  exists b w',
    download_apk server repo run_id w = (Ok b, w') /\
    cwd w' = d' /\ tmpfiles w' = tmpfiles w /\
    (b = true <-> exists name, endswith name ".apk" = true /\ has_file name d') /\
    (b = false <-> forall name, has_file name d' -> endswith name ".apk" = false) /\
    (forall name, endswith name ".apk" = true -> has_file name (cwd w) -> b = true).
Proof.
  intros Hs Hl Hs2 H2 Hx.
  destruct (download_apk_extracts server repo run_id w r url r2 Hs Hl Hs2 H2)
    as (w' & Hd & Hw).
  rewrite Hx in Hd, Hw.
  pose proof (scan_finds_apk d') as Hscan.
  assert (Hiff : forall b, (b = true <-> first_apk (walk "." (Dir d')) <> None) ->
    (b = true <-> exists name, endswith name ".apk" = true /\ has_file name d') /\
    (b = false <-> forall name, has_file name d' -> endswith name ".apk" = false) /\
    (forall name, endswith name ".apk" = true -> has_file name (cwd w) -> b = true)).
  { intros b Hb. rewrite Hscan in Hb. split; [exact Hb|]. split.
    - split.
      + intros E name Hf. destruct (endswith name ".apk") eqn:En; [|reflexivity].
        assert (b = true) by (apply Hb; eauto). congruence.
      + intros Hall. destruct b; [|reflexivity].
        destruct (proj1 Hb eq_refl) as (name & En & Hf).
        rewrite (Hall name Hf) in En. discriminate.
    - intros name En Hf. apply Hb. exists name. split; [exact En|].
      eapply open_and_extract_keeps; eauto. }
  destruct (first_apk (walk "." (Dir d'))) as [p|] eqn:Ef.
  - exists true, w'. split; [exact Hd|]. rewrite Hw. cbn [cwd tmpfiles].
    split; [reflexivity|]. split; [reflexivity|].
    apply Hiff. split; [discriminate | reflexivity].
  - exists false, w'. split; [exact Hd|]. rewrite Hw. cbn [cwd tmpfiles].
    split; [reflexivity|]. split; [reflexivity|].
    apply Hiff. split; [discriminate | congruence].
Qed.

Lemma download_apk_true_iff_apk_in_tree_witness :
  fst (download_apk (Scenario.serving Scenario.notes_zip) "app" (JNum 42)
         Scenario.stale_world) = Ok true.
Proof.
  destruct (download_apk_true_iff_apk_in_tree
              (Scenario.serving Scenario.notes_zip) "app" (JNum 42)
              Scenario.stale_world
              {| status_code := 200;
                 json_body := Some (JObj [("total_count", JNum 1);
                   ("artifacts",
                    JArr [JObj [("id", JNum 11); ("name", JStr "app-debug");
                                ("archive_download_url",
                                 JStr "https://api.github.com/zip/11")]])]);
                 content := NotAZip |}
              {| status_code := 200; json_body := None;
                 content := Scenario.notes_zip |}
              (JStr "https://api.github.com/zip/11")
              [("app", Dir [("build.gradle", File "android {}")]);
               ("old", Dir [("release.apk", File "PK-old")]);
               ("docs", Dir [("notes.txt", File "nothing built")])])
    as (b & w' & Hd & _ & _ & _ & _ & Hold).
  - reflexivity.
  - split; [reflexivity|]. do 4 eexists. repeat split; reflexivity.
  - reflexivity.
  - reflexivity.
  - reflexivity.
  - rewrite Hd. cbn [fst]. f_equal.
    apply (Hold "release.apk"); [reflexivity|].
    eapply has_file_below; [right; left; reflexivity|].
    eapply has_file_here. left. reflexivity.
Defined.

(** C9, as the code has it.  When the downloaded archive cannot be opened
    or a member cannot be extracted, [download_apk] raises the error; the
    temporary file is removed; whatever had been extracted by then stays in
    the current directory, and no file that was there is removed.  The tree
    is unchanged when the archive cannot be opened at all. *)
Theorem corrupt_archive_raises
  (server : nat -> endpoint -> http_result) (repo : string) (run_id : json)
  (w : world) (r r2 : response) (url : json) (e : exn) (d' : dir) :
  server (requests_sent w) (ArtifactsUrl repo run_id) = Response r ->
  listing_selects r url ->
  server (S (requests_sent w)) (DownloadUrl url) = Response r2 ->
  status_code r2 = 200%Z ->
  open_and_extract (content r2) (cwd w) = (Raise e, d') ->
  exists w',
    download_apk server repo run_id w = (Raise e, w') /\
    cwd w' = d' /\ tmpfiles w' = tmpfiles w /\
    (content r2 = NotAZip -> e = BadZipFile /\ d' = cwd w) /\
    (forall name, has_file name (cwd w) -> has_file name d').
Proof.
  intros Hs Hl Hs2 H2 Hx.
  destruct (download_apk_extracts server repo run_id w r url r2 Hs Hl Hs2 H2)
    as (w' & Hd & Hw).
  rewrite Hx in Hd, Hw. exists w'. split; [exact Hd|].
  rewrite Hw. cbn [cwd tmpfiles]. split; [reflexivity|]. split; [reflexivity|].
  split.
  - intros Hc. rewrite Hc in Hx. cbn [open_and_extract] in Hx.
    injection Hx as <- <-. auto.
  - intros name Hf. eapply open_and_extract_keeps; eauto.
Qed.

Lemma corrupt_archive_raises_witness :
  exists w',
    download_apk (Scenario.serving NotAZip) "app" (JNum 42) Scenario.stale_world =
      (Raise BadZipFile, w') /\
    cwd w' = cwd Scenario.stale_world /\ tmpfiles w' = [].
Proof.
  destruct (corrupt_archive_raises
              (Scenario.serving NotAZip) "app" (JNum 42) Scenario.stale_world
              {| status_code := 200;
                 json_body := Some (JObj [("total_count", JNum 1);
                   ("artifacts",
                    JArr [JObj [("id", JNum 11); ("name", JStr "app-debug");
                                ("archive_download_url",
                                 JStr "https://api.github.com/zip/11")]])]);
                 content := NotAZip |}
              {| status_code := 200; json_body := None; content := NotAZip |}
              (JStr "https://api.github.com/zip/11")
              BadZipFile (cwd Scenario.stale_world))
    as (w' & Hd & Hc & Ht & _).
  - reflexivity.
  - split; [reflexivity|]. do 4 eexists. repeat split; reflexivity.
  - reflexivity.
  - reflexivity.
  - reflexivity.
  - exists w'. split; [exact Hd|]. split; [exact Hc | exact Ht].
Defined.

(** C9 fails as stated: a member that fails its CRC check makes
    [download_apk] raise [BadZipFile], which also ends [monitor_build]; the
    member before it and the bytes copied of the damaged one are left in the
    current directory, which was empty. *)
Lemma torn_archive_leaves_partial_files :
  fst (monitor_build (Scenario.built Scenario.torn_zip) "app" Scenario.world0)
    = Raise BadZipFile /\
  fst (download_apk (Scenario.serving Scenario.torn_zip) "app" (JNum 42) Scenario.world0)
    = Raise BadZipFile /\
  cwd (snd (download_apk (Scenario.serving Scenario.torn_zip) "app" (JNum 42)
              Scenario.world0))
    = [("app-debug.apk", File "PK-apk-bytes"); ("output-metadata.json", File "{")] /\
  cwd (snd (download_apk (Scenario.serving Scenario.torn_zip) "app" (JNum 42)
              Scenario.world0))
    <> cwd Scenario.world0.
Proof.
  split; [vm_compute; reflexivity|]. split; [vm_compute; reflexivity|].
  split; [vm_compute; reflexivity|]. vm_compute. discriminate.
Qed.

(* ===================================================================== *)
(** ** What the caller is told                                            *)
(* ===================================================================== *)

Section Verdict.

Variable server : nat -> endpoint -> http_result.
Variable repo : string.

Lemma poll_cycle_verdict w r w1 :
  poll_cycle server repo w = (r, w1) ->
  exists evs, trace w1 = (trace w ++ evs)%list /\ cycle_verdict r evs.
Proof.
  rewrite poll_cycle_eq. cbv zeta.
  destruct (poll_view (server (requests_sent w) (RunsUrl repo)))
    as [[|st c rid]|e].
  - intros H; injection H as <- <-. exists [Request (RunsUrl repo)].
    split; reflexivity.
  - set (w_s := emit (Print (MsgBuildStatus st c)) (emit (Request (RunsUrl repo)) w)).
    assert (Ts : trace w_s =
      (trace w ++ [Request (RunsUrl repo); Print (MsgBuildStatus st c)])%list).
    { unfold w_s. rewrite !trace_emit. app_norm. }
    unfold react. destruct (eq_str st "completed").
    + destruct (eq_str c "success").
      * unfold bind at 1, print at 1.
        set (w_pre := emit (Print MsgBuildCompleted) w_s).
        destruct (download_apk_tail server repo rid w_pre) as (tail & Ht & Hq).
        unfold bind. destruct (download_apk server repo rid w_pre) as [[b|e] w'];
          cbn [snd] in Ht; intros H; injection H as <- <-;
          exists ([Request (RunsUrl repo); Print (MsgBuildStatus st c);
                   Print MsgBuildCompleted; Request (ArtifactsUrl repo rid)] ++ tail)%list;
          (split; [rewrite Ht; unfold w_pre; rewrite trace_emit, Ts; app_norm|]);
          [|exact I].
        cbn [cycle_verdict]. rewrite filter_app.
        rewrite (filter_none is_verdict tail); [reflexivity|].
        eapply count_none; [|exact Hq].
        intros x Hx. apply download_event_quiet in Hx. tauto.
      * unfold bind at 1, print at 1. unfold bind at 1, print at 1.
        set (w_pre := emit (Print MsgBuildLogs) (emit (Print MsgBuildFailed) w_s)).
        destruct (get_workflow_logs_tail server repo rid w_pre) as (tail & Ht & Hq).
        unfold bind. destruct (get_workflow_logs server repo rid w_pre) as [[u|e] w'];
          cbn [snd] in Ht; intros H; injection H as <- <-;
          exists ([Request (RunsUrl repo); Print (MsgBuildStatus st c);
                   Print MsgBuildFailed; Print MsgBuildLogs;
                   Request (LogsUrl repo rid)] ++ tail)%list;
          (split; [rewrite Ht; unfold w_pre; rewrite !trace_emit, Ts; app_norm|]);
          [|exact I].
        cbn [cycle_verdict]. rewrite filter_app.
        rewrite (filter_none is_verdict tail); [reflexivity|].
        eapply count_none; [|exact Hq].
        intros x Hx. apply log_event_quiet in Hx. tauto.
    + intros H; injection H as <- <-.
      exists [Request (RunsUrl repo); Print (MsgBuildStatus st c)].
      split; [exact Ts | reflexivity].
  - intros H; injection H as <- <-. exists [Request (RunsUrl repo)].
    split; [reflexivity | exact I].
Qed.

Lemma monitor_loop_verdict limit k : forall attempt w,
  attempt + k = limit ->
  exists r w' evs,
    monitor_loop server repo limit attempt w = (r, w') /\
    trace w' = (trace w ++ evs)%list /\ verdict_matches r evs.
Proof.
  induction k as [|k IH]; intros attempt w Hk.
  - rewrite monitor_loop_timeout by lia.
    exists (Ok false), (emit (Print MsgBuildTimeout) w), [Print MsgBuildTimeout].
    split; [reflexivity|]. split; [reflexivity|]. right. reflexivity.
  - destruct (poll_cycle server repo w) as [[[b|]|e] w1] eqn:Hc;
      destruct (poll_cycle_verdict w _ _ Hc) as (evs & Ht & Hv).
    + rewrite (monitor_loop_return server repo limit attempt w b w1) by (auto; lia).
      exists (Ok b), w1, evs. split; [reflexivity|]. split; [exact Ht|].
      destruct b; cbn [cycle_verdict verdict_matches] in *; auto.
    + rewrite (monitor_loop_continue server repo limit attempt w w1) by (auto; lia).
      destruct (IH (S attempt) (emit (Sleep poll_interval) w1)) as (r & w' & evs' & Hm & Ht' & Hv');
        [lia|].
      exists r, w', (evs ++ Sleep poll_interval :: evs')%list.
      split; [exact Hm|]. split.
      * rewrite Ht', trace_emit, Ht. app_norm.
      * cbn [cycle_verdict] in Hv.
        assert (E : filter is_verdict (evs ++ Sleep poll_interval :: evs') =
                    filter is_verdict evs').
        { rewrite filter_app, Hv. reflexivity. }
        destruct r as [[|]|x]; cbn [verdict_matches] in *; rewrite ?E; auto.
    + rewrite (monitor_loop_raise server repo limit attempt w e w1) by (auto; lia).
      exists (Raise e), w1, evs. split; [reflexivity|]. split; [exact Ht|]. exact I.
Qed.

End Verdict.

(** C4, as the code has it.  [monitor_build] hands its caller a boolean, or
    lets an exception through.  [True] comes with the success line and no
    other verdict line; [False] comes with the failure line or with the
    time-out line, never both: the value returned is the same for a failed
    build and for a time-out, and what [download_apk] returned has no part
    in it. *)
Theorem monitor_build_reports_a_boolean
  (server : nat -> endpoint -> http_result) (repo : string) (w : world) :
  exists r w' evs,
    monitor_build server repo w = (r, w') /\
    trace w' = (trace w ++ Print MsgMonitoring :: evs)%list /\
    verdict_matches r evs.
Proof.
  rewrite monitor_build_enter.
  destruct (monitor_loop_verdict server repo max_attempts max_attempts 0
              (emit (Print MsgMonitoring) w) eq_refl) as (r & w' & evs & Hm & Ht & Hv).
  exists r, w', evs. split; [exact Hm|]. split; [|exact Hv].
  rewrite Ht, trace_emit. app_norm.
Qed.

(** C4 fails as stated: a failed build and a time-out are both reported as
    [False]; a successful build is reported as [True] whether the APK was
    retrieved or the artifact listing failed. *)
Lemma outcomes_share_return_values :
  fst (monitor_build Scenario.fails "app" Scenario.world0) = Ok false /\
  fst (monitor_build Scenario.hangs "app" Scenario.world0) = Ok false /\
  fst (monitor_build (Scenario.built Scenario.apk_zip) "app" Scenario.world0) = Ok true /\
  fst (monitor_build Scenario.unlisted "app" Scenario.world0) = Ok true /\
  fst (download_apk Scenario.unlisted "app" (JNum 42) Scenario.world0) = Ok false.
Proof. repeat split; vm_compute; reflexivity. Qed.

(* ===================================================================== *)
(** ** Failures inside a cycle                                            *)
(* ===================================================================== *)

Section HttpFailures.

Variable server : nat -> endpoint -> http_result.
Variable repo : string.

Lemma download_apk_not_200 run_id w r :
  server (requests_sent w) (ArtifactsUrl repo run_id) = Response r ->
  status_code r <> 200%Z ->
  download_apk server repo run_id w =
  (Ok false,
   emit (Print MsgArtifactsFailed) (emit (Request (ArtifactsUrl repo run_id)) w)).
Proof.
  intros Hs Hn. unfold download_apk, bind at 1, requests_get. rewrite Hs.
  destruct (status_code r =? 200)%Z eqn:E; [apply Z.eqb_eq in E; contradiction|].
  reflexivity.
Qed.

Lemma get_workflow_logs_not_200 run_id w r :
  server (requests_sent w) (LogsUrl repo run_id) = Response r ->
  status_code r <> 200%Z ->
  get_workflow_logs server repo run_id w =
  (Ok tt, emit (Print MsgLogsFailed) (emit (Request (LogsUrl repo run_id)) w)).
Proof.
  intros Hs Hn. unfold get_workflow_logs, bind at 1, requests_get. rewrite Hs.
  destruct (status_code r =? 200)%Z eqn:E; [apply Z.eqb_eq in E; contradiction|].
  reflexivity.
Qed.

Hypothesis listing_readable :
  forall n, exists v, poll_view (server n (RunsUrl repo)) = Ok v.
Hypothesis logs_refused :
  forall n run_id, exists r,
    server n (LogsUrl repo run_id) = Response r /\ status_code r <> 200%Z.
Hypothesis artifacts_refused :
  forall n run_id, exists r,
    server n (ArtifactsUrl repo run_id) = Response r /\ status_code r <> 200%Z.

Lemma poll_cycle_returns w :
  exists o w1, poll_cycle server repo w = (Ok o, w1).
Proof.
  rewrite poll_cycle_eq. cbv zeta.
  destruct (listing_readable (requests_sent w)) as [[|st c rid] Hv]; rewrite Hv.
  - eauto.
  - unfold react. destruct (eq_str st "completed"); [|unfold ret; eauto].
    destruct (eq_str c "success").
    + unfold bind at 1, print at 1, bind at 1.
      match goal with |- context [download_apk _ _ _ ?w0] =>
        destruct (artifacts_refused (requests_sent w0) rid) as (r & Hs & Hn);
        rewrite (download_apk_not_200 rid w0 r Hs Hn) end.
      unfold ret. eauto.
    + unfold bind at 1, print at 1, bind at 1, print at 1, bind at 1.
      match goal with |- context [get_workflow_logs _ _ _ ?w0] =>
        destruct (logs_refused (requests_sent w0) rid) as (r & Hs & Hn);
        rewrite (get_workflow_logs_not_200 rid w0 r Hs Hn) end.
      unfold ret. eauto.
Qed.

Lemma monitor_loop_returns limit k : forall attempt w,
  attempt + k = limit ->
  exists b w', monitor_loop server repo limit attempt w = (Ok b, w').
Proof.
  induction k as [|k IH]; intros attempt w Hk.
  - rewrite monitor_loop_timeout by lia. eauto.
  - destruct (poll_cycle_returns w) as ([b|] & w1 & Hc).
    + rewrite (monitor_loop_return server repo limit attempt w b w1) by (auto; lia).
      eauto.
    + rewrite (monitor_loop_continue server repo limit attempt w w1) by (auto; lia).
      apply IH. lia.
Qed.

End HttpFailures.

(** C6, as the code has it.  The failures [monitor_build] turns into an
    outcome are the responses whose status is not 200: when every run listing
    is answered with such a status or with a well-formed list, and every log
    and artifact request with such a status, [monitor_build] returns a
    boolean and raises nothing. *)
Theorem http_failures_raise_nothing
  (server : nat -> endpoint -> http_result) (repo : string) (w : world) :
  (forall n, exists v, poll_view (server n (RunsUrl repo)) = Ok v) ->
  (forall n run_id, exists r,
     server n (LogsUrl repo run_id) = Response r /\ status_code r <> 200%Z) ->
  (forall n run_id, exists r,
     server n (ArtifactsUrl repo run_id) = Response r /\ status_code r <> 200%Z) ->
  exists b w', monitor_build server repo w = (Ok b, w').
Proof.
  intros H1 H2 H3. rewrite monitor_build_enter.
  apply (monitor_loop_returns server repo H1 H2 H3 max_attempts max_attempts 0).
  reflexivity.
Qed.

Lemma http_failures_raise_nothing_witness :
  exists b w', monitor_build Scenario.flaky "app" Scenario.world0 = (Ok b, w').
Proof.
  apply (http_failures_raise_nothing Scenario.flaky "app" Scenario.world0).
  - intros n. do 3 (destruct n as [|n]; [eexists; reflexivity|]).
    destruct n; eexists; reflexivity.
  - intros n run_id. eexists. split; [reflexivity | simpl; discriminate].
  - intros n run_id. eexists. split; [reflexivity | simpl; discriminate].
Defined.

(** C6 fails as stated: a request that gets no response raises inside the
    first cycle, and the exception leaves [monitor_build]; so does the
    [BadZipFile] of a log archive that cannot be read. *)
Lemma exception_escapes_monitor :
  fst (monitor_build Scenario.offline "app" Scenario.world0) = Raise RequestException /\
  fst (monitor_build
         (Scenario.service [Scenario.runs_response
                              [Scenario.run "completed" (JStr "failure") 7]]
                           (fun _ => Scenario.zip_response NotAZip))
         "app" Scenario.world0) = Raise BadZipFile.
Proof. split; vm_compute; reflexivity. Qed.

(* ===================================================================== *)
(** ** How much a run of the monitor can do                               *)
(* ===================================================================== *)

Lemma total_app mu xs ys :
  total mu (xs ++ ys)%list = total mu xs + total mu ys.
Proof. unfold total. rewrite map_app, list_sum_app. reflexivity. Qed.

Lemma total_count (p : event -> bool) evs :
  total (fun e => if p e then 1 else 0) evs = count p evs.
Proof.
  unfold total, count. induction evs as [|e evs IH]; [reflexivity|].
  simpl. destruct (p e); simpl; rewrite IH; reflexivity.
Qed.

Lemma total_none (P : event -> Prop) mu evs :
  (forall e, P e -> mu e = 0) -> Forall P evs -> total mu evs = 0.
Proof.
  intros Hp H. induction H as [|e evs He _ IH]; [reflexivity|].
  unfold total in *. simpl. rewrite (Hp e He). exact IH.
Qed.

Section Costs.

Context {A B : Type}.
Variable mu : event -> nat.

Lemma costs_weaken n m (c : M A) : n <= m -> costs mu n c -> costs mu m c.
Proof. intros Hle H w. specialize (H w). lia. Qed.

(** A computation whose events all weigh nothing costs nothing. *)
Lemma costs_emits (c : M A) : emits (fun e => mu e = 0) c -> costs mu 0 c.
Proof.
  intros H w. destruct (H w) as (evs & Ht & Hf). rewrite Ht, total_app.
  rewrite (total_none (fun e => mu e = 0) mu evs (fun e He => He) Hf). lia.
Qed.

Lemma costs_bind n m (c : M A) (k : A -> M B) :
  costs mu n c -> (forall a, costs mu m (k a)) -> costs mu (n + m) (bind c k).
Proof.
  intros Hc Hk w. unfold bind. specialize (Hc w).
  destruct (c w) as [[a|e] w1]; simpl in *.
  - specialize (Hk a w1). lia.
  - lia.
Qed.

End Costs.

Lemma costs_requests_get server mu url :
  costs mu (mu (Request url)) (requests_get server url).
Proof.
  intros w. unfold requests_get.
  destruct (server (requests_sent w) url); simpl;
    rewrite total_app; unfold total; simpl; lia.
Qed.

Lemma emits_weaken {A} (P Q : event -> Prop) (c : M A) :
  (forall e, P e -> Q e) -> emits P c -> emits Q c.
Proof.
  intros Hpq H w. destruct (H w) as (evs & Ht & Hf). exists evs.
  split; [exact Ht|]. eapply Forall_impl; eauto.
Qed.

Ltac emits_calc :=
  repeat
    (first
       [ apply emits_bind; [|intros ?]
       | apply emits_try_finally
       | apply emits_for_each; intros ?
       | apply emits_print; reflexivity
       | apply emits_requests_get; reflexivity
       | solve [auto with emits]
       | match goal with
         | |- emits _ (match ?x with _ => _ end) => destruct x
         end ]).

Ltac quiet :=
  apply costs_emits; unfold extract_and_find, show_log; emits_calc.

Section Budget.

Variable server : nat -> endpoint -> http_result.
Variable repo : string.

(** What [download_apk] does after the artifact listing has been answered. *)
Lemma download_apk_unfold run_id w :
  download_apk server repo run_id w =
  bind (requests_get server (ArtifactsUrl repo run_id))
    (fun response =>
       if negb (status_code response =? 200)%Z then
         print MsgArtifactsFailed ;; ret false
       else
         body <- response_json response ;;
         artifacts <- lift (getitem body "artifacts") ;;
         items <- lift (iterate artifacts) ;;
         apk_artifact <- lift (find_artifact items) ;;
         if negb (truthy apk_artifact) then
           print MsgArtifactNotFound ;; ret false
         else
           download_url <- lift (getitem apk_artifact "archive_download_url") ;;
           response <- requests_get server (DownloadUrl download_url) ;;
           if (status_code response =? 200)%Z then
             temp_file_path <- named_temporary_file (content response) ;;
             returned <- try_finally (extract_and_find temp_file_path)
                                     (unlink temp_file_path) ;;
             match returned with
             | Some b => ret b
             | None => ret false
             end
           else
             print MsgApkDownloadFailed ;; ret false) w.
Proof. reflexivity. Qed.

Lemma download_apk_costs_requests run_id :
  costs request_weight 2 (download_apk server repo run_id).
Proof.
  intros w. rewrite download_apk_unfold. revert w.
  apply (costs_bind request_weight 1 1); [apply costs_requests_get|].
  intros r. destruct (negb (status_code r =? 200)%Z).
  { apply (costs_weaken request_weight 0); [lia|]. quiet. }
  apply (costs_bind request_weight 0 1); [quiet|]. intros body.
  apply (costs_bind request_weight 0 1); [quiet|]. intros artifacts.
  apply (costs_bind request_weight 0 1); [quiet|]. intros items.
  apply (costs_bind request_weight 0 1); [quiet|]. intros apk.
  destruct (negb (truthy apk)).
  { apply (costs_weaken request_weight 0); [lia|]. quiet. }
  apply (costs_bind request_weight 0 1); [quiet|]. intros url.
  apply (costs_bind request_weight 1 0); [apply costs_requests_get|].
  intros r2. quiet.
Qed.

Lemma get_workflow_logs_costs_requests run_id :
  costs request_weight 1 (get_workflow_logs server repo run_id).
Proof.
  unfold get_workflow_logs.
  apply (costs_bind request_weight 1 0); [apply costs_requests_get|].
  intros r. quiet.
Qed.

Lemma download_apk_emits run_id :
  emits (fun e => e = Request (ArtifactsUrl repo run_id) \/ download_event e)
        (download_apk server repo run_id).
Proof.
  intros w. destruct (download_apk_tail server repo run_id w) as (tail & Ht & Hf).
  exists (Request (ArtifactsUrl repo run_id) :: tail). split; [exact Ht|].
  constructor; [left; reflexivity|]. eapply Forall_impl; [|exact Hf]. auto.
Qed.

Lemma get_workflow_logs_emits run_id :
  emits (fun e => e = Request (LogsUrl repo run_id) \/ log_event e)
        (get_workflow_logs server repo run_id).
Proof.
  intros w. destruct (get_workflow_logs_tail server repo run_id w) as (tail & Ht & Hf).
  exists (Request (LogsUrl repo run_id) :: tail). split; [exact Ht|].
  constructor; [left; reflexivity|]. eapply Forall_impl; [|exact Hf]. auto.
Qed.

(** A weight that ignores printed lines, that is at most [d] for a whole
    [download_apk] and for a whole [get_workflow_logs]. *)
Variable mu : event -> nat.
Variable d : nat.
Hypothesis prints_are_free : forall line, mu (Print line) = 0.
Hypothesis download_within : forall run_id, costs mu d (download_apk server repo run_id).
Hypothesis logs_within : forall run_id, costs mu d (get_workflow_logs server repo run_id).

Lemma total_emit e w : total mu (trace (emit e w)) = total mu (trace w) + mu e.
Proof. rewrite trace_emit, total_app. unfold total. simpl. lia. Qed.

Lemma poll_cycle_costs w r w1 :
  poll_cycle server repo w = (r, w1) ->
  total mu (trace w1) <=
  total mu (trace w) + mu (Request (RunsUrl repo)) +
  match r with Ok None => 0 | _ => d end.
Proof.
  rewrite poll_cycle_eq. cbv zeta.
  destruct (poll_view (server (requests_sent w) (RunsUrl repo)))
    as [[|st c rid]|e].
  - intros H; injection H as <- <-. rewrite total_emit. lia.
  - unfold react. destruct (eq_str st "completed").
    + destruct (eq_str c "success").
      * unfold bind at 1, print at 1, bind.
        match goal with |- context [download_apk _ _ _ ?w0] =>
          pose proof (download_within rid w0) as Hd;
          destruct (download_apk server repo rid w0) as [[b|e] w'] end;
          cbn [snd] in Hd; rewrite !total_emit, !prints_are_free in Hd;
          intros H; injection H as <- <-; lia.
      * unfold bind at 1, print at 1, bind at 1, print at 1, bind.
        match goal with |- context [get_workflow_logs _ _ _ ?w0] =>
          pose proof (logs_within rid w0) as Hd;
          destruct (get_workflow_logs server repo rid w0) as [[u|e] w'] end;
          cbn [snd] in Hd; rewrite !total_emit, !prints_are_free in Hd;
          intros H; injection H as <- <-; lia.
    + intros H; injection H as <- <-.
      rewrite !total_emit, prints_are_free. lia.
  - intros H; injection H as <- <-. rewrite total_emit. lia.
Qed.

Lemma monitor_loop_costs limit k : forall attempt w,
  attempt + k = limit ->
  total mu (trace (snd (monitor_loop server repo limit attempt w))) <=
  total mu (trace w) +
  k * (mu (Request (RunsUrl repo)) + mu (Sleep poll_interval)) + d.
Proof.
  induction k as [|k IH]; intros attempt w Hk.
  - rewrite monitor_loop_timeout by lia. cbn [snd].
    rewrite total_emit, prints_are_free. lia.
  - destruct (poll_cycle server repo w) as [[[b|]|e] w1] eqn:Hc;
      pose proof (poll_cycle_costs w _ _ Hc) as Hp; cbv iota in Hp.
    + rewrite (monitor_loop_return server repo limit attempt w b w1) by (auto; lia).
      cbn [snd Nat.mul]. lia.
    + rewrite (monitor_loop_continue server repo limit attempt w w1) by (auto; lia).
      assert (Hk' : S attempt + k = limit) by lia.
      specialize (IH (S attempt) (emit (Sleep poll_interval) w1) Hk').
      rewrite total_emit in IH. cbn [Nat.mul]. lia.
    + rewrite (monitor_loop_raise server repo limit attempt w e w1) by (auto; lia).
      cbn [snd Nat.mul]. lia.
Qed.

End Budget.

(** X1.  Whatever the service answers, one call of [monitor_build] sends at
    most 62 requests, at most 60 of them run listings, and sleeps for at
    most 600 seconds in all. *)
Theorem monitor_build_is_bounded
  (server : nat -> endpoint -> http_result) (repo : string) (w : world) :
  let after := trace (snd (monitor_build server repo w)) in
  count is_request after <= count is_request (trace w) + 62 /\
  count is_runs_request after <= count is_runs_request (trace w) + 60 /\
  total sleep_weight after <= total sleep_weight (trace w) + 600.
Proof.
  cbv zeta. rewrite monitor_build_enter.
  set (w0 := emit (Print MsgMonitoring) w).
  rewrite <- !(total_count is_request), <- !(total_count is_runs_request).
  fold request_weight listing_weight.
  assert (Hq : forall run_id,
            costs listing_weight 0 (download_apk server repo run_id) /\
            costs sleep_weight 0 (download_apk server repo run_id) /\
            costs listing_weight 0 (get_workflow_logs server repo run_id) /\
            costs sleep_weight 0 (get_workflow_logs server repo run_id)).
  { intros run_id. repeat split; apply costs_emits;
      first [ eapply emits_weaken; [|apply download_apk_emits]
            | eapply emits_weaken; [|apply get_workflow_logs_emits] ];
      intros e [->|He]; try reflexivity;
      destruct e as [[]| |[]]; try destruct He; reflexivity. }
  assert (T : forall mu, total mu (trace w0) = total mu (trace w) + mu (Print MsgMonitoring)).
  { intros mu. unfold w0. apply total_emit. }
  split; [|split].
  - pose proof (monitor_loop_costs server repo request_weight 2
                  (fun _ => eq_refl) (download_apk_costs_requests server repo)
                  (fun rid => costs_weaken request_weight 1 2 _ (le_S _ _ (le_n _))
                                (get_workflow_logs_costs_requests server repo rid))
                  max_attempts max_attempts 0 w0 eq_refl) as H.
    rewrite T in H. cbn [request_weight is_request] in H. unfold max_attempts in *.
    lia.
  - pose proof (monitor_loop_costs server repo listing_weight 0
                  (fun _ => eq_refl) (fun rid => proj1 (Hq rid))
                  (fun rid => proj1 (proj2 (proj2 (Hq rid))))
                  max_attempts max_attempts 0 w0 eq_refl) as H.
    rewrite T in H. cbn [listing_weight is_runs_request] in H.
    unfold max_attempts in *. lia.
  - pose proof (monitor_loop_costs server repo sleep_weight 0
                  (fun _ => eq_refl) (fun rid => proj1 (proj2 (Hq rid)))
                  (fun rid => proj2 (proj2 (proj2 (Hq rid))))
                  max_attempts max_attempts 0 w0 eq_refl) as H.
    rewrite T in H. cbn [sleep_weight] in H.
    change (Z.to_nat poll_interval) with 10 in H.
    unfold max_attempts in *. lia.
Qed.

(* ===================================================================== *)
(** ** What a run of the monitor leaves behind                            *)
(* ===================================================================== *)

Section Preserves.

Context {X : Type}.
Variable f : world -> X.
Hypothesis f_emit : forall e w, f (emit e w) = f w.

Lemma preserves_ret {A} (a : A) : preserves f (ret a).
Proof. intros w. reflexivity. Qed.

Lemma preserves_raise {A} e : preserves f (@raise A e).
Proof. intros w. reflexivity. Qed.

Lemma preserves_lift {A} (r : result A) : preserves f (lift r).
Proof. intros w. reflexivity. Qed.

Lemma preserves_bind {A B} (c : M A) (k : A -> M B) :
  preserves f c -> (forall a, preserves f (k a)) -> preserves f (bind c k).
Proof.
  intros Hc Hk w. unfold bind. specialize (Hc w).
  destruct (c w) as [[a|e] w1]; simpl in *; [rewrite Hk|]; exact Hc.
Qed.

Lemma preserves_try_finally {A} (body : M A) (cleanup : M unit) :
  preserves f body -> preserves f cleanup -> preserves f (try_finally body cleanup).
Proof.
  intros Hb Hc w. unfold try_finally. specialize (Hb w).
  destruct (body w) as [r w1]; simpl in *. specialize (Hc w1).
  destruct (cleanup w1) as [[u|e] w2]; simpl in *; congruence.
Qed.

Lemma preserves_for_each {A} (xs : list A) (body : A -> M unit) :
  (forall x, preserves f (body x)) -> preserves f (for_each xs body).
Proof.
  intros H. induction xs as [|x xs IH]; simpl.
  - apply preserves_ret.
  - apply preserves_bind; auto.
Qed.

Lemma preserves_print line : preserves f (print line).
Proof. intros w. apply f_emit. Qed.

Lemma preserves_sleep seconds : preserves f (sleep seconds).
Proof. intros w. apply f_emit. Qed.

Lemma preserves_requests_get server url : preserves f (requests_get server url).
Proof.
  intros w. unfold requests_get.
  destruct (server (requests_sent w) url); apply f_emit.
Qed.

Lemma preserves_response_json r : preserves f (response_json r).
Proof.
  unfold response_json. destruct (json_body r);
    [apply preserves_ret | apply preserves_raise].
Qed.

Lemma preserves_ZipFile path : preserves f (ZipFile path).
Proof.
  intros w. unfold ZipFile.
  destruct (tmp_lookup path (tmpfiles w)) as [[|ms]|]; reflexivity.
Qed.

Lemma preserves_os_walk : preserves f os_walk.
Proof. intros w. reflexivity. Qed.

End Preserves.

Lemma preserves_cwd_named_temporary_file a :
  preserves cwd (named_temporary_file a).
Proof. intros w. reflexivity. Qed.

Lemma preserves_cwd_unlink path : preserves cwd (unlink path).
Proof.
  intros w. unfold unlink. destruct (tmp_lookup path (tmpfiles w)); reflexivity.
Qed.

Lemma preserves_tmpfiles_zip_extractall ms :
  preserves tmpfiles (zip_extractall ms).
Proof.
  intros w. unfold zip_extractall. destruct (extractall ms (cwd w)); reflexivity.
Qed.

(** The temporary file written before a [try] whose [finally] unlinks it is
    gone afterwards, however the [try] block ends. *)
Lemma temp_file_removed {A} a (body : nat -> M A) :
  (forall p, preserves tmpfiles (body p)) ->
  preserves tmpfiles
    (temp_file_path <- named_temporary_file a ;;
     try_finally (body temp_file_path) (unlink temp_file_path)).
Proof.
  intros Hb w. unfold bind at 1, named_temporary_file.
  set (w0 := {| trace := trace w; tmpfiles := (next_tmp w, a) :: tmpfiles w;
                next_tmp := S (next_tmp w); cwd := cwd w |}).
  unfold try_finally. pose proof (Hb (next_tmp w) w0) as H.
  destruct (body (next_tmp w) w0) as [r w1]. cbn [snd] in H.
  unfold unlink. rewrite H. unfold w0. cbn [tmpfiles tmp_lookup tmp_remove].
  rewrite Nat.eqb_refl. reflexivity.
Qed.

Lemma temp_file_removed_then {A B} a (body : nat -> M A) (k : A -> M B) :
  (forall p, preserves tmpfiles (body p)) ->
  (forall x, preserves tmpfiles (k x)) ->
  preserves tmpfiles
    (temp_file_path <- named_temporary_file a ;;
     returned <- try_finally (body temp_file_path) (unlink temp_file_path) ;;
     k returned).
Proof.
  intros Hb Hk w. pose proof (temp_file_removed a body Hb w) as H.
  unfold bind in *. destruct (named_temporary_file a w) as [[p|e] w0];
    [|exact H].
  destruct (try_finally (body p) (unlink p) w0) as [[x|e] w1]; cbn [snd] in *;
    [rewrite Hk|]; exact H.
Qed.

Ltac keeps :=
  repeat
    (first
       [ apply preserves_bind; [|intros ?]
       | apply preserves_try_finally
       | apply preserves_for_each; intros ?
       | apply preserves_ret
       | apply preserves_raise
       | apply preserves_lift
       | apply preserves_print; reflexivity
       | apply preserves_sleep; reflexivity
       | apply preserves_requests_get; reflexivity
       | apply preserves_response_json
       | apply preserves_ZipFile
       | apply preserves_os_walk
       | apply preserves_cwd_named_temporary_file
       | apply preserves_cwd_unlink
       | apply preserves_tmpfiles_zip_extractall
       | match goal with
         | |- preserves _ (match ?x with _ => _ end) => destruct x
         end ]).

Section Leftovers.

Variable server : nat -> endpoint -> http_result.
Variable repo : string.

Lemma get_workflow_logs_keeps_cwd run_id :
  preserves cwd (get_workflow_logs server repo run_id).
Proof. unfold get_workflow_logs, show_log. keeps. Qed.

Lemma get_workflow_logs_keeps_tmpfiles run_id :
  preserves tmpfiles (get_workflow_logs server repo run_id).
Proof.
  unfold get_workflow_logs.
  apply preserves_bind; [apply preserves_requests_get; reflexivity|].
  intros r. destruct (status_code r =? 200)%Z; [|keeps].
  apply (temp_file_removed (content r)
           (fun p => zip_file <- ZipFile p ;;
                     for_each (namelist zip_file) (show_log zip_file))).
  intros p. unfold show_log. keeps.
Qed.

Lemma download_apk_keeps_tmpfiles run_id :
  preserves tmpfiles (download_apk server repo run_id).
Proof.
  intros w. rewrite download_apk_unfold. revert w.
  apply preserves_bind; [apply preserves_requests_get; reflexivity|].
  intros r. destruct (negb (status_code r =? 200)%Z); [keeps|].
  do 4 (apply preserves_bind; [keeps|]; intros ?).
  destruct (negb (truthy _)); [keeps|].
  apply preserves_bind; [keeps|]. intros url.
  apply preserves_bind; [apply preserves_requests_get; reflexivity|].
  intros r2. destruct (status_code r2 =? 200)%Z; [|keeps].
  apply (temp_file_removed_then (content r2) extract_and_find).
  - intros p. unfold extract_and_find. keeps.
  - intros x. keeps.
Qed.

(** A cycle leaves no temporary file, and changes the tree only when it
    goes down the success branch. *)
Lemma poll_cycle_leftovers w r w1 :
  poll_cycle server repo w = (r, w1) ->
  tmpfiles w1 = tmpfiles w /\
  (r = Ok None \/ r = Ok (Some false) -> cwd w1 = cwd w).
Proof.
  rewrite poll_cycle_eq. cbv zeta.
  destruct (poll_view (server (requests_sent w) (RunsUrl repo)))
    as [[|st c rid]|e].
  - intros H; injection H as <- <-. auto.
  - unfold react. destruct (eq_str st "completed").
    + destruct (eq_str c "success").
      * unfold bind at 1, print at 1, bind.
        match goal with |- context [download_apk _ _ _ ?w0] =>
          pose proof (download_apk_keeps_tmpfiles rid w0) as Hd;
          destruct (download_apk server repo rid w0) as [[b|e] w'] end;
          cbn [snd] in Hd; intros H; injection H as <- <-;
          (split; [exact Hd|]); intros [E|E]; discriminate.
      * unfold bind at 1, print at 1, bind at 1, print at 1, bind.
        match goal with |- context [get_workflow_logs _ _ _ ?w0] =>
          pose proof (get_workflow_logs_keeps_tmpfiles rid w0) as Hd;
          pose proof (get_workflow_logs_keeps_cwd rid w0) as Hc;
          destruct (get_workflow_logs server repo rid w0) as [[u|e] w'] end;
          cbn [snd] in Hd, Hc; intros H; injection H as <- <-; auto.
    + intros H; injection H as <- <-. auto.
  - intros H; injection H as <- <-. auto.
Qed.

Lemma monitor_loop_leftovers limit k : forall attempt w r w',
  attempt + k = limit ->
  monitor_loop server repo limit attempt w = (r, w') ->
  tmpfiles w' = tmpfiles w /\ (r = Ok false -> cwd w' = cwd w).
Proof.
  induction k as [|k IH]; intros attempt w r w' Hk.
  - rewrite monitor_loop_timeout by lia. intros H; injection H as <- <-. auto.
  - destruct (poll_cycle server repo w) as [[[b|]|e] w1] eqn:Hc;
      destruct (poll_cycle_leftovers w _ _ Hc) as (Ht & Hd).
    + rewrite (monitor_loop_return server repo limit attempt w b w1) by (auto; lia).
      intros H; injection H as <- <-. split; [exact Ht|].
      intros E. apply Hd. right. congruence.
    + rewrite (monitor_loop_continue server repo limit attempt w w1) by (auto; lia).
      intros H. destruct (IH (S attempt) _ _ _ ltac:(lia) H) as (Ht' & Hd').
      cbn [tmpfiles cwd emit] in Ht', Hd'. split; [congruence|].
      intros E. rewrite (Hd' E). apply Hd. left. reflexivity.
    + rewrite (monitor_loop_raise server repo limit attempt w e w1) by (auto; lia).
      intros H; injection H as <- <-. split; [exact Ht|]. discriminate.
Qed.

End Leftovers.

(** X2.  [download_apk], [get_workflow_logs] and [monitor_build] leave no
    temporary file behind: the zip written for extraction or for the logs is
    unlinked however the call ends, also when it ends in an exception. *)
Theorem temporary_files_are_removed
  (server : nat -> endpoint -> http_result) (repo : string) (run_id : json)
  (w : world) :
  tmpfiles (snd (download_apk server repo run_id w)) = tmpfiles w /\
  tmpfiles (snd (get_workflow_logs server repo run_id w)) = tmpfiles w /\
  tmpfiles (snd (monitor_build server repo w)) = tmpfiles w.
Proof.
  split; [apply download_apk_keeps_tmpfiles|].
  split; [apply get_workflow_logs_keeps_tmpfiles|].
  rewrite monitor_build_enter.
  destruct (monitor_loop server repo max_attempts 0 (emit (Print MsgMonitoring) w))
    as [r w'] eqn:E.
  apply (monitor_loop_leftovers server repo max_attempts max_attempts 0 _ _ _ eq_refl) in E.
  exact (proj1 E).
Qed.

(** X3.  A [monitor_build] that returns [False], for a failed build or for
    a time-out, leaves the tree under the current directory exactly as it
    found it: only the success branch writes files. *)
Theorem failed_build_touches_no_file
  (server : nat -> endpoint -> http_result) (repo : string) (w : world) :
  fst (monitor_build server repo w) = Ok false ->
  cwd (snd (monitor_build server repo w)) = cwd w.
Proof.
  rewrite monitor_build_enter.
  destruct (monitor_loop server repo max_attempts 0 (emit (Print MsgMonitoring) w))
    as [r w'] eqn:E.
  apply (monitor_loop_leftovers server repo max_attempts max_attempts 0 _ _ _ eq_refl) in E.
  cbn [fst snd]. intros H. exact (proj2 E H).
Qed.

Lemma failed_build_touches_no_file_witness :
  cwd (snd (monitor_build Scenario.fails "app" Scenario.stale_world)) =
  cwd Scenario.stale_world.
Proof.
  apply (failed_build_touches_no_file Scenario.fails "app" Scenario.stale_world).
  vm_compute. reflexivity.
Defined.

(* ===================================================================== *)
(** ** Choosing the artifact                                              *)
(* ===================================================================== *)

Lemma find_artifact_none items :
  Forall other_artifact items -> find_artifact items = Ok JNull.
Proof.
  induction 1 as [|a items (n & Hn & He) _ IH]; cbn [find_artifact];
    [reflexivity|].
  rewrite Hn, He. exact IH.
Qed.

(** The loop stops at the first artifact called [app-debug]; what follows it
    in the list is not looked at. *)
Lemma find_artifact_first before a name after :
  Forall other_artifact before ->
  getitem a "name" = Ok name -> eq_str name "app-debug" = true ->
  find_artifact (before ++ a :: after) = Ok a.
Proof.
  intros Hb Hn He. induction Hb as [|b before (n & Hbn & Hbe) _ IH];
    cbn [find_artifact app].
  - rewrite Hn, He. reflexivity.
  - rewrite Hbn, Hbe. exact IH.
Qed.

Lemma getitem_truthy a key x : getitem a key = Ok x -> truthy a = true.
Proof.
  destruct a as [| | | | |fields]; try discriminate.
  destruct fields; [discriminate | reflexivity].
Qed.

(** X4.  When the artifact listing is answered 200 and none of the artifacts
    it lists is called [app-debug] (the list may be empty), [download_apk]
    prints that the artifact was not found and returns [False]; it has sent
    the listing request only, and has written nothing. *)
Theorem missing_artifact_is_not_downloaded
  (server : nat -> endpoint -> http_result) (repo : string) (run_id : json)
  (w : world) (r : response) (body artifacts : json) (items : list json) :
  server (requests_sent w) (ArtifactsUrl repo run_id) = Response r ->
  status_code r = 200%Z ->
  json_body r = Some body ->
  getitem body "artifacts" = Ok artifacts ->
  iterate artifacts = Ok items ->
  Forall other_artifact items ->
  download_apk server repo run_id w =
  (Ok false,
   emit (Print MsgArtifactNotFound) (emit (Request (ArtifactsUrl repo run_id)) w)).
Proof.
  intros Hs H200 Hb Ha Hi Hf. rewrite download_apk_unfold.
  unfold bind at 1, requests_get at 1. rewrite Hs, H200. cbn [negb Z.eqb Pos.eqb].
  unfold bind at 1, response_json. rewrite Hb. unfold ret at 1.
  unfold bind at 1, lift at 1. rewrite Ha.
  unfold bind at 1, lift at 1. rewrite Hi.
  unfold bind at 1, lift at 1. rewrite (find_artifact_none items Hf).
  reflexivity.
Qed.

Lemma missing_artifact_is_not_downloaded_witness :
  download_apk Scenario.reports_only "app" (JNum 42) Scenario.world0 =
  (Ok false,
   emit (Print MsgArtifactNotFound)
        (emit (Request (ArtifactsUrl "app" (JNum 42))) Scenario.world0)).
Proof.
  eapply (missing_artifact_is_not_downloaded Scenario.reports_only "app" (JNum 42)
            Scenario.world0).
  - reflexivity.
  - reflexivity.
  - reflexivity.
  - reflexivity.
  - reflexivity.
  - repeat constructor. exists (JStr "lint-report"). split; reflexivity.
Defined.

(** X5.  [download_apk] asks for the archive of the first listed artifact
    called [app-debug], and for no other: artifacts listed before it are
    skipped, whatever comes after it in the list is not examined, and after
    the listing request and that download request no further request is
    sent. *)
Theorem first_app_debug_artifact_is_downloaded
  (server : nat -> endpoint -> http_result) (repo : string) (run_id : json)
  (w : world) (r : response) (body artifacts : json)
  (before after : list json) (a name url : json) :
  server (requests_sent w) (ArtifactsUrl repo run_id) = Response r ->
  status_code r = 200%Z ->
  json_body r = Some body ->
  getitem body "artifacts" = Ok artifacts ->
  iterate artifacts = Ok (before ++ a :: after)%list ->
  Forall other_artifact before ->
  getitem a "name" = Ok name ->
  eq_str name "app-debug" = true ->
  getitem a "archive_download_url" = Ok url ->
  exists rest,
    trace (snd (download_apk server repo run_id w)) =
      (trace w ++ Request (ArtifactsUrl repo run_id) ::
                  Request (DownloadUrl url) :: rest)%list /\
    Forall (fun e => is_request e = false) rest.
Proof.
  intros Hs H200 Hb Ha Hi Hf Hn He Hu. rewrite download_apk_unfold.
  unfold bind at 1, requests_get at 1. rewrite Hs, H200. cbn [negb Z.eqb Pos.eqb].
  unfold bind at 1, response_json. rewrite Hb. unfold ret at 1.
  unfold bind at 1, lift at 1. rewrite Ha.
  unfold bind at 1, lift at 1. rewrite Hi.
  unfold bind at 1, lift at 1.
  rewrite (find_artifact_first before a name after Hf Hn He).
  rewrite (getitem_truthy a _ _ Hn). cbn [negb].
  unfold bind at 1, lift at 1. rewrite Hu.
  set (w1 := emit (Request (ArtifactsUrl repo run_id)) w).
  match goal with
  | |- context [bind (requests_get server (DownloadUrl url)) ?k] =>
      assert (E : forall r2, emits (fun e => is_request e = false) (k r2))
  end.
  { intros r2. unfold extract_and_find. emits_calc. }
  unfold bind at 1, requests_get at 1.
  destruct (server (requests_sent w1) (DownloadUrl url)) as [|r2].
  - exists []. split; [|constructor]. cbn [snd]. unfold w1.
    rewrite !trace_emit. app_norm.
  - destruct (E r2 (emit (Request (DownloadUrl url)) w1)) as (rest & Ht & Hq).
    exists rest. split; [|exact Hq]. rewrite Ht. unfold w1.
    rewrite !trace_emit. app_norm.
Qed.

Lemma first_app_debug_artifact_is_downloaded_witness :
  exists rest,
    trace (snd (download_apk Scenario.crowded "app" (JNum 42) Scenario.world0)) =
      Request (ArtifactsUrl "app" (JNum 42)) ::
      Request (DownloadUrl (JStr "https://api.github.com/zip/3")) :: rest /\
    Forall (fun e => is_request e = false) rest.
Proof.
  eapply (first_app_debug_artifact_is_downloaded Scenario.crowded "app" (JNum 42)
            Scenario.world0 Scenario.crowded_listing _ _
            [JObj [("id", JNum 1); ("name", JStr "lint-report");
                   ("archive_download_url", JStr "https://api.github.com/zip/1")];
             JObj [("id", JNum 2); ("name", JStr "app-release");
                   ("archive_download_url", JStr "https://api.github.com/zip/2")]]
            [JObj [("id", JNum 4); ("name", JStr "app-debug");
                   ("archive_download_url", JStr "https://api.github.com/zip/4")];
             JNum 5]
            (JObj [("id", JNum 3); ("name", JStr "app-debug");
                   ("archive_download_url", JStr "https://api.github.com/zip/3")])).
  - reflexivity.
  - reflexivity.
  - reflexivity.
  - reflexivity.
  - reflexivity.
  - repeat constructor; eexists; split; reflexivity.
  - reflexivity.
  - reflexivity.
  - reflexivity.
Defined.

(** X6.  When the archive of the selected artifact is answered with a status
    other than 200, [download_apk] prints that the download failed and
    returns [False]: nothing is written to a temporary file or to the tree. *)
Theorem refused_download_writes_nothing
  (server : nat -> endpoint -> http_result) (repo : string) (run_id : json)
  (w : world) (r r2 : response) (url : json) :
  server (requests_sent w) (ArtifactsUrl repo run_id) = Response r ->
  listing_selects r url ->
  server (S (requests_sent w)) (DownloadUrl url) = Response r2 ->
  status_code r2 <> 200%Z ->
  download_apk server repo run_id w =
  (Ok false,
   emit (Print MsgApkDownloadFailed)
        (emit (Request (DownloadUrl url))
              (emit (Request (ArtifactsUrl repo run_id)) w))).
Proof.
  intros Hs (H200 & body & arts & items & apk & Hb & Ha & Hi & Hf & Ht & Hu) Hs2 H2.
  rewrite download_apk_unfold.
  unfold bind at 1, requests_get at 1. rewrite Hs, H200. cbn [negb Z.eqb Pos.eqb].
  unfold bind at 1, response_json. rewrite Hb. unfold ret at 1.
  unfold bind at 1, lift at 1. rewrite Ha.
  unfold bind at 1, lift at 1. rewrite Hi.
  unfold bind at 1, lift at 1. rewrite Hf, Ht. cbn [negb].
  unfold bind at 1, lift at 1. rewrite Hu.
  unfold bind at 1, requests_get at 1.
  rewrite requests_sent_emit. cbn [is_request]. rewrite Nat.add_1_r, Hs2.
  destruct (status_code r2 =? 200)%Z eqn:E; [apply Z.eqb_eq in E; contradiction|].
  reflexivity.
Qed.

Lemma refused_download_writes_nothing_witness :
  download_apk Scenario.expired "app" (JNum 42) Scenario.stale_world =
  (Ok false,
   emit (Print MsgApkDownloadFailed)
        (emit (Request (DownloadUrl (JStr "https://api.github.com/zip/11")))
              (emit (Request (ArtifactsUrl "app" (JNum 42))) Scenario.stale_world))).
Proof.
  eapply (refused_download_writes_nothing Scenario.expired "app" (JNum 42)
            Scenario.stale_world).
  - reflexivity.
  - split; [reflexivity|]. do 4 eexists. repeat split; reflexivity.
  - reflexivity.
  - simpl. discriminate.
Defined.

(* ===================================================================== *)
(** ** Showing the logs                                                   *)
(* ===================================================================== *)

Lemma show_logs_prints members names : forall w,
  (forall name, In name names -> endswith name ".txt" = true ->
                readable members name) ->
  exists w',
    for_each names (show_log members) w = (Ok tt, w') /\
    trace w' = (trace w ++ log_lines members names)%list /\
    tmpfiles w' = tmpfiles w /\ next_tmp w' = next_tmp w /\ cwd w' = cwd w.
Proof.
  induction names as [|name rest IH]; intros w Hr.
  - exists w. cbn [for_each log_lines flat_map]. rewrite app_nil_r.
    repeat split; reflexivity.
  - cbn [for_each]. unfold bind at 1, show_log at 1.
    assert (Hrest : forall n, In n rest -> endswith n ".txt" = true ->
                              readable members n).
    { intros n Hn. apply Hr. right. exact Hn. }
    unfold log_lines. cbn [flat_map]. fold (log_lines members rest).
    destruct (endswith name ".txt") eqn:E.
    + destruct (Hr name (or_introl eq_refl) E) as (raw & Hread & Hdec).
      unfold log_text. rewrite Hread.
      unfold bind, lift, print. rewrite Hdec.
      destruct (IH (emit (Print (MsgLogContent raw))
                         (emit (Print (MsgLogName name)) w)) Hrest)
        as (w' & Hf & Ht & Hm & Hn & Hc).
      exists w'. split; [exact Hf|]. split; [|auto].
      rewrite Ht, !trace_emit. app_norm.
    + unfold ret at 1. destruct (IH w Hrest) as (w' & Hf & Ht & Hm & Hn & Hc).
      exists w'. auto.
Qed.

(** X7.  When the log archive is served with status 200 and every member
    whose name ends in [.txt] can be read and is UTF-8, [get_workflow_logs]
    prints, for each such member in the order of the archive, its name and
    then its whole text, and nothing else; members with other names are not
    read, so a damaged one does no harm.  The tree under the current directory
    and the temporary files are as before. *)
Theorem text_logs_are_printed_in_order
  (server : nat -> endpoint -> http_result) (repo : string) (run_id : json)
  (w : world) (r : response) (members : list member) :
  server (requests_sent w) (LogsUrl repo run_id) = Response r ->
  status_code r = 200%Z ->
  content r = ZipOf members ->
  (forall name, In name (namelist members) -> endswith name ".txt" = true ->
                readable members name) ->
  exists w',
    get_workflow_logs server repo run_id w = (Ok tt, w') /\
    trace w' =
      (trace w ++ Request (LogsUrl repo run_id) ::
                  log_lines members (namelist members))%list /\
    cwd w' = cwd w /\ tmpfiles w' = tmpfiles w.
Proof.
  intros Hs H200 Hc Hr.
  destruct r as [sc jb ct]. cbn [status_code content] in *. subst sc ct.
  unfold get_workflow_logs, bind at 1, requests_get. rewrite Hs.
  cbn [status_code content Z.eqb Pos.eqb].
  set (w1 := emit (Request (LogsUrl repo run_id)) w).
  unfold bind at 1, named_temporary_file.
  set (w0 := {| trace := trace w1;
                tmpfiles := (next_tmp w1, ZipOf members) :: tmpfiles w1;
                next_tmp := S (next_tmp w1); cwd := cwd w1 |}).
  destruct (show_logs_prints members (namelist members) w0 Hr)
    as (w' & Hf & Ht & Hm & Hn & Hd).
  unfold try_finally, bind at 1, ZipFile.
  replace (tmp_lookup (next_tmp w1) (tmpfiles w0)) with (Some (ZipOf members))
    by (unfold w0; cbn [tmpfiles tmp_lookup]; rewrite Nat.eqb_refl; reflexivity).
  rewrite Hf. unfold unlink. rewrite Hm.
  replace (tmp_lookup (next_tmp w1) (tmpfiles w0)) with (Some (ZipOf members))
    by (unfold w0; cbn [tmpfiles tmp_lookup]; rewrite Nat.eqb_refl; reflexivity).
  eexists. split; [reflexivity|]. cbn [trace cwd tmpfiles].
  rewrite Ht, Hd. unfold w0. cbn [trace cwd tmpfiles tmp_remove].
  rewrite Nat.eqb_refl. unfold w1. rewrite trace_emit.
  split; [app_norm|]. split; reflexivity.
Qed.

Lemma text_logs_are_printed_in_order_witness :
  exists w',
    get_workflow_logs (fun _ _ => Scenario.zip_response Scenario.mixed_logs)
                      "app" (JNum 7) Scenario.stale_world = (Ok tt, w') /\
    trace w' =
      [Request (LogsUrl "app" (JNum 7));
       Print (MsgLogName "build/1_checkout.txt"); Print (MsgLogContent "checkout ok");
       Print (MsgLogName "build/2_gradle.txt");
       Print (MsgLogContent "FAILURE: Build failed")] /\
    cwd w' = cwd Scenario.stale_world.
Proof.
  destruct (text_logs_are_printed_in_order
              (fun _ _ => Scenario.zip_response Scenario.mixed_logs)
              "app" (JNum 7) Scenario.stale_world
              {| status_code := 200; json_body := None;
                 content := Scenario.mixed_logs |}
              [ {| filename := "build/1_checkout.txt"; body := Stored "checkout ok" |};
                {| filename := "build/system.bin"; body := Damaged None |};
                {| filename := "build/2_gradle.txt";
                   body := Stored "FAILURE: Build failed" |} ])
    as (w' & Hg & Ht & Hc & _).
  - reflexivity.
  - reflexivity.
  - reflexivity.
  - intros name [<-|[<-|[<-|[]]]] E; try discriminate E;
      eexists; split; reflexivity.
  - exists w'. split; [exact Hg|]. split; [exact Ht | exact Hc].
Defined.

(* ===================================================================== *)
(** ** An archive with an APK in it                                       *)
(* ===================================================================== *)

Lemma endswith_app s suffix : endswith (s ++ suffix) suffix = true.
Proof.
  induction s as [|c s IH].
  - cbn [append]. destruct suffix; cbn [endswith]; rewrite String.eqb_refl;
      reflexivity.
  - cbn [append endswith]. rewrite IH. apply orb_true_r.
Qed.

Lemma endswith_inv s suffix :
  endswith s suffix = true -> exists prefix, s = prefix ++ suffix.
Proof.
  induction s as [|c s IH]; cbn [endswith]; intros H.
  - rewrite orb_false_r in H. apply String.eqb_eq in H. exists "". exact H.
  - apply orb_true_iff in H. destruct H as [H|H].
    + apply String.eqb_eq in H. exists "". exact H.
    + destruct (IH H) as [prefix ->]. exists (String c prefix). reflexivity.
Qed.

(** A name ending in [.apk] is not the name of a directory member. *)
Lemma apk_name_is_no_dir name :
  endswith name ".apk" = true -> is_dir_name name = false.
Proof.
  intros H. destruct (endswith_inv _ _ H) as [prefix ->]. clear H.
  unfold is_dir_name. induction prefix as [|c prefix IH]; [reflexivity|].
  cbn [append endswith]. rewrite IH, orb_false_r. cbn [String.eqb].
  destruct (Ascii.eqb c "/"); [|reflexivity].
  destruct prefix; reflexivity.
Qed.

Lemma append_assoc (a b c : string) : ((a ++ b) ++ c = a ++ b ++ c)%string.
Proof. induction a as [|x a IH]; cbn [append]; [|rewrite IH]; reflexivity. Qed.

Lemma split_slash_nonempty s cur : split_slash s cur <> [].
Proof.
  revert cur. induction s as [|c s IH]; intros cur; cbn [split_slash].
  - discriminate.
  - destruct (Ascii.eqb c "/"); [discriminate | apply IH].
Qed.

(** The last component of a name ending in [.apk] ends in [.apk]. *)
Lemma split_slash_apk prefix : forall cur,
  exists base, last (split_slash (prefix ++ ".apk") cur) "" = base ++ ".apk".
Proof.
  induction prefix as [|c prefix IH]; intros cur.
  - exists cur. cbn. rewrite !append_assoc. reflexivity.
  - cbn [append split_slash]. destruct (Ascii.eqb c "/").
    + destruct (IH "") as [base Hb]. exists base. rewrite <- Hb.
      pose proof (split_slash_nonempty (prefix ++ ".apk") "") as Hn.
      destruct (split_slash (prefix ++ ".apk") ""); [contradiction | reflexivity].
    + apply IH.
Qed.

Lemma last_filter {A} (keep : A -> bool) (l : list A) (d : A) :
  l <> [] -> keep (last l d) = true -> last (filter keep l) d = last l d.
Proof.
  intros Hn Hk. destruct (exists_last Hn) as (l' & a & ->).
  rewrite last_last in *. rewrite filter_app. cbn [filter]. rewrite Hk.
  apply last_last.
Qed.

Lemma arc_components_apk name :
  endswith name ".apk" = true ->
  endswith (last (arc_components name) "") ".apk" = true.
Proof.
  intros H. destruct (endswith_inv _ _ H) as [prefix ->]. clear H.
  destruct (split_slash_apk prefix "") as [base Hb].
  unfold arc_components. rewrite last_filter.
  - rewrite Hb. apply endswith_app.
  - apply split_slash_nonempty.
  - rewrite Hb. clear Hb.
    destruct base as [|a [|b base]]; cbn [append String.eqb];
      repeat match goal with
             | |- context [Ascii.eqb ?x ?y] => destruct (Ascii.eqb x y)
             end;
      try reflexivity; destruct base; reflexivity.
Qed.

Lemma set_entry_In name x d : In (name, x) (set_entry name x d).
Proof.
  induction d as [|[n y] rest IH]; cbn [set_entry]; [left; reflexivity|].
  destruct (n =? name) eqn:E.
  - apply String.eqb_eq in E. subst n. left. reflexivity.
  - right. exact IH.
Qed.

(** Writing a file leaves a file with the last component as its name. *)
Lemma alter_at_file leaf :
  (forall o y, leaf o = Some y -> exists data, y = File data) ->
  forall path d d',
    alter_at path leaf d = Some d' -> has_file (last path "") d'.
Proof.
  intros Hleaf path. induction path as [|name rest IH]; intros d d' Ha;
    [discriminate|].
  cbn [alter_at] in Ha. destruct rest as [|next rest].
  - destruct (leaf (lookup name d)) as [y|] eqn:El; [|discriminate].
    injection Ha as <-. destruct (Hleaf _ _ El) as [data ->].
    eapply has_file_here. apply set_entry_In.
  - change (last (name :: next :: rest) "") with (last (next :: rest) "").
    destruct (lookup name d) as [[data|sub]|] eqn:El; [discriminate| |].
    + destruct (alter_at (next :: rest) leaf sub) as [sub'|] eqn:Es; [|discriminate].
      injection Ha as <-. eapply has_file_below; [apply set_entry_In|].
      eapply IH; eauto.
    + destruct (alter_at (next :: rest) leaf []) as [sub'|] eqn:Es; [|discriminate].
      injection Ha as <-. eapply has_file_below; [apply set_entry_In|].
      eapply IH; eauto.
Qed.

Lemma write_file_has path data d d' :
  write_file path data d = Some d' -> has_file (last path "") d'.
Proof.
  apply alter_at_file. intros o y H.
  destruct o as [[old|sub]|]; try discriminate; injection H as <-; eauto.
Qed.

Lemma extract_member_has m d d' :
  extract_member m d = (Ok tt, d') ->
  is_dir_name (filename m) = false ->
  has_file (last (arc_components (filename m)) "") d'.
Proof.
  unfold extract_member. intros H Hd. rewrite Hd in H.
  destruct (if exists_path _ d then Some d else make_dirs _ d) as [d1|];
    [|discriminate].
  destruct (body m) as [data|[written|]].
  - destruct (write_file _ data d1) as [d2|] eqn:E; [|discriminate].
    injection H as <-. eapply write_file_has; eauto.
  - destruct (write_file _ written d1); discriminate.
  - discriminate.
Qed.

Lemma getinfo_filename name members m :
  getinfo name members = Some m -> filename m = name.
Proof.
  induction members as [|x rest IH]; cbn [getinfo]; [discriminate|].
  destruct (getinfo name rest) as [m'|].
  - intros H; injection H as <-. apply IH. reflexivity.
  - destruct (filename x =? name) eqn:E; [|discriminate].
    intros H; injection H as <-. apply String.eqb_eq. exact E.
Qed.

(** After an extraction that went through, every file member has left a
    file called by the last component of its name. *)
Lemma extract_names_has members names : forall d d',
  extract_names members names d = (Ok tt, d') ->
  forall name, In name names -> is_dir_name name = false ->
               has_file (last (arc_components name) "") d'.
Proof.
  induction names as [|n rest IH]; intros d d' H name Hin Hd; [destruct Hin|].
  cbn [extract_names] in H.
  destruct (getinfo n members) as [m|] eqn:Eg; [|discriminate].
  destruct (extract_member m d) as [[[]|e] d1] eqn:Em; [|discriminate].
  destruct Hin as [->|Hin].
  - eapply extract_names_keeps; [exact H|].
    pose proof (getinfo_filename _ _ _ Eg) as Hf.
    rewrite <- Hf in Hd |- *. eapply extract_member_has; eauto.
  - eapply IH; eauto.
Qed.

(** X8.  When the archive served for the artifact has a member whose name
    ends in [.apk], and it is extracted without error, [download_apk] returns
    [True]: the scan of the tree cannot miss the file just extracted. *)
Theorem extracted_apk_is_found
  (server : nat -> endpoint -> http_result) (repo : string) (run_id : json)
  (w : world) (r r2 : response) (url : json) (members : list member)
  (m : member) (d' : dir) :
  server (requests_sent w) (ArtifactsUrl repo run_id) = Response r ->
  listing_selects r url ->
  server (S (requests_sent w)) (DownloadUrl url) = Response r2 ->
  status_code r2 = 200%Z ->
  content r2 = ZipOf members ->
  In m members ->
  endswith (filename m) ".apk" = true ->
  extractall members (cwd w) = (Ok tt, d') ->
  exists w',
    download_apk server repo run_id w = (Ok true, w') /\
    cwd w' = d' /\
    has_file (last (arc_components (filename m)) "") d'.
Proof.
  intros Hs Hl Hs2 H2 Hc Hm He Hx.
  destruct (download_apk_extracts server repo run_id w r url r2 Hs Hl Hs2 H2)
    as (w' & Hd & Hw).
  rewrite Hc in Hd, Hw. cbn [open_and_extract] in Hd, Hw. rewrite Hx in Hd, Hw.
  assert (Hf : has_file (last (arc_components (filename m)) "") d').
  { eapply extract_names_has; [exact Hx | | apply apk_name_is_no_dir; exact He].
    unfold namelist. apply in_map. exact Hm. }
  assert (Hscan : first_apk (walk "." (Dir d')) <> None).
  { apply scan_finds_apk. eexists. split; [|exact Hf].
    apply arc_components_apk. exact He. }
  destruct (first_apk (walk "." (Dir d'))) as [p|]; [|contradiction].
  exists w'. split; [exact Hd|]. split; [rewrite Hw; reflexivity | exact Hf].
Qed.

Lemma extracted_apk_is_found_witness :
  exists w',
    download_apk (Scenario.serving Scenario.apk_zip) "app" (JNum 42)
                 Scenario.world0 = (Ok true, w') /\
    cwd w' = [("app-debug.apk", File "PK-apk-bytes")].
Proof.
  destruct (extracted_apk_is_found
              (Scenario.serving Scenario.apk_zip) "app" (JNum 42) Scenario.world0
              {| status_code := 200;
                 json_body := Some (JObj [("total_count", JNum 1);
                   ("artifacts",
                    JArr [JObj [("id", JNum 11); ("name", JStr "app-debug");
                                ("archive_download_url",
                                 JStr "https://api.github.com/zip/11")]])]);
                 content := NotAZip |}
              {| status_code := 200; json_body := None;
                 content := Scenario.apk_zip |}
              (JStr "https://api.github.com/zip/11")
              [ {| filename := "app-debug.apk"; body := Stored "PK-apk-bytes" |} ]
              {| filename := "app-debug.apk"; body := Stored "PK-apk-bytes" |}
              [("app-debug.apk", File "PK-apk-bytes")])
    as (w' & Hd & Hc & _).
  - reflexivity.
  - split; [reflexivity|]. do 4 eexists. repeat split; reflexivity.
  - reflexivity.
  - reflexivity.
  - reflexivity.
  - left. reflexivity.
  - reflexivity.
  - reflexivity.
  - exists w'. split; [exact Hd | exact Hc].
Defined.

(* ===================================================================== *)
(** ** Committing and pushing                                             *)
(* ===================================================================== *)

Section SessionBasics.

Import Session.

Lemma spawns_record a s :
  spawns (record a s) = spawns s + (if is_spawn a then 1 else 0).
Proof.
  unfold spawns, record; cbn [journal].
  rewrite filter_app, length_app. cbn [filter].
  destruct (is_spawn a); reflexivity.
Qed.

Lemma spawns_set_tree d s : spawns (set_tree d s) = spawns s.
Proof. reflexivity. Qed.

Lemma spawned_argv_app xs ys :
  spawned_argv (xs ++ ys) = (spawned_argv xs ++ spawned_argv ys)%list.
Proof.
  induction xs as [|[argv|data|l|p|a] xs IH]; cbn [app spawned_argv];
    rewrite ?IH; reflexivity.
Qed.

(** A [try] whose handlers cover every exception and only print and return
    always returns. *)
Lemma catch_returns {A} (body : Sh A) handler :
  (forall e, exists h, handler e = Some h /\
                       forall s, exists a s', h s = (Done a, s')) ->
  forall s, exists a s', catch body handler s = (Done a, s').
Proof.
  intros H s. unfold catch. destruct (body s) as [[a|e] s1]; [eauto|].
  destruct (H e) as (h & -> & Hh). apply Hh.
Qed.

End SessionBasics.

(** X9.  [commit_and_push] never raises: whatever git does, also when it
    cannot be started, when its output cannot be decoded or when an entry
    of the configuration is missing, a boolean is returned ([except
    Exception] catches every exception of the model). *)
Theorem commit_and_push_always_returns
  (git : nat -> list string -> dir -> Session.spawned * dir)
  (render : json -> string) (lower : string -> string)
  (timestamp repo_name : string) (s : Session.session) :
  exists b s',
    Session.commit_and_push git render lower timestamp repo_name s =
    (Session.Done b, s').
Proof.
  unfold Session.commit_and_push. unfold Session.bind at 1, Session.say at 1.
  apply catch_returns. intros e.
  destruct e as [e|rc|]; eexists; (split; [reflexivity|]); intros s0;
    unfold Session.bind, Session.say, Session.ret; eauto.
Qed.

Ltac session_unfold :=
  unfold Session.bind, Session.catch, Session.say, Session.ret, Session.throw,
    Session.subprocess_run, Session.subprocess_run_checked, Session.config_item,
    Session.argument, Session.suggest.

Ltac session_case git :=
  match goal with
  | |- context [git ?n ?a ?d] =>
      let o := fresh "o" in let d' := fresh "d" in
      destruct (git n a d) as [o d']; destruct o
  | |- context [if negb (?x =? 0)%Z then _ else _] => destruct (x =? 0)%Z eqn:?
  | |- context [if (?x =? 0)%Z then _ else _] => destruct (x =? 0)%Z eqn:?
  | |- context [if Blank.blank ?x then _ else _] => destruct (Blank.blank x) eqn:?
  | |- context [match assoc ?k ?c with _ => _ end] => destruct (assoc k c) eqn:?
  | |- context [if contains ?a ?b then _ else _] => destruct (contains a b)
  end.

Ltac session_run git :=
  session_unfold;
  repeat (cbn [fst snd negb Session.env Session.config Session.journal
               Session.record Session.set_tree cwd];
          session_case git).

Ltac script_step :=
  do 3 eexists;
  split; [reflexivity|];
  split; [cbn [Session.journal Session.record Session.set_tree];
          rewrite <- ?app_assoc; cbn [app]; reflexivity|];
  split; [reflexivity|];
  split; [reflexivity|];
  first [ intros H; discriminate H
        | intros _; left; reflexivity
        | intros _; right; reflexivity ].

(** X11.  The git commands [commit_and_push] runs are always the first [k]
    of one script of seven: add, status, commit, remote remove, remote add,
    branch, forced push.  It returns [True] only when it stopped after the
    status (nothing to commit) or ran all seven; the configuration is not
    changed. *)
Theorem commit_and_push_follows_script
  (git : nat -> list string -> dir -> Session.spawned * dir)
  (render : json -> string) (lower : string -> string)
  (timestamp repo_name : string) (s : Session.session) :
  exists k b s' acts,
    Session.commit_and_push git render lower timestamp repo_name s =
      (Session.Done b, s') /\
    Session.journal s' = (Session.journal s ++ acts)%list /\
    Session.config s' = Session.config s /\
    Session.spawned_argv acts =
      firstn k (Session.push_script render timestamp repo_name (Session.config s)) /\
    (b = true -> k = 2 \/ k = 7).
Proof.
  unfold Session.commit_and_push, Session.push_script, Session.configured.
  session_run git.
  all: first [ exists 0; script_step | exists 1; script_step
             | exists 2; script_step | exists 3; script_step
             | exists 4; script_step | exists 5; script_step
             | exists 6; script_step | exists 7; script_step ].
Qed.

Lemma spawns_say l s :
  Session.spawns (Session.record (Session.Say l) s) = Session.spawns s.
Proof. rewrite spawns_record. cbn. lia. Qed.

Lemma spawns_spawn argv s :
  Session.spawns (Session.record (Session.Spawn argv) s) = S (Session.spawns s).
Proof. rewrite spawns_record. cbn. lia. Qed.

Lemma spawns_post data s :
  Session.spawns (Session.record (Session.PostRepo data) s) = Session.spawns s.
Proof. rewrite spawns_record. cbn. lia. Qed.

Ltac session_norm :=
  repeat (cbn [fst snd negb Session.env Session.config Session.journal
               Session.record Session.set_tree cwd];
          rewrite ?spawns_set_tree, ?spawns_spawn, ?spawns_say).

(** X10.  When [git add] exits with 0 and [git status --porcelain] prints
    nothing but white space, [commit_and_push] returns [True] after these
    two commands: nothing is committed and nothing is pushed.  The exit
    status of [git status] is not looked at, so a status that failed without
    output counts as nothing to commit. *)
Theorem nothing_to_commit_is_success
  (git : nat -> list string -> dir -> Session.spawned * dir)
  (render : json -> string) (lower : string -> string)
  (timestamp repo_name : string) (s : Session.session)
  (p1 p2 : Session.completed_process) (d1 d2 : dir) :
  git (Session.spawns s) ["git"; "add"; "."] (cwd (Session.env s)) =
    (Session.Exited p1, d1) ->
  Session.returncode p1 = 0%Z ->
  git (S (Session.spawns s)) ["git"; "status"; "--porcelain"] d1 =
    (Session.Exited p2, d2) ->
  Blank.blank (Session.stdout p2) = true ->
  exists s',
    Session.commit_and_push git render lower timestamp repo_name s =
      (Session.Done true, s') /\
    Session.journal s' =
      (Session.journal s ++
       [Session.Say Session.SayCommitting;
        Session.Spawn ["git"; "add"; "."];
        Session.Spawn ["git"; "status"; "--porcelain"];
        Session.Say Session.SayNoChanges])%list /\
    cwd (Session.env s') = d2.
Proof.
  intros H1 Hrc H2 Hb.
  unfold Session.commit_and_push. session_unfold. session_norm.
  rewrite H1. session_norm. rewrite Hrc. cbn [Z.eqb negb]. session_norm.
  rewrite H2. session_norm. rewrite Hb. session_norm.
  eexists. split; [reflexivity|]. session_norm.
  split; [rewrite <- !app_assoc; reflexivity | reflexivity].
Qed.

Lemma nothing_to_commit_is_success_witness :
  exists s',
    Session.commit_and_push
      (fun n argv d =>
         (Session.Exited {| Session.returncode := Z.of_nat n;
                            Session.stdout := "";
                            Session.stderr := "fatal: not a git repository" |}, d))
      (fun _ => "") (fun text => text) "2024-05-01 10:00:00" "app"
      {| Session.env := Scenario.world0; Session.config := [];
         Session.journal := [] |} = (Session.Done true, s') /\
    Session.spawned_argv (Session.journal s') =
      [["git"; "add"; "."]; ["git"; "status"; "--porcelain"]].
Proof.
  destruct (nothing_to_commit_is_success
              (fun n argv d =>
                 (Session.Exited {| Session.returncode := Z.of_nat n;
                                    Session.stdout := "";
                                    Session.stderr := "fatal: not a git repository" |}, d))
              (fun _ => "") (fun text => text) "2024-05-01 10:00:00" "app"
              {| Session.env := Scenario.world0; Session.config := [];
                 Session.journal := [] |}
              {| Session.returncode := 0; Session.stdout := "";
                 Session.stderr := "fatal: not a git repository" |}
              {| Session.returncode := 1; Session.stdout := "";
                 Session.stderr := "fatal: not a git repository" |}
              [] [])
    as (s' & Hc & Hj & _).
  - reflexivity.
  - reflexivity.
  - reflexivity.
  - reflexivity.
  - exists s'. split; [exact Hc|]. rewrite Hj. reflexivity.
Defined.

(** X12.  When the tree has changes, [git add], [git commit] and
    [git remote add] exit with 0 and the configuration holds the token and
    the user name, [commit_and_push] runs all seven commands of its script
    and returns [True] exactly when the forced push exits with 0.  The exit
    statuses of [git remote remove origin] and of [git branch -M main] are
    not looked at. *)
Theorem forced_push_decides_the_result
  (git : nat -> list string -> dir -> Session.spawned * dir)
  (render : json -> string) (lower : string -> string)
  (timestamp repo_name : string) (s : Session.session)
  (token user : json)
  (p1 p2 p3 p4 p5 p6 p7 : Session.completed_process)
  (d1 d2 d3 d4 d5 d6 d7 : dir) :
  let n := Session.spawns s in
  let script :=
    Session.push_script render timestamp repo_name (Session.config s) in
  assoc "github_token" (Session.config s) = Some token ->
  assoc "github_username" (Session.config s) = Some user ->
  git n (nth 0 script []) (cwd (Session.env s)) = (Session.Exited p1, d1) ->
  Session.returncode p1 = 0%Z ->
  git (1 + n) (nth 1 script []) d1 = (Session.Exited p2, d2) ->
  Blank.blank (Session.stdout p2) = false ->
  git (2 + n) (nth 2 script []) d2 = (Session.Exited p3, d3) ->
  Session.returncode p3 = 0%Z ->
  git (3 + n) (nth 3 script []) d3 = (Session.Exited p4, d4) ->
  git (4 + n) (nth 4 script []) d4 = (Session.Exited p5, d5) ->
  Session.returncode p5 = 0%Z ->
  git (5 + n) (nth 5 script []) d5 = (Session.Exited p6, d6) ->
  git (6 + n) (nth 6 script []) d6 = (Session.Exited p7, d7) ->
  exists s',
    Session.commit_and_push git render lower timestamp repo_name s =
      (Session.Done (Session.returncode p7 =? 0)%Z, s') /\
    Session.spawned_argv (Session.journal s') =
      (Session.spawned_argv (Session.journal s) ++ script)%list /\
    cwd (Session.env s') = d7.
Proof.
  intros n script Ht Hu H1 R1 H2 B2 H3 R3 H4 H5 R5 H6 H7.
  subst n script. unfold Session.push_script, Session.configured in *.
  rewrite Ht, Hu in *. cbn [nth Nat.add] in *.
  unfold Session.commit_and_push. session_unfold. session_norm.
  rewrite H1. session_norm. rewrite R1. cbn [Z.eqb negb]. session_norm.
  rewrite H2. session_norm. rewrite B2. session_norm.
  rewrite H3. session_norm. rewrite R3. cbn [Z.eqb negb]. session_norm.
  rewrite Ht. session_norm. rewrite Hu. session_norm.
  rewrite H4. session_norm.
  rewrite H5. session_norm. rewrite R5. cbn [Z.eqb negb]. session_norm.
  rewrite H6. session_norm.
  rewrite H7. session_norm.
  destruct (Session.returncode p7 =? 0)%Z; cbn [negb]; session_norm.
  - eexists. split; [reflexivity|]. session_norm.
    split; [|reflexivity].
    rewrite !spawned_argv_app. cbn [Session.spawned_argv app].
    rewrite <- !app_assoc. reflexivity.
  - destruct (contains "remote rejected" (lower (Session.stderr p7)));
      [|destruct (contains "authentication failed" (lower (Session.stderr p7)));
        [|destruct (contains "repository not found" (lower (Session.stderr p7)))]];
      session_norm;
      (eexists; split; [reflexivity|]; session_norm;
       split; [|reflexivity];
       rewrite !spawned_argv_app; cbn [Session.spawned_argv app];
       rewrite <- !app_assoc; reflexivity).
Qed.

Lemma forced_push_decides_the_result_witness :
  exists s',
    Session.commit_and_push
      (fun n argv d =>
         (Session.Exited
            {| Session.returncode :=
                 if (n =? 3)%nat then 2 else if (n =? 5)%nat then 128 else 0;
               Session.stdout := if (n =? 1)%nat then " M app/build.gradle" else "";
               Session.stderr := "" |}, d))
      (fun _ => "") (fun text => text) "2024-05-01 10:00:00" "app"
      {| Session.env := Scenario.world0;
         Session.config := [("github_token", JStr "ghp_0"); ("github_username", JStr "alice")];
         Session.journal := [] |} = (Session.Done true, s') /\
    nth 4 (Session.spawned_argv (Session.journal s')) [] =
      ["git"; "remote"; "add"; "origin"; "https://ghp_0@github.com/alice/app.git"].
Proof.
  pose proof
    (forced_push_decides_the_result
       (fun n argv d =>
          (Session.Exited
             {| Session.returncode :=
                  if (n =? 3)%nat then 2 else if (n =? 5)%nat then 128 else 0;
                Session.stdout := if (n =? 1)%nat then " M app/build.gradle" else "";
                Session.stderr := "" |}, d))
       (fun _ => "") (fun text => text) "2024-05-01 10:00:00" "app"
       {| Session.env := Scenario.world0;
          Session.config := [("github_token", JStr "ghp_0"); ("github_username", JStr "alice")];
          Session.journal := [] |}
       (JStr "ghp_0") (JStr "alice")
       {| Session.returncode := 0; Session.stdout := ""; Session.stderr := "" |}
       {| Session.returncode := 0; Session.stdout := " M app/build.gradle";
          Session.stderr := "" |}
       {| Session.returncode := 0; Session.stdout := ""; Session.stderr := "" |}
       {| Session.returncode := 2; Session.stdout := ""; Session.stderr := "" |}
       {| Session.returncode := 0; Session.stdout := ""; Session.stderr := "" |}
       {| Session.returncode := 128; Session.stdout := ""; Session.stderr := "" |}
       {| Session.returncode := 0; Session.stdout := ""; Session.stderr := "" |}
       [] [] [] [] [] [] []
       eq_refl eq_refl eq_refl eq_refl eq_refl eq_refl eq_refl eq_refl eq_refl
       eq_refl eq_refl eq_refl eq_refl) as H.
  destruct H as (s' & Hc & Hj & _).
  exists s'. split; [exact Hc|]. rewrite Hj. reflexivity.
Defined.

Ltac init_case git :=
  match goal with
  | |- context [git ?n ?a ?d] =>
      let o := fresh "o" in let d' := fresh "d" in
      destruct (git n a d) as [o d']; destruct o
  | |- context [if (?x =? 0)%Z then _ else _] => destruct (x =? 0)%Z eqn:?
  | |- context [match assoc ?k ?c with _ => _ end] =>
      let v := fresh "v" in destruct (assoc k c) as [v|] eqn:?; [destruct v|]
  end.

Ltac init_run git :=
  unfold Session.subprocess_run_checked, Session.argument; session_unfold;
  repeat (cbn [fst snd negb Session.env Session.config Session.journal
               Session.record Session.set_tree cwd];
          init_case git).

Ltac init_end :=
  session_norm;
  do 3 eexists;
  split; [reflexivity|];
  split; [cbn [Session.journal Session.record Session.set_tree];
          rewrite <- ?app_assoc; cbn [app]; reflexivity|];
  split; [reflexivity|];
  split; [reflexivity|];
  split; [reflexivity|];
  repeat split;
  try reflexivity;
  try (let Hz := fresh in intros Hz; rewrite Hz in *; discriminate).

(** X13.  With a configuration that holds the user name and the e-mail
    address as strings, [init_git_repo] runs [git init],
    [git config user.name] and [git config user.email] in this order and
    stops at the first that does not exit with 0.  After three exits with 0
    it prints that the repository is initialised and returns [True]; after
    an exit with another status it prints the failure and returns [False],
    so the [CalledProcessError] does not reach the caller, and no later
    command is run; a command that cannot be run raises.  The tree is as
    the last command run left it. *)
Theorem init_git_repo_stops_at_first_failure
  (git : nat -> list string -> dir -> Session.spawned * dir)
  (s : Session.session) (user_name user_email : string) :
  assoc "github_username" (Session.config s) = Some (JStr user_name) ->
  assoc "email" (Session.config s) = Some (JStr user_email) ->
  exists r s' acts,
    Session.init_git_repo git s = (r, s') /\
    Session.journal s' = (Session.journal s ++ acts)%list /\
    Session.config s' = Session.config s /\
    match
      Session.run_until_failure git (Session.spawns s) (cwd (Session.env s))
        [ ["git"; "init"];
          ["git"; "config"; "user.name"; user_name];
          ["git"; "config"; "user.email"; user_email] ]
    with
    | (ran, d, e) =>
        Session.spawned_argv acts = ran /\
        cwd (Session.env s') = d /\
        match e with
        | Session.AllExited =>
            r = Session.Done true /\
            last acts (Session.Say Session.SayInitializing) =
              Session.Say Session.SayInitialized
        | Session.ExitedWith rc =>
            r = Session.Done false /\
            rc <> 0%Z /\
            last acts (Session.Say Session.SayInitializing) =
              Session.Say
                (Session.SayInitFailed (Session.CalledProcessError rc))
        | Session.NotRun x => r = Session.Fails (Session.Py x)
        end
    end.
Proof.
  intros Hu He.
  unfold Session.init_git_repo, Session.subprocess_run_checked,
    Session.argument.
  session_unfold. cbn [Session.run_until_failure]. session_norm.
  destruct (git (Session.spawns s) ["git"; "init"] (cwd (Session.env s)))
    as [[x|p1] d1]; [init_end|].
  destruct (Session.returncode p1 =? 0)%Z eqn:R1; [|init_end].
  session_norm. rewrite Hu. session_norm.
  destruct (git (S (Session.spawns s))
              ["git"; "config"; "user.name"; user_name] d1)
    as [[x|p2] d2]; [init_end|].
  destruct (Session.returncode p2 =? 0)%Z eqn:R2; [|init_end].
  session_norm. rewrite He. session_norm.
  destruct (git (S (S (Session.spawns s)))
              ["git"; "config"; "user.email"; user_email] d2)
    as [[x|p3] d3]; [init_end|].
  destruct (Session.returncode p3 =? 0)%Z eqn:R3; init_end.
Qed.

Lemma init_git_repo_stops_at_first_failure_witness :
  exists s',
    Session.init_git_repo (Desk.git_refuses 1) Desk.settled =
      (Session.Done false, s') /\
    Session.spawned_argv (Session.journal s') =
      [["git"; "init"]; ["git"; "config"; "user.name"; "alice"]] /\
    cwd (Session.env s') = [(".git", Dir [])].
Proof.
  destruct (init_git_repo_stops_at_first_failure
              (Desk.git_refuses 1) Desk.settled "alice" "alice@example.org"
              eq_refl eq_refl)
    as (r & s' & acts & Hi & Hj & _ & Hr & Hd & -> & _).
  exists s'. split; [exact Hi|]. split; [|exact Hd].
  rewrite Hj. exact Hr.
Defined.

(** X14.  Only the exit status of a command is caught by [init_git_repo]:
    when [git init] went well and the configuration has no
    [github_username], the [KeyError] reaches the caller, and it does so
    after the repository has been initialised (nothing undoes [git init],
    and neither line of the result is printed). *)
Theorem init_git_repo_raises_after_git_init
  (git : nat -> list string -> dir -> Session.spawned * dir)
  (s : Session.session) (p : Session.completed_process) (d : dir) :
  git (Session.spawns s) ["git"; "init"] (cwd (Session.env s)) =
    (Session.Exited p, d) ->
  Session.returncode p = 0%Z ->
  assoc "github_username" (Session.config s) = None ->
  exists s',
    Session.init_git_repo git s =
      (Session.Fails (Session.Py (KeyError "github_username")), s') /\
    Session.journal s' =
      (Session.journal s ++
       [Session.Say Session.SayInitializing; Session.Spawn ["git"; "init"]])%list /\
    cwd (Session.env s') = d.
Proof.
  intros H1 Hrc Hu.
  unfold Session.init_git_repo, Session.subprocess_run_checked. session_unfold.
  session_norm. rewrite H1. session_norm. rewrite Hrc. cbn [Z.eqb].
  session_norm. rewrite Hu.
  eexists. split; [reflexivity|]. session_norm.
  split; [rewrite <- !app_assoc; reflexivity | reflexivity].
Qed.

Lemma init_git_repo_raises_after_git_init_witness :
  exists s',
    Session.init_git_repo
      (fun _ _ d =>
         (Session.Exited {| Session.returncode := 0; Session.stdout := "";
                            Session.stderr := "" |},
          (".git", Dir []) :: d))
      {| Session.env := Scenario.world0; Session.config := [];
         Session.journal := [] |} =
      (Session.Fails (Session.Py (KeyError "github_username")), s') /\
    cwd (Session.env s') = [(".git", Dir [])].
Proof.
  destruct (init_git_repo_raises_after_git_init
              (fun _ _ d =>
                 (Session.Exited {| Session.returncode := 0; Session.stdout := "";
                                    Session.stderr := "" |},
                  (".git", Dir []) :: d))
              {| Session.env := Scenario.world0; Session.config := [];
                 Session.journal := [] |}
              {| Session.returncode := 0; Session.stdout := "";
                 Session.stderr := "" |}
              [(".git", Dir [])] eq_refl eq_refl eq_refl)
    as (s' & Hc & _ & Hd).
  exists s'. split; [exact Hc | exact Hd].
Defined.

Lemma posts_record a s :
  Session.posts (Session.record a s) =
  Session.posts s + (if Session.is_post a then 1 else 0).
Proof.
  unfold Session.posts, Session.record. cbn [Session.journal].
  rewrite filter_app, length_app. destruct a; reflexivity.
Qed.

Lemma posts_say l s :
  Session.posts (Session.record (Session.Say l) s) = Session.posts s.
Proof. rewrite posts_record. cbn. lia. Qed.

Lemma posted_data_app xs ys :
  Session.posted_data (xs ++ ys) =
  (Session.posted_data xs ++ Session.posted_data ys)%list.
Proof.
  induction xs as [|[argv|data|l|p|a] xs IH]; cbn [app Session.posted_data];
    rewrite ?IH; reflexivity.
Qed.

Ltac text_line :=
  let text := fresh "text" in
  let Hr := fresh "Hr" in let Hl := fresh "Hl" in
  let a' := fresh "a" in let Ha := fresh "Ha" in
  let N1 := fresh "N" in let N2 := fresh "N" in let N3 := fresh "N" in
  let Hj' := fresh "Hj" in let Ht := fresh "Ht" in
  intros text; split;
  [ intros [Hr Hl];
    first [ discriminate Hr
          | cbn [last] in Hl;
            first [ discriminate Hl
                  | injection Hl as <-; eexists; repeat split;
                    first [reflexivity | assumption] ] ]
  | intros (a' & Ha & N1 & N2 & N3 & Hj' & Ht);
    first [ discriminate Ha
          | injection Ha as <-;
            first [ lia | congruence | subst; split; reflexivity ] ] ].

Ltac repo_done :=
  do 3 eexists; split; [reflexivity|];
  split; [cbn [Session.journal Session.record];
          rewrite <- ?app_assoc; cbn [app]; reflexivity|];
  split; [reflexivity|]; split; [reflexivity|];
  split; [text_line|].

(** X15.  [create_github_repo] sends one post, with the name of the
    repository, and runs no process.  It returns [True] exactly when the
    answer has status 201, or status 422 with a JSON body whose text holds
    'already exists'.  It raises exactly when there is no answer, or when
    the body of a 422 answer is no JSON.  The last line it prints is the
    text of the answer exactly when the status is none of 201, 422 and 403
    and the body is no JSON, and the result is [False] then. *)
Theorem create_github_repo_outcome
  (github : nat -> json -> Session.posted) (render : json -> string)
  (repo_name : string) (s : Session.session) :
  let reply := github (Session.posts s) (Session.repo_request repo_name) in
  exists r s' acts,
    Session.create_github_repo github render repo_name s = (r, s') /\
    Session.journal s' = (Session.journal s ++ acts)%list /\
    Session.posted_data acts = [Session.repo_request repo_name] /\
    Session.spawned_argv acts = [] /\
    (forall text,
       r = Session.Done false /\
       last acts (Session.PostRepo (Session.repo_request repo_name)) =
         Session.Say (Session.SayErrorResponse text) <->
       exists a, reply = Session.Answer a /\
         Session.answer_status a <> 201%Z /\
         Session.answer_status a <> 422%Z /\
         Session.answer_status a <> 403%Z /\
         Session.answer_json a = None /\
         text = Session.answer_text a) /\
    (r = Session.Done true <->
     exists a, reply = Session.Answer a /\
       (Session.answer_status a = 201%Z \/
        Session.answer_status a = 422%Z /\
        exists j, Session.answer_json a = Some j /\
          contains "already exists" (Session.format render j) = true)) /\
    ((exists e, r = Session.Fails e) <->
     reply = Session.NoAnswer \/
     exists a, reply = Session.Answer a /\
       Session.answer_status a = 422%Z /\ Session.answer_json a = None).
Proof.
  intros reply. subst reply.
  unfold Session.create_github_repo, Session.requests_post,
    Session.answer_decoded.
  fold (Session.repo_request repo_name).
  unfold Session.bind, Session.catch, Session.say, Session.ret, Session.throw.
  rewrite posts_say.
  destruct (github (Session.posts s) (Session.repo_request repo_name))
    as [|a] eqn:Hg.
  - repo_done. split.
    + split; [discriminate | intros (a & H & _); discriminate].
    + split; [intros _; left; reflexivity | intros _; eexists; reflexivity].
  - destruct (Session.answer_status a =? 201)%Z eqn:H201.
    { apply Z.eqb_eq in H201. repo_done. split.
      - split; [intros _; exists a; split; [reflexivity | left; exact H201]
               | reflexivity].
      - split; [intros (e & H); discriminate|].
        intros [H | (a' & H & H422 & _)]; [discriminate|].
        injection H as <-. lia. }
    apply Z.eqb_neq in H201.
    destruct (Session.answer_status a =? 422)%Z eqn:H422.
    { apply Z.eqb_eq in H422.
      destruct (Session.answer_json a) as [j|] eqn:Hj.
      - destruct (contains "already exists" (Session.format render j)) eqn:Hc.
        + repo_done. split.
          * split; [|reflexivity]. intros _. exists a. split; [reflexivity|].
            right. split; [exact H422|]. exists j. split; [exact Hj | exact Hc].
          * split; [intros (e & H); discriminate|].
            intros [H | (a' & H & _ & Hn)]; [discriminate|].
            injection H as <-. congruence.
        + repo_done. split.
          * split; [discriminate|].
            intros (a' & H & [H1 | (_ & j' & Hj' & Hc')]);
              injection H as <-; [lia | congruence].
          * split; [intros (e & H); discriminate|].
            intros [H | (a' & H & _ & Hn)]; [discriminate|].
            injection H as <-. congruence.
      - repo_done. split.
        + split; [discriminate|].
          intros (a' & H & [H1 | (_ & j' & Hj' & _)]);
            injection H as <-; [lia | congruence].
        + split; [|intros _; eexists; reflexivity].
          intros _. right. exists a. split; [reflexivity|].
          split; [exact H422 | exact Hj]. }
    apply Z.eqb_neq in H422.
    destruct (Session.answer_status a =? 403)%Z eqn:H403.
    { apply Z.eqb_eq in H403. repo_done. split.
      - split; [discriminate|].
        intros (a' & H & [H1 | (H1 & _)]); injection H as <-; lia.
      - split; [intros (e & H); discriminate|].
        intros [H | (a' & H & H1 & _)]; [discriminate|].
        injection H as <-. lia. }
    apply Z.eqb_neq in H403.
    destruct (Session.answer_json a) as [j|] eqn:Hj.
    + repo_done. split.
      * split; [discriminate|].
        intros (a' & H & [H1 | (H1 & _)]); injection H as <-; lia.
      * split; [intros (e & H); discriminate|].
        intros [H | (a' & H & H1 & _)]; [discriminate|].
        injection H as <-. lia.
    + repo_done. split.
      * split; [discriminate|].
        intros (a' & H & [H1 | (H1 & _)]); injection H as <-; lia.
      * split; [intros (e & H); discriminate|].
        intros [H | (a' & H & H1 & _)]; [discriminate|].
        injection H as <-. lia.
Qed.

(* ===================================================================== *)
(** ** The files [create_workflow_file] writes                            *)
(* ===================================================================== *)

Lemma lookup_set_entry name x n d :
  lookup n (set_entry name x d) =
  if name =? n then Some x else lookup n d.
Proof.
  induction d as [|[m y] rest IH]; cbn [set_entry lookup]; [reflexivity|].
  destruct (m =? name) eqn:E.
  - apply String.eqb_eq in E. subst m. cbn [lookup].
    destruct (name =? n); reflexivity.
  - cbn [lookup]. rewrite IH. destruct (m =? n) eqn:En; [|reflexivity].
    apply String.eqb_eq in En. subst m. rewrite String.eqb_sym, E. reflexivity.
Qed.

Lemma set_entry_same name x d :
  lookup name d = Some x -> set_entry name x d = d.
Proof.
  induction d as [|[m y] rest IH]; cbn [set_entry lookup]; [discriminate|].
  destruct (m =? name) eqn:E.
  - intros H. injection H as ->. reflexivity.
  - intros H. rewrite (IH H). reflexivity.
Qed.

(** What [alter_at] leaves at the path itself. *)
Lemma find_alter_at_leaf leaf :
  forall path d d',
    alter_at path leaf d = Some d' ->
    exists old x, leaf old = Some x /\
      find path d' = match x with
                     | File data => Some (File data)
                     | Dir sub => Some (Dir sub)
                     end.
Proof.
  intros path. induction path as [|name rest IH]; intros d d' Ha; [discriminate|].
  cbn [alter_at] in Ha. destruct rest as [|next rest].
  - destruct (leaf (lookup name d)) as [x|] eqn:El; [|discriminate].
    injection Ha as <-. exists (lookup name d), x. split; [exact El|].
    cbn [find]. rewrite lookup_set_entry, String.eqb_refl.
    destruct x; reflexivity.
  - destruct (lookup name d) as [[data|sub]|] eqn:El; [discriminate| |].
    + destruct (alter_at (next :: rest) leaf sub) as [sub'|] eqn:Es; [|discriminate].
      injection Ha as <-. destruct (IH _ _ Es) as (old & x & Hl & Hf).
      exists old, x. split; [exact Hl|].
      change (find (name :: next :: rest) (set_entry name (Dir sub') d))
        with (match lookup name (set_entry name (Dir sub') d) with
              | Some (Dir s0) => find (next :: rest) s0
              | Some (File _) => None
              | None => None
              end).
      rewrite lookup_set_entry, String.eqb_refl. exact Hf.
    + destruct (alter_at (next :: rest) leaf []) as [sub'|] eqn:Es; [|discriminate].
      injection Ha as <-. destruct (IH _ _ Es) as (old & x & Hl & Hf).
      exists old, x. split; [exact Hl|].
      change (find (name :: next :: rest) (set_entry name (Dir sub') d))
        with (match lookup name (set_entry name (Dir sub') d) with
              | Some (Dir s0) => find (next :: rest) s0
              | Some (File _) => None
              | None => None
              end).
      rewrite lookup_set_entry, String.eqb_refl. exact Hf.
Qed.

Lemma write_file_find path data d d' :
  write_file path data d = Some d' -> find path d' = Some (File data).
Proof.
  intros H. destruct (find_alter_at_leaf _ _ _ _ H) as (old & x & Hl & Hf).
  destruct old as [[o|sub]|]; try discriminate; injection Hl as <-; exact Hf.
Qed.

(** A file at another path is as it was, when [leaf] leaves a directory
    alone or refuses it. *)
Lemma find_alter_at_other leaf :
  (forall sub x, leaf (Some (Dir sub)) = Some x -> x = Dir sub) ->
  forall path d d',
    alter_at path leaf d = Some d' ->
    forall p data,
      find p d = Some (File data) -> p <> path ->
      find p d' = Some (File data).
Proof.
  intros Hleaf path. induction path as [|name rest IH]; intros d d' Ha p data Hf Hp;
    [discriminate|].
  destruct p as [|n q]; [discriminate|].
  cbn [alter_at] in Ha. cbn [find] in Hf |- *.
  destruct (name =? n) eqn:En.
  - apply String.eqb_eq in En. subst n.
    destruct rest as [|next rest].
    + destruct (leaf (lookup name d)) as [x|] eqn:El; [|discriminate].
      injection Ha as <-. rewrite lookup_set_entry, String.eqb_refl.
      destruct (lookup name d) as [[old|sub]|] eqn:Ed; [| |discriminate].
      * destruct q; [|discriminate]. contradiction Hp; reflexivity.
      * rewrite (Hleaf _ _ El). exact Hf.
    + destruct (lookup name d) as [[old|sub]|] eqn:Ed; [discriminate| |discriminate].
      destruct (alter_at (next :: rest) leaf sub) as [sub'|] eqn:Es; [|discriminate].
      injection Ha as <-. rewrite lookup_set_entry, String.eqb_refl.
      apply (IH _ _ Es); [exact Hf|]. intros ->. apply Hp. reflexivity.
  - assert (Hl : lookup n d' = lookup n d).
    { destruct rest as [|next rest].
      - destruct (leaf (lookup name d)) as [x|]; [|discriminate].
        injection Ha as <-. rewrite lookup_set_entry, En. reflexivity.
      - destruct (lookup name d) as [[old|sub]|]; [discriminate| |].
        + destruct (alter_at (next :: rest) leaf sub) as [sub'|]; [|discriminate].
          injection Ha as <-. rewrite lookup_set_entry, En. reflexivity.
        + destruct (alter_at (next :: rest) leaf []) as [sub'|]; [|discriminate].
          injection Ha as <-. rewrite lookup_set_entry, En. reflexivity. }
    rewrite Hl. exact Hf.
Qed.

Lemma write_file_other path text d d' p data :
  write_file path text d = Some d' ->
  find p d = Some (File data) -> p <> path -> find p d' = Some (File data).
Proof.
  intros Ha Hf Hp. unfold write_file in Ha.
  eapply find_alter_at_other; [|exact Ha|exact Hf|exact Hp].
  intros sub x H. discriminate.
Qed.

Lemma alter_at_refuses_file leaf :
  (forall data, leaf (Some (File data)) = None) ->
  forall path d d' data,
    alter_at path leaf d = Some d' -> find path d = Some (File data) -> False.
Proof.
  intros Hleaf path. induction path as [|name rest IH]; intros d d' data Ha Hf;
    [discriminate|].
  cbn [alter_at] in Ha. cbn [find] in Hf. destruct rest as [|next rest].
  - destruct (lookup name d) as [[o|sub]|]; try discriminate.
    rewrite Hleaf in Ha. discriminate.
  - destruct (lookup name d) as [[o|sub]|]; try discriminate.
    destruct (alter_at (next :: rest) leaf sub) as [sub'|] eqn:Es; [|discriminate].
    exact (IH _ _ _ Es Hf).
Qed.

Lemma make_dirs_other path d d' p data :
  make_dirs path d = Some d' ->
  find p d = Some (File data) -> find p d' = Some (File data).
Proof.
  unfold make_dirs. destruct path as [|name rest].
  - intros H. injection H as <-. auto.
  - intros Ha Hf. destruct (list_eq_dec string_dec p (name :: rest)) as [->|Hne].
    + exfalso. eapply alter_at_refuses_file; [|exact Ha|exact Hf]. reflexivity.
    + eapply find_alter_at_other; [|exact Ha|exact Hf|exact Hne].
      intros sub x H. injection H as <-. reflexivity.
Qed.

(** A path that already holds what [leaf] would put there: nothing changes. *)
Lemma alter_at_fixed leaf :
  forall path d x,
    path <> [] -> find path d = Some x -> leaf (Some x) = Some x ->
    alter_at path leaf d = Some d.
Proof.
  intros path. induction path as [|name rest IH]; intros d x Hne Hf Hl;
    [contradiction Hne; reflexivity|].
  cbn [alter_at]. cbn [find] in Hf. destruct rest as [|next rest].
  - destruct (lookup name d) as [[o|sub]|] eqn:Ed; [| |discriminate].
    + injection Hf as <-. rewrite Hl. rewrite (set_entry_same _ _ _ Ed). reflexivity.
    + cbn [find] in Hf. injection Hf as <-. rewrite Hl.
      rewrite (set_entry_same _ _ _ Ed). reflexivity.
  - destruct (lookup name d) as [[o|sub]|] eqn:Ed; [discriminate| |discriminate].
    rewrite (IH sub x); [|discriminate|exact Hf|exact Hl].
    rewrite (set_entry_same _ _ _ Ed). reflexivity.
Qed.

Lemma find_parent a b c d data :
  find [a; b; c] d = Some (File data) ->
  exists sub, find [a; b] d = Some (Dir sub).
Proof.
  cbn [find]. destruct (lookup a d) as [[o|sa]|]; try discriminate.
  destruct (lookup b sa) as [[o|sb]|]; try discriminate.
  intros _. exists sb. reflexivity.
Qed.

Ltac workflow_unfold :=
  unfold Session.create_workflow_file, Session.bind, Session.makedirs,
    Session.write_text, Session.say;
  cbn [Session.env Session.set_tree Session.record cwd].

Lemma create_workflow_file_files s s' :
  Session.create_workflow_file s = (Session.Done tt, s') ->
  find [".github"; "workflows"; "build.yml"] (cwd (Session.env s')) =
    Some (File Session.workflow_content) /\
  find [".gitignore"] (cwd (Session.env s')) =
    Some (File Session.gitignore_content).
Proof.
  workflow_unfold.
  destruct (make_dirs [".github"; "workflows"] (cwd (Session.env s)))
    as [d1|] eqn:H1; [|discriminate].
  cbn [Session.env Session.set_tree Session.record cwd].
  destruct (write_file [".github"; "workflows"; "build.yml"]
              Session.workflow_content d1) as [d2|] eqn:H2; [|discriminate].
  cbn [Session.env Session.set_tree Session.record cwd].
  destruct (write_file [".gitignore"] Session.gitignore_content d2)
    as [d3|] eqn:H3; [|discriminate].
  intros H. injection H as <-.
  cbn [Session.env Session.set_tree Session.record cwd]. split.
  - eapply write_file_other; [exact H3| |discriminate].
    exact (write_file_find _ _ _ _ H2).
  - exact (write_file_find _ _ _ _ H3).
Qed.

(** X16.  When [create_workflow_file] returns, the tree holds
    [.github/workflows/build.yml] and [.gitignore] with the two fixed texts,
    both lines are printed, and every other file of the tree is as it was.
    When it raises, the error is an [OSError], nothing is printed, and every
    file other than the workflow file is as it was. *)
Theorem create_workflow_file_writes_two_files (s : Session.session) :
  match Session.create_workflow_file s with
  | (Session.Done _, s') =>
      find [".github"; "workflows"; "build.yml"] (cwd (Session.env s')) =
        Some (File Session.workflow_content) /\
      find [".gitignore"] (cwd (Session.env s')) =
        Some (File Session.gitignore_content) /\
      Session.journal s' =
        (Session.journal s ++
         [Session.Say Session.SayWorkflowCreated;
          Session.Say Session.SayGitignoreCreated])%list /\
      (forall p data,
         find p (cwd (Session.env s)) = Some (File data) ->
         p <> [".github"; "workflows"; "build.yml"] -> p <> [".gitignore"] ->
         find p (cwd (Session.env s')) = Some (File data))
  | (Session.Fails e, s') =>
      e = Session.Py OSError /\
      Session.journal s' = Session.journal s /\
      (forall p data,
         find p (cwd (Session.env s)) = Some (File data) ->
         p <> [".github"; "workflows"; "build.yml"] ->
         find p (cwd (Session.env s')) = Some (File data))
  end.
Proof.
  workflow_unfold.
  destruct (make_dirs [".github"; "workflows"] (cwd (Session.env s)))
    as [d1|] eqn:H1; [|split; [reflexivity | split; [reflexivity | auto]]].
  cbn [Session.env Session.set_tree Session.record cwd].
  destruct (write_file [".github"; "workflows"; "build.yml"]
              Session.workflow_content d1) as [d2|] eqn:H2.
  2:{ split; [reflexivity | split; [reflexivity|]].
      intros p data Hf _. cbn [Session.env Session.set_tree cwd].
      exact (make_dirs_other _ _ _ _ _ H1 Hf). }
  cbn [Session.env Session.set_tree Session.record cwd].
  destruct (write_file [".gitignore"] Session.gitignore_content d2)
    as [d3|] eqn:H3.
  2:{ split; [reflexivity | split; [reflexivity|]].
      intros p data Hf Hp. cbn [Session.env Session.set_tree cwd].
      eapply write_file_other; [exact H2| |exact Hp].
      exact (make_dirs_other _ _ _ _ _ H1 Hf). }
  cbn [Session.env Session.set_tree Session.record Session.journal cwd].
  split; [|split; [|split]].
  - eapply write_file_other; [exact H3| |discriminate].
    exact (write_file_find _ _ _ _ H2).
  - exact (write_file_find _ _ _ _ H3).
  - rewrite <- app_assoc. reflexivity.
  - intros p data Hf Hp1 Hp2.
    eapply write_file_other; [exact H3| |exact Hp2].
    eapply write_file_other; [exact H2| |exact Hp1].
    exact (make_dirs_other _ _ _ _ _ H1 Hf).
Qed.

(** X17.  [create_workflow_file] can be repeated: called again after a call
    that returned, it returns again and leaves the tree as the first call
    left it. *)
Theorem create_workflow_file_can_be_repeated (s s' : Session.session) :
  Session.create_workflow_file s = (Session.Done tt, s') ->
  exists s'',
    Session.create_workflow_file s' = (Session.Done tt, s'') /\
    cwd (Session.env s'') = cwd (Session.env s').
Proof.
  intros H.
  destruct (create_workflow_file_files _ _ H) as (Hb & Hg).
  destruct (find_parent _ _ _ _ _ Hb) as (sub & Hd).
  workflow_unfold.
  assert (E1 : make_dirs [".github"; "workflows"] (cwd (Session.env s')) =
               Some (cwd (Session.env s'))).
  { unfold make_dirs. eapply alter_at_fixed; [discriminate|exact Hd|reflexivity]. }
  rewrite E1. cbn [Session.env Session.set_tree Session.record cwd].
  assert (E2 : write_file [".github"; "workflows"; "build.yml"]
                 Session.workflow_content (cwd (Session.env s')) =
               Some (cwd (Session.env s'))).
  { unfold write_file. eapply alter_at_fixed; [discriminate|exact Hb|reflexivity]. }
  rewrite E2. cbn [Session.env Session.set_tree Session.record cwd].
  assert (E3 : write_file [".gitignore"] Session.gitignore_content
                 (cwd (Session.env s')) = Some (cwd (Session.env s'))).
  { unfold write_file. eapply alter_at_fixed; [discriminate|exact Hg|reflexivity]. }
  rewrite E3. cbn [Session.env Session.set_tree Session.record cwd].
  eexists. split; reflexivity.
Qed.

Lemma create_workflow_file_can_be_repeated_witness :
  exists s'',
    Session.create_workflow_file
      (snd (Session.create_workflow_file
              {| Session.env := Scenario.world0; Session.config := [];
                 Session.journal := [] |})) = (Session.Done tt, s'') /\
    exists_path [".github"; "workflows"; "build.yml"] (cwd (Session.env s'')) = true.
Proof.
  destruct (create_workflow_file_can_be_repeated
              {| Session.env := Scenario.world0; Session.config := [];
                 Session.journal := [] |}
              (snd (Session.create_workflow_file
                      {| Session.env := Scenario.world0; Session.config := [];
                         Session.journal := [] |})))
    as (s'' & Hc & Hd).
  - vm_compute. reflexivity.
  - exists s''. split; [exact Hc|]. rewrite Hd. vm_compute. reflexivity.
Defined.

(** X18.  The two files are written one after the other and nothing is
    undone: when [.gitignore] is a directory (and [.github] does not exist
    yet), [create_workflow_file] raises [OSError] with the workflow file
    already written, and prints nothing. *)
Theorem blocked_gitignore_leaves_workflow_file
  (s : Session.session) (sub : dir) :
  lookup ".github" (cwd (Session.env s)) = None ->
  lookup ".gitignore" (cwd (Session.env s)) = Some (Dir sub) ->
  exists s',
    Session.create_workflow_file s = (Session.Fails (Session.Py OSError), s') /\
    find [".github"; "workflows"; "build.yml"] (cwd (Session.env s')) =
      Some (File Session.workflow_content) /\
    find [".gitignore"] (cwd (Session.env s')) = Some (Dir sub) /\
    Session.journal s' = Session.journal s.
Proof.
  intros Hh Hi. workflow_unfold.
  assert (E1 : make_dirs [".github"; "workflows"] (cwd (Session.env s)) =
               Some (set_entry ".github" (Dir [("workflows", Dir [])])
                       (cwd (Session.env s)))).
  { unfold make_dirs. cbn [alter_at]. rewrite Hh. reflexivity. }
  rewrite E1. cbn [Session.env Session.set_tree Session.record cwd].
  destruct (write_file [".github"; "workflows"; "build.yml"]
              Session.workflow_content
              (set_entry ".github" (Dir [("workflows", Dir [])])
                 (cwd (Session.env s)))) as [d2|] eqn:H2.
  2:{ exfalso. revert H2. unfold write_file. cbn [alter_at].
      rewrite lookup_set_entry, String.eqb_refl. cbn [alter_at lookup].
      cbn. discriminate. }
  cbn [Session.env Session.set_tree Session.record cwd].
  assert (Hi2 : lookup ".gitignore" d2 = Some (Dir sub)).
  { revert H2. unfold write_file. cbn [alter_at].
    rewrite lookup_set_entry, String.eqb_refl.
    destruct (match lookup "workflows" [("workflows", Dir [])] with
              | Some (File _) => None
              | Some (Dir sub0) =>
                  match _ with Some sub' => _ | None => None end
              | None => _
              end) as [sub'|]; [|discriminate].
    intros H. injection H as <-.
    rewrite !lookup_set_entry. cbn. exact Hi. }
  unfold write_file at 1. cbn [alter_at]. rewrite Hi2.
  eexists. split; [reflexivity|].
  cbn [Session.env Session.set_tree Session.record Session.journal cwd].
  split; [exact (write_file_find _ _ _ _ H2)|].
  split; [|reflexivity].
  cbn [find]. rewrite Hi2. reflexivity.
Qed.

Lemma blocked_gitignore_leaves_workflow_file_witness :
  exists s',
    Session.create_workflow_file
      {| Session.env :=
           {| trace := []; tmpfiles := []; next_tmp := 0;
              cwd := [("build.gradle", File "plugins {}"); (".gitignore", Dir [])] |};
         Session.config := []; Session.journal := [] |} =
      (Session.Fails (Session.Py OSError), s') /\
    exists_path [".github"; "workflows"; "build.yml"] (cwd (Session.env s')) = true.
Proof.
  destruct (blocked_gitignore_leaves_workflow_file
              {| Session.env :=
                   {| trace := []; tmpfiles := []; next_tmp := 0;
                      cwd := [("build.gradle", File "plugins {}");
                              (".gitignore", Dir [])] |};
                 Session.config := []; Session.journal := [] |} []
              eq_refl eq_refl) as (s' & Hc & Hb & _).
  exists s'. split; [exact Hc|]. unfold exists_path. rewrite Hb. reflexivity.
Defined.

(* ===================================================================== *)
(** ** The scope check of [setup_credentials]                             *)
(* ===================================================================== *)

Lemma append_empty_r (s : string) : (s ++ "")%string = s.
Proof. induction s as [|c s IH]; cbn [append]; [|rewrite IH]; reflexivity. Qed.

Lemma startswith_nil s : startswith s "" = true.
Proof. destruct s; reflexivity. Qed.

(** A needle without the character [c] cannot reach across it. *)
Lemma startswith_across c needle :
  contains (String c "") needle = false ->
  forall a rest, startswith (a ++ String c rest) needle = startswith a needle.
Proof.
  induction needle as [|n needle IH]; intros Hc a rest.
  - rewrite !startswith_nil. reflexivity.
  - cbn [contains startswith] in Hc. rewrite startswith_nil in Hc.
    apply Bool.orb_false_iff in Hc. destruct Hc as [Hn Hc].
    rewrite Bool.andb_true_r in Hn.
    destruct a as [|h a]; cbn [append startswith].
    + rewrite Ascii.eqb_sym, Hn. reflexivity.
    + rewrite (IH Hc). reflexivity.
Qed.

Lemma contains_across c needle :
  contains (String c "") needle = false -> needle <> "" ->
  forall a rest,
    contains needle (a ++ String c rest) =
    contains needle a || contains needle rest.
Proof.
  intros Hc Hne a rest. induction a as [|h a IH].
  - pose proof (startswith_across c needle Hc "" rest) as Hs.
    cbn [append] in Hs |- *. cbn [contains]. rewrite Hs.
    destruct needle; [contradiction Hne; reflexivity|]. reflexivity.
  - cbn [append]. cbn [contains]. rewrite IH.
    change (String h (a ++ String c rest)) with (String h a ++ String c rest).
    rewrite (startswith_across c needle Hc). rewrite !Bool.orb_assoc. reflexivity.
Qed.

Lemma split_comma_space_eq c rest cur :
  split_comma_space (String c rest) cur =
  if Ascii.eqb c "," && startswith rest " "
  then cur :: split_comma_space (match rest with String _ r => r | "" => "" end) ""
  else split_comma_space rest (cur ++ String c "").
Proof.
  destruct rest as [|a rest].
  - cbn [split_comma_space startswith]. rewrite Bool.andb_false_r. reflexivity.
  - destruct a as [[] [] [] [] [] [] [] []];
      cbn [split_comma_space startswith Ascii.eqb Bool.eqb andb];
      rewrite ?startswith_nil, ?Bool.andb_true_r, ?Bool.andb_false_r;
      reflexivity.
Qed.

Lemma split_comma_space_nonempty s :
  forall cur, exists x l, split_comma_space s cur = x :: l.
Proof.
  remember (String.length s) as n eqn:Hn. revert s Hn.
  induction n as [n IH] using lt_wf_ind. intros s Hn cur.
  destruct s as [|c rest]; [cbn; eauto|].
  rewrite split_comma_space_eq.
  destruct (Ascii.eqb c "," && startswith rest " "); [eauto|].
  apply (IH (String.length rest)); [subst n; cbn; lia | reflexivity].
Qed.

Lemma concat_cons sep x y l :
  String.concat sep (x :: y :: l) = x ++ sep ++ String.concat sep (y :: l).
Proof. reflexivity. Qed.

(** Joining the scopes with a space keeps the occurrences of 'repo' the
    header has, and adds none. *)
Lemma repo_in_joined_scopes s :
  forall cur,
    contains "repo" (String.concat " " (split_comma_space s cur)) =
    contains "repo" (cur ++ s).
Proof.
  remember (String.length s) as n eqn:Hn. revert s Hn.
  induction n as [n IH] using lt_wf_ind. intros s Hn cur.
  destruct s as [|c rest].
  - cbn [split_comma_space String.concat]. rewrite append_empty_r. reflexivity.
  - rewrite split_comma_space_eq.
    destruct (Ascii.eqb c "," && startswith rest " ") eqn:E.
    + apply Bool.andb_true_iff in E. destruct E as [Ec Es].
      apply Ascii.eqb_eq in Ec. subst c.
      destruct rest as [|a rest]; [discriminate|].
      cbn [startswith] in Es. rewrite startswith_nil, Bool.andb_true_r in Es.
      apply Ascii.eqb_eq in Es. subst a.
      destruct (split_comma_space_nonempty rest "") as (x & l & Hx).
      pose proof (IH (String.length rest)) as IH'.
      specialize (IH' ltac:(subst n; cbn; lia) rest eq_refl "").
      rewrite Hx in *. rewrite concat_cons.
      change (cur ++ " " ++ String.concat " " (x :: l))
        with (cur ++ String " " (String.concat " " (x :: l))).
      rewrite (contains_across " " "repo" eq_refl ltac:(discriminate)).
      rewrite (contains_across "," "repo" eq_refl ltac:(discriminate)).
      rewrite IH'.
      pose proof (contains_across " " "repo" eq_refl ltac:(discriminate) "" rest)
        as Hs.
      cbn [append] in Hs |- *. rewrite Hs. reflexivity.
    + rewrite (IH (String.length rest)); [|subst n; cbn; lia|reflexivity].
      rewrite append_assoc. reflexivity.
Qed.

Lemma repo_in_some_scope l :
  contains "repo" (String.concat " " l) = existsb (contains "repo") l.
Proof.
  induction l as [|x l IH]; [reflexivity|].
  destruct l as [|y l].
  - cbn [String.concat existsb]. rewrite Bool.orb_false_r. reflexivity.
  - rewrite concat_cons.
    change (x ++ " " ++ String.concat " " (y :: l))
      with (x ++ String " " (String.concat " " (y :: l))).
    rewrite (contains_across " " "repo" eq_refl ltac:(discriminate)).
    rewrite IH. reflexivity.
Qed.

Lemma listed_scope_occurs x l :
  mem x l = true -> existsb (contains x) l = true.
Proof.
  unfold mem. induction l as [|y l IH]; [discriminate|].
  cbn [existsb]. intros H. apply Bool.orb_true_iff in H. destruct H as [H|H].
  - apply String.eqb_eq in H. subst y.
    assert (Hs : forall t, startswith t t = true).
    { induction t as [|a t IHt]; [reflexivity|].
      cbn [startswith]. rewrite Ascii.eqb_refl, IHt. reflexivity. }
    destruct x; cbn [contains]; rewrite Hs; reflexivity.
  - rewrite (IH H). apply Bool.orb_true_r.
Qed.

(** X19.  The scope check of [setup_credentials] reports no missing scope
    as soon as the text 'repo' occurs anywhere in the header
    [X-OAuth-Scopes], be it inside another scope's name such as
    'public_repo', whether or not 'workflow' is granted.  When 'repo' does
    not occur, 'repo' is reported, and 'workflow' with it unless it is
    listed. *)
Theorem scope_warning_needs_no_repo_text (header : string) :
  missing_scopes header =
  if contains "repo" header then []
  else "repo" ::
       (if mem "workflow" (split_comma_space header "") then [] else ["workflow"]).
Proof.
  unfold missing_scopes, required_scopes.
  pose proof (repo_in_joined_scopes header "") as Hj. cbn [append] in Hj.
  cbn [filter]. rewrite Hj.
  destruct (contains "repo" header) eqn:Hc.
  - rewrite !Bool.andb_false_r. reflexivity.
  - rewrite !Bool.andb_true_r.
    destruct (mem "repo" (split_comma_space header "")) eqn:Hm.
    + apply listed_scope_occurs in Hm. rewrite <- repo_in_some_scope in Hm.
      rewrite Hj in Hm. discriminate.
    + cbn [negb]. destruct (mem "workflow" (split_comma_space header ""));
        reflexivity.
Qed.

(* ===================================================================== *)
(** ** Setting up the credentials                                         *)
(* ===================================================================== *)

Lemma assoc_store_item key v k items :
  assoc k (Session.store_item key v items) =
  if key =? k then Some v else assoc k items.
Proof.
  induction items as [|[m y] rest IH]; cbn [Session.store_item assoc];
    [reflexivity|].
  destruct (m =? key) eqn:E.
  - apply String.eqb_eq in E. subst m. cbn [assoc].
    destruct (key =? k); reflexivity.
  - cbn [assoc]. rewrite IH. destruct (m =? k) eqn:Ek; [|reflexivity].
    apply String.eqb_eq in Ek. subst m. rewrite String.eqb_sym, E. reflexivity.
Qed.

Lemma item_store_item key v k items :
  Session.item k (Session.store_item key v items) =
  if key =? k then v else Session.item k items.
Proof.
  unfold Session.item. rewrite assoc_store_item. destruct (key =? k); reflexivity.
Qed.

Lemma say_all_eq ls s :
  Session.say_all ls s =
  (Session.Done tt,
   {| Session.env := Session.env s; Session.config := Session.config s;
      Session.journal := (Session.journal s ++ map Session.Say ls)%list |}).
Proof.
  revert s. induction ls as [|l ls IH]; intros s; cbn [Session.say_all map].
  - unfold Session.ret. rewrite app_nil_r. destruct s; reflexivity.
  - unfold Session.bind, Session.say. rewrite IH.
    cbn [Session.env Session.config Session.journal Session.record].
    rewrite <- app_assoc. reflexivity.
Qed.

Lemma asks_record a s :
  Session.asks (Session.record a s) =
  Session.asks s + (if Session.is_ask a then 1 else 0).
Proof.
  unfold Session.asks, Session.record. cbn [Session.journal].
  rewrite filter_app, length_app. destruct a; reflexivity.
Qed.

Lemma gets_record a s :
  Session.gets (Session.record a s) =
  Session.gets s + (if Session.is_get_user a then 1 else 0).
Proof.
  unfold Session.gets, Session.record. cbn [Session.journal].
  rewrite filter_app, length_app. destruct a; reflexivity.
Qed.

Section Setup.

Variable render : json -> string.
Variable stdin : nat -> option string.
Variable strip : string -> string.
Variable dump : list (string * json) -> string.
Variable whoami : nat -> string -> option Session.user_answer.


(** The ways through one block of [setup_credentials]. *)
Lemma required_cases key p complaint rest s :
  (truthy (Session.item key (Session.config s)) = true /\
   Session.required stdin strip key p complaint rest s = rest s) \/
  (truthy (Session.item key (Session.config s)) = false /\
   match stdin (Session.asks s) with
   | None =>
       Session.required stdin strip key p complaint rest s =
       (Session.Fails Session.EOFError, Session.record (Session.Ask p) s)
   | Some text =>
       if strip text =? "" then
         Session.required stdin strip key p complaint rest s =
         (Session.Done false,
          Session.record (Session.Say complaint)
            (Session.record (Session.Ask p) s))
       else
         Session.required stdin strip key p complaint rest s =
         rest {| Session.env := Session.env s;
                 Session.config :=
                   Session.store_item key (JStr (strip text)) (Session.config s);
                 Session.journal := (Session.journal s ++ [Session.Ask p])%list |}
   end).
Proof.
  unfold Session.required, Session.bind, Session.config_get,
    Session.input, Session.config_store, Session.say, Session.ret.
  destruct (truthy (Session.item key (Session.config s))); cbn [negb];
    [left; split; reflexivity | right; split; [reflexivity|]].
  destruct (stdin (Session.asks s)) as [text|]; [|reflexivity].
  destruct (strip text =? ""); reflexivity.
Qed.

Lemma required_skips key p complaint rest s :
  truthy (Session.item key (Session.config s)) = true ->
  Session.required stdin strip key p complaint rest s = rest s.
Proof.
  intros Ht. destruct (required_cases key p complaint rest s) as [[_ E]|[Hf _]];
    [exact E | congruence].
Qed.

(** A block that lets the set-up go on leaves the entry true and changes no
    entry that was true. *)
Lemma required_goes_on key p complaint rest s b s' :
  Session.required stdin strip key p complaint rest s = (Session.Done b, s') ->
  (b = false /\ Session.env s' = Session.env s /\
   Session.gets s' = Session.gets s /\
   last (Session.journal s') (Session.Say Session.SayStarted) =
     Session.Say complaint) \/
  exists s1,
    rest s1 = (Session.Done b, s') /\
    Session.env s1 = Session.env s /\
    Session.gets s1 = Session.gets s /\
    truthy (Session.item key (Session.config s1)) = true /\
    (forall k, truthy (Session.item k (Session.config s)) = true ->
               Session.item k (Session.config s1) =
               Session.item k (Session.config s)).
Proof.
  intros H.
  destruct (required_cases key p complaint rest s) as [[Ht E]|[Ht E]].
  - right. exists s. rewrite E in H. auto.
  - destruct (stdin (Session.asks s)) as [text|]; [|rewrite E in H; discriminate].
    destruct (strip text =? "") eqn:Eb; rewrite E in H.
    + left. injection H as <- <-.
      cbn [Session.env Session.record Session.journal].
      rewrite !gets_record. cbn [Session.is_get_user]. 
      rewrite last_last. repeat split; lia.
    + right. eexists. split; [exact H|].
      cbn [Session.env Session.config]. split; [reflexivity|]. split.
      { unfold Session.gets. cbn [Session.journal].
        rewrite filter_app, length_app. cbn. lia. }
      split.
      * rewrite item_store_item, String.eqb_refl. cbn [truthy]. rewrite Eb.
        reflexivity.
      * intros k Hk. rewrite item_store_item.
        destruct (key =? k) eqn:Ek; [|reflexivity].
        apply String.eqb_eq in Ek. subst k. congruence.
Qed.

(** What [setup_credentials] does from the saving on, when it returns. *)
Lemma verify_credentials_returns s b s' :
  Session.verify_credentials render dump whoami s = (Session.Done b, s') ->
  Session.config s' = Session.config s /\
  find [Session.config_file] (cwd (Session.env s')) =
    Some (File (dump (Session.config s))) /\
  Session.gets s' = S (Session.gets s) /\
  last (Session.journal s') (Session.Say Session.SayStarted) =
    Session.Say (if b then Session.SayVerified else Session.SayInvalidToken) /\
  exists token a,
    assoc "github_token" (Session.config s) = Some token /\
    whoami (Session.gets s) ("token " ++ Session.format render token) = Some a /\
    b = (Session.user_status a =? 200)%Z.
Proof.
  unfold Session.verify_credentials, Session.save_config,
    Session.write_text, Session.bind, Session.config_item,
    Session.requests_get_user, Session.say, Session.ret.
  destruct (write_file [Session.config_file] (dump (Session.config s))
              (cwd (Session.env s))) as [d|] eqn:Hw; [|discriminate].
  cbn [Session.config Session.set_tree].
  destruct (assoc "github_token" (Session.config s)) as [token|]; [|discriminate].
  change (Session.gets (Session.set_tree d s)) with (Session.gets s).
  destruct (whoami (Session.gets s) ("token " ++ Session.format render token))
    as [a|] eqn:Hq; [|discriminate].
  destruct (Session.user_status a =? 200)%Z eqn:Hs; cbn [negb].
  - destruct (missing_scopes _) as [|m ms]; intros H; injection H as <- <-;
      cbn [Session.config Session.env Session.journal Session.record
           Session.set_tree cwd];
      rewrite ?gets_record; cbn [Session.is_get_user];
      rewrite last_last;
      (split; [reflexivity|]);
      (split; [exact (write_file_find _ _ _ _ Hw)|]);
      (split; [change (Session.gets (Session.set_tree d s)) with (Session.gets s); lia|]);
      (split; [reflexivity|]); exists token, a; auto.
  - intros H; injection H as <- <-.
    cbn [Session.config Session.env Session.journal Session.record
         Session.set_tree cwd].
    rewrite ?gets_record; cbn [Session.is_get_user]. rewrite last_last.
    split; [reflexivity|].
    split; [exact (write_file_find _ _ _ _ Hw)|].
    split; [change (Session.gets (Session.set_tree d s)) with (Session.gets s); lia|].
    split; [reflexivity|]. exists token, a; auto.
Qed.

Lemma verify_credentials_keeps s :
  Session.config (snd (Session.verify_credentials render dump whoami s)) = Session.config s /\
  Session.asks (snd (Session.verify_credentials render dump whoami s)) = Session.asks s.
Proof.
  unfold Session.verify_credentials, Session.save_config,
    Session.write_text, Session.bind, Session.config_item,
    Session.requests_get_user, Session.say, Session.ret.
  destruct (write_file [Session.config_file] (dump (Session.config s))
              (cwd (Session.env s))) as [d|]; [|split; reflexivity].
  cbn [Session.config Session.set_tree].
  destruct (assoc "github_token" (Session.config s)) as [token|];
    [|split; reflexivity].
  change (Session.gets (Session.set_tree d s)) with (Session.gets s).
  destruct (whoami (Session.gets s) ("token " ++ Session.format render token))
    as [a|];
    [destruct (Session.user_status a =? 200)%Z; cbn [negb];
     [destruct (missing_scopes _) as [|m ms]|]|].
  all: cbn [snd Session.config Session.record]; rewrite ?asks_record;
    cbn [Session.is_ask];
    change (Session.asks (Session.set_tree d s)) with (Session.asks s);
    split; [reflexivity | lia].
Qed.


Lemma gets_after_says ls s :
  Session.gets
    {| Session.env := Session.env s; Session.config := Session.config s;
       Session.journal := (Session.journal s ++ map Session.Say ls)%list |} =
  Session.gets s.
Proof.
  unfold Session.gets. cbn [Session.journal]. rewrite filter_app, length_app.
  induction ls as [|l ls IH]; cbn [map filter Session.is_get_user length] in *;
    lia.
Qed.

Lemma asks_after_says ls s :
  Session.asks
    {| Session.env := Session.env s; Session.config := Session.config s;
       Session.journal := (Session.journal s ++ map Session.Say ls)%list |} =
  Session.asks s.
Proof.
  unfold Session.asks. cbn [Session.journal]. rewrite filter_app, length_app.
  induction ls as [|l ls IH]; cbn [map filter Session.is_ask length] in *;
    lia.
Qed.

Ltac setup_enter H :=
  unfold Session.setup_credentials in H; unfold Session.bind in H at 1;
  rewrite say_all_eq in H.

(** X20.  [setup_credentials] returns [False] in two ways only.  After a
    blank answer to one of its three questions: nothing has been written and
    no request sent, and the last line printed says which entry is required.
    Or after the service answered the request for the user with a status
    other than 200: by then the configuration, token included, has been
    written to [github_builder_config.json]. *)
Theorem setup_credentials_fails_in_two_ways (s s' : Session.session) :
  Session.setup_credentials render stdin strip dump whoami s = (Session.Done false, s') ->
  (Session.env s' = Session.env s /\
   Session.gets s' = Session.gets s /\
   exists complaint,
     In complaint [Session.SayTokenRequired; Session.SayUsernameRequired;
                   Session.SayEmailRequired] /\
     last (Session.journal s') (Session.Say Session.SayStarted) =
       Session.Say complaint) \/
  (find [Session.config_file] (cwd (Session.env s')) =
     Some (File (dump (Session.config s'))) /\
   Session.gets s' = S (Session.gets s) /\
   last (Session.journal s') (Session.Say Session.SayStarted) =
     Session.Say Session.SayInvalidToken).
Proof.
  intros H. setup_enter H.
  pose proof (gets_after_says (map Session.SaySetupNotice (seq 0 13)) s) as G0.
  apply required_goes_on in H.
  destruct H as [(_ & He & Hg & Hl)|(s1 & H & He1 & Hg1 & _)].
  { left. cbn [Session.env] in He. rewrite Hg, G0.
    split; [exact He|]. split; [reflexivity|].
    eexists. split; [|exact Hl]. cbn; auto. }
  apply required_goes_on in H.
  destruct H as [(_ & He & Hg & Hl)|(s2 & H & He2 & Hg2 & _)].
  { left. rewrite He, He1, Hg, Hg1, G0. cbn [Session.env].
    split; [reflexivity|]. split; [reflexivity|].
    eexists. split; [|exact Hl]. cbn; auto. }
  apply required_goes_on in H.
  destruct H as [(_ & He & Hg & Hl)|(s3 & H & He3 & Hg3 & _)].
  { left. rewrite He, He2, He1, Hg, Hg2, Hg1, G0. cbn [Session.env].
    split; [reflexivity|]. split; [reflexivity|].
    eexists. split; [|exact Hl]. cbn; auto. }
  apply verify_credentials_returns in H.
  destruct H as (Hc & Hf & Hg & Hl & _).
  right. rewrite Hc, Hg, Hg3, Hg2, Hg1, G0. auto.
Qed.

(** X21.  When [setup_credentials] returns [True], the configuration holds
    a true value for the token, the user name and the e-mail address, the
    entries that were true before are unchanged, the configuration has been
    written to [github_builder_config.json], and the one request sent for
    the user, with that token, was answered with status 200, whatever
    scopes the answer lists. *)
Theorem verified_credentials_are_complete (s s' : Session.session) :
  Session.setup_credentials render stdin strip dump whoami s = (Session.Done true, s') ->
  Session.complete (Session.config s') = true /\
  (forall k, truthy (Session.item k (Session.config s)) = true ->
             Session.item k (Session.config s') =
             Session.item k (Session.config s)) /\
  find [Session.config_file] (cwd (Session.env s')) =
    Some (File (dump (Session.config s'))) /\
  Session.gets s' = S (Session.gets s) /\
  exists a,
    whoami (Session.gets s)
      ("token " ++
       Session.format render (Session.item "github_token" (Session.config s'))) =
      Some a /\
    Session.user_status a = 200%Z.
Proof.
  intros H. setup_enter H.
  pose proof (gets_after_says (map Session.SaySetupNotice (seq 0 13)) s) as G0.
  apply required_goes_on in H.
  destruct H as [(Hb & _)|(s1 & H & _ & Hg1 & Ht1 & Hk1)]; [discriminate|].
  apply required_goes_on in H.
  destruct H as [(Hb & _)|(s2 & H & _ & Hg2 & Ht2 & Hk2)]; [discriminate|].
  apply required_goes_on in H.
  destruct H as [(Hb & _)|(s3 & H & _ & Hg3 & Ht3 & Hk3)]; [discriminate|].
  apply verify_credentials_returns in H.
  destruct H as (Hc & Hf & Hg & _ & token & a & Ha & Hw & Hs).
  cbn [Session.config] in Hk1.
  assert (T2 : Session.item "github_token" (Session.config s2) =
               Session.item "github_token" (Session.config s1)) by auto.
  assert (T3 : Session.item "github_token" (Session.config s3) =
               Session.item "github_token" (Session.config s1))
    by (rewrite <- T2; apply Hk3; rewrite T2; exact Ht1).
  assert (U3 : Session.item "github_username" (Session.config s3) =
               Session.item "github_username" (Session.config s2)) by auto.
  rewrite Hc. split; [|split; [|split; [|split]]].
  - unfold Session.complete. rewrite T3, U3, Ht1, Ht2, Ht3. reflexivity.
  - intros k Hk. rewrite Hk3, Hk2, Hk1; auto.
    + rewrite Hk1; auto.
    + rewrite Hk2, Hk1; auto. rewrite Hk1; auto.
  - exact Hf.
  - rewrite Hg, Hg3, Hg2, Hg1, G0. reflexivity.
  - exists a. split.
    + unfold Session.item. rewrite Ha.
      rewrite Hg3, Hg2, Hg1, G0 in Hw. exact Hw.
    + symmetry in Hs. apply Z.eqb_eq in Hs. exact Hs.
Qed.

(** X22.  With a configuration that holds the three entries,
    [setup_credentials] asks nothing and leaves the configuration as it is,
    however it ends. *)
Theorem complete_configuration_asks_nothing (s : Session.session) :
  Session.complete (Session.config s) = true ->
  Session.asks (snd (Session.setup_credentials render stdin strip dump whoami s)) = Session.asks s /\
  Session.config (snd (Session.setup_credentials render stdin strip dump whoami s)) = Session.config s.
Proof.
  unfold Session.complete. intros H.
  apply Bool.andb_true_iff in H. destruct H as [H He].
  apply Bool.andb_true_iff in H. destruct H as [Ht Hu].
  unfold Session.setup_credentials, Session.bind.
  rewrite say_all_eq.
  pose proof (asks_after_says (map Session.SaySetupNotice (seq 0 13)) s) as A0.
  set (s0 := {| Session.env := Session.env s; Session.config := Session.config s;
                Session.journal := _ |}) in *.
  rewrite !required_skips by exact Ht || exact Hu || exact He.
  destruct (verify_credentials_keeps s0) as [Hc Ha].
  rewrite Hc, Ha, A0. split; reflexivity.
Qed.

End Setup.

Lemma setup_credentials_fails_in_two_ways_witness :
  find [Session.config_file]
    (cwd (Session.env
            (snd (Session.setup_credentials Desk.render (Desk.typed [])
                    Desk.strip Desk.dump Desk.rejects Desk.settled)))) =
  Some (File "github_token,github_username,email").
Proof.
  destruct (setup_credentials_fails_in_two_ways
              Desk.render (Desk.typed []) Desk.strip Desk.dump Desk.rejects
              Desk.settled
              (snd (Session.setup_credentials Desk.render (Desk.typed [])
                      Desk.strip Desk.dump Desk.rejects Desk.settled)))
    as [(_ & Hg & _)|(Hf & _)].
  - vm_compute. reflexivity.
  - vm_compute in Hg. discriminate Hg.
  - exact Hf.
Defined.

Lemma verified_credentials_are_complete_witness :
  Session.complete
    (Session.config
       (snd (Session.setup_credentials Desk.render
               (Desk.typed ["ghp_2"; "bob"; "bob@example.org"])
               Desk.strip Desk.dump (Desk.accepts "public_repo") Desk.fresh))) =
  true.
Proof.
  apply (verified_credentials_are_complete
           Desk.render (Desk.typed ["ghp_2"; "bob"; "bob@example.org"])
           Desk.strip Desk.dump (Desk.accepts "public_repo") Desk.fresh).
  vm_compute. reflexivity.
Defined.

Lemma complete_configuration_asks_nothing_witness :
  Session.asks
    (snd (Session.setup_credentials Desk.render (Desk.typed ["ghp_2"])
            Desk.strip Desk.dump Desk.rejects Desk.settled)) =
  Session.asks Desk.settled.
Proof.
  apply (complete_configuration_asks_nothing
           Desk.render (Desk.typed ["ghp_2"]) Desk.strip Desk.dump Desk.rejects
           Desk.settled).
  reflexivity.
Defined.

(* ===================================================================== *)
(** ** The order of the steps of [run]                                    *)
(* ===================================================================== *)

Lemma step_spec_weaken {A} (P Q : A -> list Session.action -> Prop) c :
  (forall a acts, P a acts -> Q a acts) -> step_spec P c -> step_spec Q c.
Proof.
  intros HPQ Hc s. destruct (Hc s) as (Ht & acts & Hj & HP).
  split; [exact Ht|]. exists acts. split; [exact Hj|]. auto.
Qed.

Lemma step_spec_ret {A} (P : A -> list Session.action -> Prop) a :
  P a [] -> step_spec P (Session.ret a).
Proof.
  intros HP s. cbn. split; [reflexivity|]. exists []. rewrite app_nil_r.
  split; [reflexivity|]. intros a' H. injection H as <-. exact HP.
Qed.

Lemma step_spec_throw {A} (P : A -> list Session.action -> Prop) e :
  step_spec P (Session.throw e).
Proof.
  intros s. cbn. split; [reflexivity|]. exists []. rewrite app_nil_r.
  split; [reflexivity|]. intros a' H. discriminate H.
Qed.

Lemma step_spec_bind {A B} (P1 : A -> list Session.action -> Prop)
      (P2 : B -> list Session.action -> Prop) P c k :
  step_spec P1 c ->
  (forall a, step_spec P2 (k a)) ->
  (forall a b acts1 acts2, P1 a acts1 -> P2 b acts2 -> P b (acts1 ++ acts2)%list) ->
  step_spec P (Session.bind c k).
Proof.
  intros Hc Hk HP s. unfold Session.bind.
  destruct (Hc s) as (Ht & acts1 & Hj & H1).
  destruct (c s) as [[a|e] s1]; cbn [fst snd] in *.
  - destruct (Hk a s1) as (Ht2 & acts2 & Hj2 & H2).
    split; [congruence|]. exists (acts1 ++ acts2)%list.
    split; [rewrite Hj2, Hj, app_assoc; reflexivity|].
    intros b Hb. eapply HP; eauto.
  - split; [exact Ht|]. exists acts1. split; [exact Hj|]. discriminate.
Qed.

Lemma step_spec_say l :
  step_spec (fun _ acts => acts = [Session.Say l]) (Session.say l).
Proof.
  intros s. cbn. split; [reflexivity|]. eexists. split; [reflexivity|]. auto.
Qed.

Lemma said_app_l l acts1 acts2 : said l acts1 -> said l (acts1 ++ acts2).
Proof. unfold said. intros H. apply in_or_app. left. exact H. Qed.

Lemma said_app_r l acts1 acts2 : said l acts2 -> said l (acts1 ++ acts2).
Proof. unfold said. intros H. apply in_or_app. right. exact H. Qed.

Lemma step_spec_intro {A} (P : A -> list Session.action -> Prop) c :
  (forall s, exists r s' acts,
      c s = (r, s') /\
      trace (Session.env s') = trace (Session.env s) /\
      Session.journal s' = (Session.journal s ++ acts)%list /\
      forall a, r = Session.Done a -> P a acts) ->
  step_spec P c.
Proof.
  intros H s. destruct (H s) as (r & s' & acts & -> & Ht & Hj & HP).
  split; [exact Ht|]. exists acts. split; [exact Hj | exact HP].
Qed.

Ltac spec_leaf :=
  do 3 eexists; split; [reflexivity|];
  split; [reflexivity|];
  split; [cbn [Session.journal Session.record Session.set_tree];
          first [ rewrite <- ?app_assoc; cbn [app]; reflexivity
                | symmetry; apply app_nil_r ]|];
  let a := fresh "a" in let H := fresh "H" in
  intros a H;
  first [ discriminate H
        | injection H as <-;
          unfold marks, pushed, created, said;
          first [ exact I
                | intros H; discriminate H
                | intros _; cbn [In]; tauto
                | cbn [In]; tauto ] ].

Lemma input_calm stdin p : calm (Session.input stdin p).
Proof.
  apply step_spec_intro. intros s. unfold Session.input. destruct (stdin (Session.asks s)); spec_leaf.
Qed.

Lemma path_exists_calm path : calm (Session.path_exists path).
Proof.
  intros s. cbn. split; [reflexivity|]. exists []. rewrite app_nil_r. auto.
Qed.

Lemma say_all_calm ls : calm (Session.say_all ls).
Proof.
  intros s. rewrite say_all_eq. cbn. split; [reflexivity|]. eauto.
Qed.

Lemma init_git_repo_calm git : calm (Session.init_git_repo git).
Proof.
  apply step_spec_intro. intros s. unfold Session.init_git_repo. init_run git. all: spec_leaf.
Qed.

Lemma commit_and_push_marks git render lower timestamp repo_name :
  step_spec (marks pushed)
    (Session.commit_and_push git render lower timestamp repo_name).
Proof.
  apply step_spec_intro. intros s. unfold Session.commit_and_push. session_run git. all: spec_leaf.
Qed.

Lemma create_github_repo_marks github render repo_name :
  step_spec (marks created) (Session.create_github_repo github render repo_name).
Proof.
  apply step_spec_intro. intros s.
  unfold Session.create_github_repo, Session.requests_post,
    Session.answer_decoded, Session.bind, Session.catch, Session.say,
    Session.ret, Session.throw.
  destruct (github _ _) as [|a]; [spec_leaf|].
  destruct (Session.answer_status a =? 201)%Z; [spec_leaf|].
  destruct (Session.answer_status a =? 422)%Z.
  { destruct (Session.answer_json a) as [j|]; [|spec_leaf].
    destruct (contains _ _); spec_leaf. }
  destruct (Session.answer_status a =? 403)%Z; [spec_leaf|].
  destruct (Session.answer_json a) as [j|]; spec_leaf.
Qed.

Lemma create_workflow_file_marks :
  step_spec (fun _ => said Session.SayGitignoreCreated)
    Session.create_workflow_file.
Proof.
  apply step_spec_intro. intros s. workflow_unfold.
  destruct (make_dirs _ _) as [d1|].
  2:{ spec_leaf. }
  cbn [Session.env Session.set_tree Session.record cwd].
  destruct (write_file _ _ d1) as [d2|].
  2:{ spec_leaf. }
  cbn [Session.env Session.set_tree Session.record cwd].
  destruct (write_file _ _ d2) as [d3|].
  2:{ spec_leaf. }
  spec_leaf.
Qed.

Lemma monitor_grows server repo_name s :
  Session.journal (snd (Session.monitor server repo_name s)) = Session.journal s.
Proof.
  unfold Session.monitor.
  destruct (monitor_build server repo_name (Session.env s)) as [[b|e] w];
    reflexivity.
Qed.

Section SetupSteps.

Variable render : json -> string.
Variable stdin : nat -> option string.
Variable strip : string -> string.
Variable dump : list (string * json) -> string.
Variable whoami : nat -> string -> option Session.user_answer.

Lemma verify_credentials_marks :
  step_spec (marks (said Session.SayVerified))
    (Session.verify_credentials render dump whoami).
Proof.
  apply step_spec_intro. intros s.
  unfold Session.verify_credentials, Session.save_config, Session.write_text,
    Session.bind, Session.config_item, Session.requests_get_user, Session.say,
    Session.ret.
  destruct (write_file _ _ _) as [d|].
  2:{ spec_leaf. }
  cbn [Session.config Session.set_tree].
  destruct (assoc "github_token" (Session.config s)) as [token|].
  2:{ spec_leaf. }
  destruct (whoami _ _) as [a|]; [|spec_leaf].
  destruct (Session.user_status a =? 200)%Z; cbn [negb]; [|spec_leaf].
  destruct (missing_scopes _); spec_leaf.
Qed.

Lemma required_marks P key p complaint rest :
  (forall x acts, P acts -> P (x :: acts)) ->
  step_spec (marks P) rest ->
  step_spec (marks P) (Session.required stdin strip key p complaint rest).
Proof.
  intros Hmono Hrest. apply step_spec_intro. intros s.
  destruct (required_cases stdin strip key p complaint rest s) as [[_ E]|[_ E]].
  - rewrite E. destruct (Hrest s) as (Ht & acts & Hj & HP).
    destruct (rest s) as [r s']. exists r, s', acts. cbn [fst snd] in *. auto.
  - destruct (stdin (Session.asks s)) as [text|]; [|rewrite E; spec_leaf].
    destruct (strip text =? ""); rewrite E; [spec_leaf|].
    match goal with
    | |- context [rest ?s1] =>
        destruct (Hrest s1) as (Ht & acts & Hj & HP);
        destruct (rest s1) as [r s']
    end.
    cbn [fst snd Session.env Session.journal] in *.
    exists r, s', (Session.Ask p :: acts).
    split; [reflexivity|]. split; [exact Ht|].
    split; [rewrite Hj, <- app_assoc; reflexivity|].
    intros a Ha Hb. apply Hmono. exact (HP a Ha Hb).
Qed.

Lemma setup_credentials_marks :
  step_spec (marks (said Session.SayVerified))
    (Session.setup_credentials render stdin strip dump whoami).
Proof.
  unfold Session.setup_credentials.
  eapply (step_spec_bind (fun _ _ => True) (marks (said Session.SayVerified)));
    [apply say_all_calm | intros _ | ].
  - repeat (apply required_marks; [intros x acts H; right; exact H|]).
    apply verify_credentials_marks.
  - cbv beta. intros _ b acts1 acts2 _ H Hb. apply said_app_r. exact (H Hb).
Qed.

End SetupSteps.

Lemma before_monitor_ret {A} Q (a : A) : before_monitor Q (Session.ret a).
Proof. intros s. left. reflexivity. Qed.

Lemma before_monitor_bind {A B} (P : A -> list Session.action -> Prop)
      (Q' Q : list Session.action -> Prop) c (k : A -> Session.Sh B) :
  step_spec P c ->
  (forall a, before_monitor Q' (k a)) ->
  (forall a acts1 acts2, P a acts1 -> Q' acts2 -> Q (acts1 ++ acts2)%list) ->
  before_monitor Q (Session.bind c k).
Proof.
  intros Hc Hk HQ s. unfold Session.bind.
  destruct (Hc s) as (Ht & acts1 & Hj & HP).
  destruct (c s) as [[a|e] s1]; cbn [fst snd] in *; [|left; exact Ht].
  destruct (Hk a s1) as [Ht2|(acts2 & Hj2 & HQ')].
  - left. congruence.
  - right. exists (acts1 ++ acts2)%list.
    split; [rewrite Hj2, Hj, app_assoc; reflexivity|]. eapply HQ; eauto.
Qed.

(** [ok = c(); if not ok: return; k()] *)
Lemma before_monitor_guard (P Q' Q : list Session.action -> Prop) c
      (k : Session.Sh unit) :
  step_spec (marks P) c ->
  before_monitor Q' k ->
  (forall acts1 acts2, P acts1 -> Q' acts2 -> Q (acts1 ++ acts2)%list) ->
  before_monitor Q
    (Session.bind c (fun ok => if negb ok then Session.ret tt else k)).
Proof.
  intros Hc Hk HQ s. unfold Session.bind.
  destruct (Hc s) as (Ht & acts1 & Hj & HP).
  destruct (c s) as [[[|]|e] s1]; cbn [fst snd negb] in *;
    [|left; exact Ht|left; exact Ht].
  destruct (Hk s1) as [Ht2|(acts2 & Hj2 & HQ')].
  - left. congruence.
  - right. exists (acts1 ++ acts2)%list.
    split; [rewrite Hj2, Hj, app_assoc; reflexivity|].
    apply HQ; [exact (HP true eq_refl eq_refl) | exact HQ'].
Qed.

Ltac marks_solve :=
  unfold ready, prepared, created, pushed in *;
  intuition (auto using said_app_l, said_app_r).

Section RunSteps.

Variable git : nat -> list string -> dir -> Session.spawned * dir.
Variable github : nat -> json -> Session.posted.
Variable render : json -> string.
Variable lower : string -> string.
Variable timestamp : string.
Variable stdin : nat -> option string.
Variable strip : string -> string.
Variable dump : list (string * json) -> string.
Variable whoami : nat -> string -> option Session.user_answer.
Variable server : nat -> endpoint -> http_result.
Variable current_dir : string.

Lemma monitor_tail repo_name :
  before_monitor (fun _ => True)
    (Session.bind (Session.monitor server repo_name)
       (fun built =>
          if built then Session.say Session.SayCompleted
          else Session.say Session.SayRetryHint)).
Proof.
  intros s. right. unfold Session.bind.
  pose proof (monitor_grows server repo_name s) as Hj.
  destruct (Session.monitor server repo_name s) as [[[|]|e] s1];
    cbn [snd Session.say Session.record Session.journal] in *;
    rewrite Hj; eexists; (split; [|exact I]);
    first [reflexivity | symmetry; apply app_nil_r].
Qed.

Lemma build_steps_wait repo_name :
  before_monitor prepared
    (Session.build_steps git github render lower timestamp server repo_name).
Proof.
  unfold Session.build_steps.
  apply (before_monitor_guard created
           (fun acts => said Session.SayGitignoreCreated acts /\ pushed acts));
    [apply create_github_repo_marks | | intros; marks_solve].
  apply (before_monitor_bind (fun _ => said Session.SayGitignoreCreated) pushed);
    [apply create_workflow_file_marks | intros _ | intros; marks_solve].
  apply (before_monitor_guard pushed (fun _ => True));
    [apply commit_and_push_marks | apply monitor_tail | intros; marks_solve].
Qed.

Lemma git_steps_wait repo_name :
  before_monitor prepared
    (Session.git_steps git github render lower timestamp server repo_name).
Proof.
  unfold Session.git_steps.
  apply (before_monitor_bind (fun _ _ => True) prepared);
    [apply path_exists_calm | intros is_repo | intros; marks_solve].
  destruct is_repo; cbn [negb]; [apply build_steps_wait|].
  apply (before_monitor_guard (fun _ => True)
           prepared);
    [ | apply build_steps_wait | intros; marks_solve].
  eapply step_spec_weaken; [|apply init_git_repo_calm]. intros a acts _ _. exact I.
Qed.

(** X23.  [run] starts the monitor last.  Either nothing of the monitor has
    happened (no line of it printed, no request sent, no sleep), or [run]
    has before printed that the credentials are verified, that the
    repository is created or exists already, that the workflow file and
    [.gitignore] are written, and that the push is done or that there was
    nothing to commit. *)
Theorem run_monitors_after_the_push (s : Session.session) :
  let after :=
    snd (Session.run git github render lower timestamp stdin strip dump whoami
           server current_dir s) in
  trace (Session.env after) = trace (Session.env s) \/
  exists acts,
    Session.journal after = (Session.journal s ++ acts)%list /\
    said Session.SayVerified acts /\
    (said Session.SayRepoCreated acts \/ said Session.SayRepoExists acts) /\
    said Session.SayGitignoreCreated acts /\
    (said Session.SayPushed acts \/ said Session.SayNoChanges acts).
Proof.
  cbv zeta. revert s.
  change (before_monitor ready
            (Session.run git github render lower timestamp stdin strip dump
               whoami server current_dir)).
  unfold Session.run.
  apply (before_monitor_bind (fun _ _ => True) ready);
    [eapply step_spec_weaken; [|apply step_spec_say]; auto
    | intros _ | intros; marks_solve].
  apply (before_monitor_guard (said Session.SayVerified)
           prepared);
    [apply setup_credentials_marks | | intros; marks_solve].
  apply (before_monitor_bind (fun _ _ => True) prepared);
    [apply input_calm | intros text; cbv zeta | intros; marks_solve].
  apply (before_monitor_bind (fun _ _ => True) prepared);
    [apply path_exists_calm | intros in_app | intros; marks_solve].
  apply (before_monitor_bind (fun _ _ => True) prepared);
    [apply path_exists_calm | intros at_top | intros; marks_solve].
  destruct (negb (in_app || at_top)); [|apply git_steps_wait].
  apply (before_monitor_bind (fun _ _ => True) prepared);
    [eapply step_spec_weaken; [|apply step_spec_say]; intros; exact I
    | intros _ | intros; marks_solve].
  apply (before_monitor_bind (fun _ _ => True) prepared);
    [apply input_calm | intros answer | intros; marks_solve].
  destruct (negb (lower answer =? "y"%string)); [apply before_monitor_ret|].
  apply git_steps_wait.
Qed.

(** X24.  In a directory without [app/build.gradle] and [build.gradle],
    [run] asks whether to continue and stops, when the answer in lower case
    is not [y]: it returns with no process run and no post sent, and the
    tree as [setup_credentials] left it. *)
Theorem declined_run_stops (s s1 : Session.session) (text answer : string) :
  Session.setup_credentials render stdin strip dump whoami
    (Session.record (Session.Say Session.SayStarted) s) =
    (Session.Done true, s1) ->
  stdin (Session.asks s1) = Some text ->
  exists_path ["app"; "build.gradle"] (cwd (Session.env s1)) = false ->
  exists_path ["build.gradle"] (cwd (Session.env s1)) = false ->
  stdin (S (Session.asks s1)) = Some answer ->
  lower answer <> "y" ->
  Session.run git github render lower timestamp stdin strip dump whoami
    server current_dir s =
  (Session.Done tt,
   Session.record (Session.Ask Session.AskContinue)
     (Session.record (Session.Say Session.SayNotAndroid)
        (Session.record (Session.Ask (Session.AskRepoName current_dir)) s1))).
Proof.
  intros Hs Ht Ha Hb Hn Hy.
  unfold Session.run. unfold Session.bind at 1. unfold Session.say at 1.
  unfold Session.bind at 1. rewrite Hs. cbn [negb].
  unfold Session.bind, Session.input, Session.path_exists, Session.say.
  rewrite Ht. cbn [Session.env Session.record cwd]. rewrite Ha, Hb.
  cbn [orb negb]. rewrite !asks_record. cbn [Session.is_ask].
  replace (Session.asks s1 + 1 + 0) with (S (Session.asks s1)) by lia.
  rewrite Hn. apply String.eqb_neq in Hy. rewrite Hy. reflexivity.
Qed.

End RunSteps.

Lemma declined_run_stops_witness :
  Session.spawns
    (snd (Session.run Desk.git_ok Desk.creates Desk.render Desk.lower
            "2024-05-01 10:00:00" (Desk.typed [""; "n"]) Desk.strip Desk.dump
            (Desk.accepts "repo, workflow") Scenario.succeeds "app"
            Desk.settled)) = 0.
Proof.
  rewrite (declined_run_stops
             Desk.git_ok Desk.creates Desk.render Desk.lower
             "2024-05-01 10:00:00" (Desk.typed [""; "n"]) Desk.strip Desk.dump
             (Desk.accepts "repo, workflow") Scenario.succeeds "app"
             Desk.settled
             (snd (Session.setup_credentials Desk.render
                     (Desk.typed [""; "n"]) Desk.strip Desk.dump
                     (Desk.accepts "repo, workflow")
                     (Session.record (Session.Say Session.SayStarted)
                        Desk.settled)))
             "" "n").
  - vm_compute. reflexivity.
  - vm_compute. reflexivity.
  - vm_compute. reflexivity.
  - vm_compute. reflexivity.
  - vm_compute. reflexivity.
  - vm_compute. reflexivity.
  - discriminate.
Defined.
